(** * Stock ledger of the inventory backend

    A shallow embedding of [routes/inventory.js] (the movement endpoints
    and the movement list), of the product routes that write
    [stock_actual], and of the two tables of [database/schema.sql] they
    touch.  Request fields are kept as the JavaScript values the handlers
    receive, because the validators of [inventoryValidation] check a
    field without converting it: what reaches the arithmetic is the raw
    value of the request body. *)

From Stdlib Require Import ZArith List String Ascii Bool Lia.
From Stdlib Require Import DecimalString DecimalZ Permutation Sorted.
Import ListNotations.

Local Open Scope string_scope.
Local Open Scope Z_scope.

(** ** JavaScript values of a request *)

(** The values a body or query field takes in this model: absent, an
    integer number, text, or an array of such values.  [JNaN] only
    arises from arithmetic.  Text is a sequence of one-byte characters.
    A JSON number with a fractional part is seen by the validators
    through its decimal text, which is what [JStr] carries. *)
#[warnings="-register-all"] Inductive jsval : Type :=
| JUndefined
| JNaN
| JNum (z : Z)
| JStr (s : string)
| JArr (items : list jsval).

Definition string_of_Z (z : Z) : string :=
  NilZero.string_of_int (Z.to_int z).

(** [String(v)], also what a template literal prints; an array is the
    texts of its elements joined by commas, an absent element being
    empty. *)
Fixpoint js_String (v : jsval) : string :=
  match v with
  | JUndefined => "undefined"
  | JNaN => "NaN"
  | JNum z => string_of_Z z
  | JStr s => s
  | JArr items =>
      String.concat ","
        (map (fun x => match x with
                       | JUndefined => ""
                       | _ => js_String x
                       end) items)
  end.

(** A run of decimal digits, at least one: [[0-9]+]. *)
Definition parse_digits (s : string) : option Z :=
  option_map Z.of_uint (NilZero.uint_of_string s).

(** The integer literals [/^[-+]?[0-9]+$/] and their value. *)
Definition parse_int (s : string) : option Z :=
  match s with
  | String "-" r => option_map Z.opp (parse_digits r)
  | String "+" r => parse_digits r
  | _ => parse_digits s
  end.

(** The number a text stands for, where it is an integer read without
    more ado: the empty text is 0, an integer literal is its value. *)
Definition number_of_text (s : string) : option Z :=
  if String.eqb s "" then Some 0 else parse_int s.

(** [Number(v)] on the values whose numeric reading is an integer; [None]
    is [NaN].  An array is read through its text.  Text is read when it
    is empty or an integer literal: of the texts the validators let
    through to the arithmetic, all the others are [NaN]. *)
Definition js_Number (v : jsval) : option Z :=
  match v with
  | JNum z => Some z
  | JStr s => number_of_text s
  | JArr _ => number_of_text (js_String v)
  | _ => None
  end.

Definition of_number (n : option Z) : jsval :=
  match n with
  | Some z => JNum z
  | None => JNaN
  end.

(** [a + v] for a number [a]: addition of numbers, concatenation as soon
    as [v] is text or an array. *)
Definition js_add (a : Z) (v : jsval) : jsval :=
  match v with
  | JNum b => JNum (a + b)
  | JStr _ | JArr _ => JStr (string_of_Z a ++ js_String v)
  | _ => JNaN
  end.

(** [a - v]: both sides are converted to numbers. *)
Definition js_sub (a : Z) (v : jsval) : jsval :=
  of_number (option_map (fun b => a - b) (js_Number v)).

(** [a < v]; a comparison with [NaN] is false. *)
Definition js_lt (a : Z) (v : jsval) : bool :=
  match js_Number v with
  | Some b => a <? b
  | None => false
  end.

(** [Math.abs(v - a)]. *)
Definition js_abs_diff (v : jsval) (a : Z) : jsval :=
  of_number (option_map (fun b => Z.abs (b - a)) (js_Number v)).

(** Blanks: tab, line feed, vertical tab, form feed, carriage return,
    space, and the no-break space. *)
Definition is_space (c : ascii) : bool :=
  let n := Z.of_N (N_of_ascii c) in
  ((9 <=? n) && (n <=? 13)) || (n =? 32) || (n =? 160).

Fixpoint skip_spaces (s : string) : string :=
  match s with
  | String c r => if is_space c then skip_spaces r else s
  | EmptyString => s
  end.

Definition digit_value (c : ascii) : option Z :=
  let n := Z.of_N (N_of_ascii c) in
  if (48 <=? n) && (n <=? 57) then Some (n - 48) else None.

Definition hex_value (c : ascii) : option Z :=
  let n := Z.of_N (N_of_ascii c) in
  if (48 <=? n) && (n <=? 57) then Some (n - 48)
  else if (97 <=? n) && (n <=? 102) then Some (n - 87)
  else if (65 <=? n) && (n <=? 70) then Some (n - 55)
  else None.

(** The longest run of digits at the head of [s], read in base [base]
    after the [n] digits already worth [acc]: the value, the number of
    digits, and what follows them. *)
Fixpoint read_digits (value_of : ascii -> option Z) (base acc : Z) (n : nat)
    (s : string) : Z * nat * string :=
  match s with
  | String c r =>
      match value_of c with
      | Some d => read_digits value_of base (base * acc + d) (S n) r
      | None => (acc, n, s)
      end
  | EmptyString => (acc, n, s)
  end.

Definition read_sign (s : string) : bool * string :=
  match s with
  | String "-" r => (true, r)
  | String "+" r => (false, r)
  | _ => (false, s)
  end.

Definition signed (negative : bool) (z : Z) : Z :=
  if negative then - z else z.

(** [parseInt] of a text: blanks are skipped, then a sign, then the
    digits at the head are read, in base 16 after [0x]; what follows
    them is ignored, and a text with no digit there is [NaN]. *)
Definition parseInt_text (s : string) : option Z :=
  let (negative, s2) := read_sign (skip_spaces s) in
  let '(v, n, _) :=
    match s2 with
    | String "0" (String "x" r) | String "0" (String "X" r) =>
        read_digits hex_value 16 0 0 r
    | _ => read_digits digit_value 10 0 0 s2
    end in
  if Nat.eqb n 0 then None else Some (signed negative v).

(** [parseInt(v)]: the value is turned into text first. *)
Definition parseInt (v : jsval) : jsval := of_number (parseInt_text (js_String v)).

(** ** express-validator *)

(** The library turns a value into text before a standard validator
    sees it: an absent value becomes the empty text, and of an array
    that is not empty only the first element counts, itself turned into
    text without looking into it again. *)
Definition validator_toString_shallow (v : jsval) : string :=
  match v with
  | JUndefined | JNaN => ""
  | _ => js_String v
  end.

Definition validator_toString (v : jsval) : string :=
  match v with
  | JArr (x :: _) => validator_toString_shallow x
  | _ => validator_toString_shallow v
  end.

(** A standard validator runs on the field, or, when the field is an
    array, on each of its elements: an empty array passes every one. *)
Definition each (check : string -> bool) (v : jsval) : bool :=
  match v with
  | JArr items => forallb (fun x => check (validator_toString x)) items
  | _ => check (validator_toString v)
  end.

(** [isInt({ min })]: the text is an integer literal and is at least
    [min]. *)
Definition isInt_text (min : Z) (s : string) : bool :=
  match parse_int s with
  | Some z => min <=? z
  | None => false
  end.

Definition isInt (min : Z) (v : jsval) : bool := each (isInt_text min) v.

Definition isIn (allowed : list string) (v : jsval) : bool :=
  each (fun s => existsb (String.eqb s) allowed) v.

Definition isLength_max (max : nat) (v : jsval) : bool :=
  each (fun s => Nat.leb (String.length s) max) v.

(** [.optional()]: the chain is skipped when the field is absent. *)
Definition optional (check : jsval -> bool) (v : jsval) : bool :=
  match v with
  | JUndefined => true
  | _ => check v
  end.

(** ** Tables of [database/schema.sql] *)

(** [tipo ENUM('entrada', 'salida', 'ajuste')]. *)
Inductive tipo_movimiento : Type := entrada | salida | ajuste.

(** A row of [productos].  [precio] is in hundredths, the column being
    [DECIMAL(10,2)]; integer columns are unbounded here, a value the
    engine would refuse for its size counts as a fault of the call.
    [updated_at] is the second of the last statement that wrote the row.
    The columns [precio_compra], [imagen] and [created_at] are written
    by no route of this development and are left out. *)
Record producto : Type := mkProducto {
  p_id : Z;
  codigo : string;
  nombre : string;
  descripcion : string;
  precio : Z;
  stock_minimo : Z;
  stock_actual : Z;
  categoria_id : Z;
  activo : bool;
  updated_at : Z
}.

(** A row of [movimientos_inventario]; [motivo] is the one nullable
    column, [fecha_movimiento] the second at which the row was inserted. *)
Record movimiento : Type := mkMovimiento {
  m_id : Z;
  producto_id : Z;
  tipo : tipo_movimiento;
  cantidad : Z;
  cantidad_anterior : Z;
  cantidad_nueva : Z;
  motivo : option string;
  usuario_id : Z;
  fecha_movimiento : Z
}.

(** The two tables, rows in insertion order, with their AUTO_INCREMENT
    counters. *)
Record db : Type := mkDb {
  productos : list producto;
  movimientos_inventario : list movimiento;
  next_producto_id : Z;
  next_movimiento_id : Z
}.

Definition with_updated_at (now : Z) (p : producto) : producto :=
  mkProducto (p_id p) (codigo p) (nombre p) (descripcion p) (precio p)
             (stock_minimo p) (stock_actual p) (categoria_id p) (activo p)
             now.

(** [SET stock_actual = ?, updated_at = CURRENT_TIMESTAMP]. *)
Definition set_stock (now v : Z) (p : producto) : producto :=
  mkProducto (p_id p) (codigo p) (nombre p) (descripcion p) (precio p)
             (stock_minimo p) v (categoria_id p) (activo p) now.

(** [SET activo = ?, updated_at = CURRENT_TIMESTAMP]. *)
Definition set_activo (now : Z) (a : bool) (p : producto) : producto :=
  mkProducto (p_id p) (codigo p) (nombre p) (descripcion p) (precio p)
             (stock_minimo p) (stock_actual p) (categoria_id p) a now.

(** ** Bound parameters *)

(** A parameter that stands for an integer, bound to an INT column or
    compared with one: numbers go through, text is read as an integer
    literal.  What the driver does with a parameter that is an array is
    decided in [config/database], which is not part of the sources at
    hand; here the call is refused.  The routes that bind a parameter
    this way have had it checked by [isInt], or compare it with an id. *)
Definition sql_int (v : jsval) : option Z :=
  match v with
  | JNum z => Some z
  | JStr s => parse_int s
  | _ => None
  end.

Definition is_array (v : jsval) : bool :=
  match v with
  | JArr _ => true
  | _ => false
  end.

(** The value of [10 ^ k] for the scale [k] of a decimal text. *)
Definition pow10 (k : Z) : Z := 10 ^ k.

(** Text stored in an INT column (strict SQL mode): blanks around it
    are skipped, then come a sign, digits, a fraction and an exponent;
    the number is rounded to the nearest integer, a half away from
    zero.  Text with no digit, or with anything else in it, is
    refused. *)
Definition round_decimal (s : string) : option Z :=
  let (negative, s2) := read_sign (skip_spaces s) in
  let '(ip, n1, s3) := read_digits digit_value 10 0 0 s2 in
  let '(m, n2, s4) :=
    match s3 with
    | String "." r => read_digits digit_value 10 ip 0 r
    | _ => (ip, 0%nat, s3)
    end in
  if Nat.eqb (n1 + n2) 0 then None
  else
    let exponent :=
      match s4 with
      | String "e" r | String "E" r =>
          let (eneg, r1) := read_sign r in
          let '(e, n3, s5) := read_digits digit_value 10 0 0 r1 in
          if Nat.eqb n3 0 then None else Some (signed eneg e, s5)
      | _ => Some (0, s4)
      end in
    match exponent with
    | None => None
    | Some (e, s5) =>
        match skip_spaces s5 with
        | EmptyString =>
            let k := Z.of_nat n2 - e in
            Some (signed negative
                    (if k <=? 0 then m * pow10 (- k)
                     else (2 * m + pow10 k) / (2 * pow10 k)))
        | _ => None
        end
    end.

(** A value stored in an INT column that no validator has checked: the
    [stock] of the product routes.  A number goes through, text is
    rounded; an absent value or an array is refused. *)
Definition sql_int_column (v : jsval) : option Z :=
  match v with
  | JNum z => Some z
  | JStr s => round_decimal s
  | _ => None
  end.

(** A parameter bound to a TEXT column; an absent value is stored as
    NULL.  An array is refused where the statement is run. *)
Definition sql_text (v : jsval) : option string :=
  match v with
  | JUndefined => None
  | _ => Some (js_String v)
  end.

(** ** Statements of the movement endpoints *)

Inductive statement : Type :=
| INSERT_movimiento (producto_id : jsval) (tipo : tipo_movimiento)
    (cantidad : jsval) (cantidad_anterior : Z) (cantidad_nueva : jsval)
    (motivo : jsval) (usuario_id : Z)
| UPDATE_stock_actual (stock_actual : jsval) (id : jsval).

(** [SELECT id, nombre, stock_actual FROM productos WHERE id = ? AND
    activo = 1], the rows [executeQuery] resolves to.  An id that does
    not bind as an integer (see [sql_int]) matches no row. *)
Definition SELECT_producto_activo (d : db) (id : jsval) : list producto :=
  match sql_int id with
  | Some i => filter (fun p => (p_id p =? i) && activo p) (productos d)
  | None => []
  end.

Definition update_where_id (i : Z) (f : producto -> producto)
    (ps : list producto) : list producto :=
  map (fun p => if p_id p =? i then f p else p) ps.

(** One statement at time [now]; [None] when it is refused: a
    parameter that is an array, a value for an INT column that is no
    integer, or a movement of a product that does not exist (foreign
    key).  [UPDATE productos SET stock_actual = ?, updated_at =
    CURRENT_TIMESTAMP WHERE id = ?] writes every row of that id. *)
Definition exec_statement (now : Z) (q : statement) (d : db) : option db :=
  match q with
  | INSERT_movimiento pid t c ant nueva mot uid =>
      match sql_int pid, sql_int c, sql_int nueva with
      | Some pid', Some c', Some nueva' =>
          if is_array mot then None
          else if existsb (fun p => p_id p =? pid') (productos d) then
            Some (mkDb (productos d)
                       (movimientos_inventario d ++
                        [mkMovimiento (next_movimiento_id d) pid' t c' ant
                                      nueva' (sql_text mot) uid now])
                       (next_producto_id d)
                       (next_movimiento_id d + 1))
          else None
      | _, _, _ => None
      end
  | UPDATE_stock_actual v id =>
      match sql_int v with
      | Some v' =>
          match sql_int id with
          | Some i =>
              Some (mkDb (update_where_id i (set_stock now v') (productos d))
                         (movimientos_inventario d)
                         (next_producto_id d) (next_movimiento_id d))
          | None => if is_array id then None else Some d
          end
      | None => None
      end
  end.

(** What the storage layer does to a call, besides what the statements
    themselves decide: a read that fails, or a transaction that is
    aborted when it reaches statement number [tx_fault]. *)
Record faults : Type := mkFaults {
  query_fault : bool;
  tx_fault : option nat
}.

Definition no_faults : faults := mkFaults false None.

Definition aborts_at (f : faults) (k : nat) : bool :=
  match tx_fault f with
  | Some j => Nat.eqb j k
  | None => false
  end.

(** The statements of a transaction, in order, from statement number [k]
    on. *)
Fixpoint run_statements (f : faults) (now : Z) (k : nat)
    (queries : list statement) (d : db) : option db :=
  match queries with
  | [] => Some d
  | q :: rest =>
      if aborts_at f k then None
      else match exec_statement now q d with
           | Some d' => run_statements f now (S k) rest d'
           | None => None
           end
  end.

(** Modelled from the spec: [executeTransaction] of [config/database],
    which is not part of the sources at hand.  The statements are one
    all-or-nothing unit: either every one of them is applied and the
    result committed, or the call throws and the tables are as before. *)
Definition executeTransaction (f : faults) (now : Z)
    (queries : list statement) (d : db) : option db :=
  run_statements f now 0 queries d.

(** ** Requests and responses *)

(** [req.user], as the authentication middleware leaves it; a permission
    is what its field is worth in a condition. *)
Record user : Type := mkUser {
  user_id : Z;
  permisos_all : bool;
  permisos_inventory : bool;
  permisos_products : bool
}.

Record body : Type := mkBody {
  body_producto_id : jsval;
  body_tipo : jsval;
  body_cantidad : jsval;
  body_motivo : jsval
}.

(** The [movimiento] object of a 201 response. *)
Record movimiento_json : Type := mkMovimientoJson {
  j_producto_id : jsval;
  j_producto_nombre : string;
  j_tipo : tipo_movimiento;
  j_cantidad : jsval;
  j_cantidad_anterior : Z;
  j_cantidad_nueva : jsval;
  j_motivo : jsval;
  j_usuario_id : Z
}.

Inductive response : Type :=
| json_error (status : Z) (error : string) (message : string)
| json_invalid (status : Z) (error : string) (details : list string)
| json_movimiento (status : Z) (message : string) (data : movimiento_json)
| json_success (status : Z) (message : string).

Definition status_of (r : response) : Z :=
  match r with
  | json_error s _ _ => s
  | json_invalid s _ _ => s
  | json_movimiento s _ _ => s
  | json_success s _ => s
  end.

(** [inventoryValidation], with [validationResult]: the messages of the
    fields that fail, in the order of the chain. *)
Definition inventoryValidation (b : body) : list string :=
  (if isInt 1 (body_producto_id b) then []
   else ["El ID del producto es requerido"]) ++
  (if isIn ["entrada"; "salida"; "ajuste"] (body_tipo b) then []
   else ["El tipo debe ser entrada, salida o ajuste"]) ++
  (if isInt 1 (body_cantidad b) then []
   else ["La cantidad debe ser un número entero positivo"]) ++
  (if optional (isLength_max 500) (body_motivo b) then []
   else ["El motivo no puede exceder 500 caracteres"]).

(** ** The movement endpoints *)

Inductive dbcall : Type := call_executeQuery | call_executeTransaction.

(** A handler up to its second [await]: it has answered (after the
    storage calls listed), or it holds the statements of its transaction
    together with the answers for a commit and for a throw. *)
Inductive prepared : Type :=
| Replied (calls : list dbcall) (r : response)
| Ready (queries : list statement) (created failed : response).

Record outcome : Type := mkOutcome {
  reply : response;
  store : db;
  calls : list dbcall
}.

Definition denied (u : user) : bool :=
  negb (permisos_all u) && negb (permisos_inventory u).

Definition not_found : response :=
  json_error 404 "Producto no encontrado"
             "El producto especificado no existe o está inactivo".

Definition server_error (message : string) : response :=
  json_error 500 "Error interno del servidor" message.

(** [POST /entrada] up to [executeTransaction]. *)
Definition entrada_prepare (f : faults) (u : user) (b : body) (d : db)
    : prepared :=
  if denied u then
    Replied [] (json_error 403 "Acceso denegado"
      "No tiene permisos para registrar entradas de inventario")
  else match inventoryValidation b with
  | e :: errors => Replied [] (json_invalid 400 "Datos inválidos" (e :: errors))
  | [] =>
    if query_fault f then
      Replied [call_executeQuery]
              (server_error "Error registrando la entrada de inventario")
    else match SELECT_producto_activo d (body_producto_id b) with
    | [] => Replied [call_executeQuery] not_found
    | producto :: _ =>
      let cantidad_anterior := stock_actual producto in
      let cantidad_nueva := js_add cantidad_anterior (body_cantidad b) in
      Ready
        [INSERT_movimiento (body_producto_id b) entrada (body_cantidad b)
           cantidad_anterior cantidad_nueva (body_motivo b) (user_id u);
         UPDATE_stock_actual cantidad_nueva (body_producto_id b)]
        (json_movimiento 201 "Entrada de inventario registrada exitosamente"
           (mkMovimientoJson (parseInt (body_producto_id b)) (nombre producto)
              entrada (parseInt (body_cantidad b)) cantidad_anterior
              cantidad_nueva (body_motivo b) (user_id u)))
        (server_error "Error registrando la entrada de inventario")
    end
  end.

(** [POST /salida] up to [executeTransaction]. *)
Definition salida_prepare (f : faults) (u : user) (b : body) (d : db)
    : prepared :=
  if denied u then
    Replied [] (json_error 403 "Acceso denegado"
      "No tiene permisos para registrar salidas de inventario")
  else match inventoryValidation b with
  | e :: errors => Replied [] (json_invalid 400 "Datos inválidos" (e :: errors))
  | [] =>
    if query_fault f then
      Replied [call_executeQuery]
              (server_error "Error registrando la salida de inventario")
    else match SELECT_producto_activo d (body_producto_id b) with
    | [] => Replied [call_executeQuery] not_found
    | producto :: _ =>
      let cantidad_anterior := stock_actual producto in
      if js_lt cantidad_anterior (body_cantidad b) then
        Replied [call_executeQuery]
          (json_error 400 "Stock insuficiente"
             ("No hay suficiente stock. Disponible: "
              ++ string_of_Z cantidad_anterior ++ ", Solicitado: "
              ++ js_String (body_cantidad b)))
      else
      let cantidad_nueva := js_sub cantidad_anterior (body_cantidad b) in
      Ready
        [INSERT_movimiento (body_producto_id b) salida (body_cantidad b)
           cantidad_anterior cantidad_nueva (body_motivo b) (user_id u);
         UPDATE_stock_actual cantidad_nueva (body_producto_id b)]
        (json_movimiento 201 "Salida de inventario registrada exitosamente"
           (mkMovimientoJson (parseInt (body_producto_id b)) (nombre producto)
              salida (parseInt (body_cantidad b)) cantidad_anterior
              cantidad_nueva (body_motivo b) (user_id u)))
        (server_error "Error registrando la salida de inventario")
    end
  end.

(** [POST /ajuste] up to [executeTransaction]. *)
Definition ajuste_prepare (f : faults) (u : user) (b : body) (d : db)
    : prepared :=
  if denied u then
    Replied [] (json_error 403 "Acceso denegado"
      "No tiene permisos para registrar ajustes de inventario")
  else match inventoryValidation b with
  | e :: errors => Replied [] (json_invalid 400 "Datos inválidos" (e :: errors))
  | [] =>
    if query_fault f then
      Replied [call_executeQuery]
              (server_error "Error registrando el ajuste de inventario")
    else match SELECT_producto_activo d (body_producto_id b) with
    | [] => Replied [call_executeQuery] not_found
    | producto :: _ =>
      let cantidad_anterior := stock_actual producto in
      let cantidad_nueva := body_cantidad b in
      Ready
        [INSERT_movimiento (body_producto_id b) ajuste
           (js_abs_diff cantidad_nueva cantidad_anterior)
           cantidad_anterior cantidad_nueva (body_motivo b) (user_id u);
         UPDATE_stock_actual cantidad_nueva (body_producto_id b)]
        (json_movimiento 201 "Ajuste de inventario registrado exitosamente"
           (mkMovimientoJson (parseInt (body_producto_id b)) (nombre producto)
              ajuste (js_abs_diff cantidad_nueva cantidad_anterior)
              cantidad_anterior cantidad_nueva (body_motivo b) (user_id u)))
        (server_error "Error registrando el ajuste de inventario")
    end
  end.

(** The rest of a handler: [await executeTransaction(queries)], the 201
    answer after it, the [catch] around it. *)
Definition complete (f : faults) (now : Z) (p : prepared) (d : db) : outcome :=
  match p with
  | Replied cs r => mkOutcome r d cs
  | Ready queries created failed =>
      match executeTransaction f now queries d with
      | Some d' =>
          mkOutcome created d' [call_executeQuery; call_executeTransaction]
      | None =>
          mkOutcome failed d [call_executeQuery; call_executeTransaction]
      end
  end.

Definition prepare (t : tipo_movimiento)
    : faults -> user -> body -> db -> prepared :=
  match t with
  | entrada => entrada_prepare
  | salida => salida_prepare
  | ajuste => ajuste_prepare
  end.

(** A movement request served from start to end with no other request in
    between; [t] is the route, not the [tipo] field of the body. *)
Definition POST_movimiento (t : tipo_movimiento) (f : faults) (now : Z)
    (u : user) (b : body) (d : db) : outcome :=
  complete f now (prepare t f u b d) d.

Definition POST_entrada := POST_movimiento entrada.
Definition POST_salida := POST_movimiento salida.
Definition POST_ajuste := POST_movimiento ajuste.

(** ** The product routes that write [productos] *)

(** The body of [POST /api/products] and [PUT /api/products/:id].  Only
    [stock] is kept as a raw value: it is the field bound to
    [stock_actual]; the others are taken as already of their column's
    type. *)
Record producto_body : Type := mkProductoBody {
  pb_nombre : string;
  pb_descripcion : string;
  pb_precio : Z;
  pb_stock : jsval;
  pb_stock_minimo : Z;
  pb_categoria_id : Z
}.

Definition denied_products (u : user) : bool :=
  negb (permisos_all u) && negb (permisos_products u).

Definition count_where_id_activo (i : Z) (ps : list producto) : nat :=
  List.length (filter (fun p => (p_id p =? i) && activo p) ps).

Definition update_where_id_activo (i : Z) (f : producto -> producto)
    (ps : list producto) : list producto :=
  map (fun p => if (p_id p =? i) && activo p then f p else p) ps.

(** [POST /api/products]: [INSERT INTO productos (codigo, nombre,
    descripcion, precio, stock_actual, stock_minimo, categoria_id)], the
    code being [PROD-] followed by the clock of the server in
    milliseconds; [now] is the second on the clock of the engine.
    [fault] says that the call to the storage layer throws. *)
Definition POST_products (fault : bool) (now_ms now : Z) (u : user)
    (b : producto_body) (d : db) : response * db :=
  if denied_products u then
    (json_error 403 "Acceso denegado" "No tiene permisos para crear productos", d)
  else if fault then (server_error "Error creando el producto", d)
  else match sql_int_column (pb_stock b) with
  | None => (server_error "Error creando el producto", d)
  | Some stock =>
      (json_success 200 "Producto creado exitosamente",
       mkDb (productos d ++
             [mkProducto (next_producto_id d) ("PROD-" ++ string_of_Z now_ms)
                (pb_nombre b) (pb_descripcion b) (pb_precio b)
                (pb_stock_minimo b) stock (pb_categoria_id b) true now])
            (movimientos_inventario d)
            (next_producto_id d + 1) (next_movimiento_id d))
  end.

(** [SET nombre = ?, descripcion = ?, precio = ?, stock_actual = ?,
    stock_minimo = ?, categoria_id = ?, updated_at =
    CURRENT_TIMESTAMP]. *)
Definition set_columns (b : producto_body) (stock now : Z) (p : producto)
    : producto :=
  mkProducto (p_id p) (codigo p) (pb_nombre b) (pb_descripcion b)
             (pb_precio b) (pb_stock_minimo b) stock (pb_categoria_id b)
             (activo p) now.

(** [PUT /api/products/:id]: [UPDATE productos SET ... WHERE id = ? AND
    activo = 1] at second [now]. *)
Definition PUT_products (fault : bool) (now : Z) (u : user) (id : jsval)
    (b : producto_body) (d : db) : response * db :=
  if denied_products u then
    (json_error 403 "Acceso denegado"
                "No tiene permisos para actualizar productos", d)
  else if fault then (server_error "Error actualizando el producto", d)
  else match sql_int id with
  | Some i =>
      if Nat.eqb (count_where_id_activo i (productos d)) 0 then
        (json_error 404 "Producto no encontrado"
                    "El producto no existe o ya fue eliminado", d)
      else match sql_int_column (pb_stock b) with
      | None => (server_error "Error actualizando el producto", d)
      | Some stock =>
          (json_success 200 "Producto actualizado exitosamente",
           mkDb (update_where_id_activo i (set_columns b stock now)
                                        (productos d))
                (movimientos_inventario d)
                (next_producto_id d) (next_movimiento_id d))
      end
  | None =>
      (json_error 404 "Producto no encontrado"
                  "El producto no existe o ya fue eliminado", d)
  end.

(** [DELETE /api/products/:id]: [UPDATE productos SET activo = 0,
    updated_at = CURRENT_TIMESTAMP WHERE id = ? AND activo = 1] at
    second [now]. *)
Definition DELETE_products (fault : bool) (now : Z) (u : user) (id : jsval)
    (d : db) : response * db :=
  if denied_products u then
    (json_error 403 "Acceso denegado"
                "No tiene permisos para eliminar productos", d)
  else if fault then (server_error "Error eliminando el producto", d)
  else match sql_int id with
  | Some i =>
      if Nat.eqb (count_where_id_activo i (productos d)) 0 then
        (json_error 404 "Producto no encontrado"
                    "El producto no existe o ya fue eliminado", d)
      else
        (json_success 200 "Producto eliminado exitosamente",
         mkDb (update_where_id_activo i (set_activo now false) (productos d))
              (movimientos_inventario d)
              (next_producto_id d) (next_movimiento_id d))
  | None =>
      (json_error 404 "Producto no encontrado"
                  "El producto no existe o ya fue eliminado", d)
  end.

(** ** The operations that write, and their sequences *)

Inductive operation : Type :=
| op_movimiento (t : tipo_movimiento) (f : faults) (now : Z) (u : user)
    (b : body)
| op_POST_products (fault : bool) (now_ms now : Z) (u : user)
    (b : producto_body)
| op_PUT_products (fault : bool) (now : Z) (u : user) (id : jsval)
    (b : producto_body)
| op_DELETE_products (fault : bool) (now : Z) (u : user) (id : jsval).

Definition apply_operation (o : operation) (d : db) : db :=
  match o with
  | op_movimiento t f now u b => store (POST_movimiento t f now u b d)
  | op_POST_products fault now_ms now u b =>
      snd (POST_products fault now_ms now u b d)
  | op_PUT_products fault now u id b => snd (PUT_products fault now u id b d)
  | op_DELETE_products fault now u id => snd (DELETE_products fault now u id d)
  end.

Definition run_operations (ops : list operation) (d : db) : db :=
  fold_left (fun acc o => apply_operation o acc) ops d.

(** The stock a movement request reads for product [id]: that of the
    first active row the [SELECT] returns. *)
Definition stock_read (d : db) (id : jsval) : option Z :=
  option_map stock_actual (hd_error (SELECT_producto_activo d id)).

(** What the three routes bind to [cantidad_nueva] and to [cantidad],
    given the stock read and the [cantidad] of the body. *)
Definition nueva_of (t : tipo_movimiento) (anterior : Z) (c : jsval) : jsval :=
  match t with
  | entrada => js_add anterior c
  | salida => js_sub anterior c
  | ajuste => c
  end.

Definition registrada_of (t : tipo_movimiento) (anterior : Z) (c : jsval)
    : jsval :=
  match t with
  | ajuste => js_abs_diff c anterior
  | _ => c
  end.

(** The table of the specification: the stock after a movement of each
    kind, from the stock before and the quantity asked for. *)
Definition spec_stock_after (t : tipo_movimiento) (stock_before q : Z) : Z :=
  match t with
  | entrada => stock_before + q
  | salida => stock_before - q
  | ajuste => q
  end.

Definition stock_nonneg (d : db) : Prop :=
  Forall (fun p => 0 <= stock_actual p) (productos d).

(** ** Requests in flight *)

(** The handlers are asynchronous: while one waits for the storage layer
    another runs.  A request that arrives runs up to the answer of its
    [SELECT]; when it is resumed it runs its transaction on the tables as
    they are by then. *)
Record server : Type := mkServer {
  tables : db;
  in_flight : list (option prepared);
  answers : list response
}.

Inductive event : Type :=
| ev_arrive (t : tipo_movimiento) (f : faults) (u : user) (b : body)
| ev_resume (k : nat) (f : faults) (now : Z).

Fixpoint take_slot (k : nat) (l : list (option prepared))
    : option prepared * list (option prepared) :=
  match l, k with
  | [], _ => (None, [])
  | x :: r, O => (x, None :: r)
  | x :: r, S k' => let (p, r') := take_slot k' r in (p, x :: r')
  end.

Definition step (e : event) (s : server) : server :=
  match e with
  | ev_arrive t f u b =>
      mkServer (tables s)
               (in_flight s ++ [Some (prepare t f u b (tables s))])
               (answers s)
  | ev_resume k f now =>
      match take_slot k (in_flight s) with
      | (Some p, rest) =>
          let o := complete f now p (tables s) in
          mkServer (store o) rest (answers s ++ [reply o])
      | (None, _) => s
      end
  end.

Definition run_events (es : list event) (s : server) : server :=
  fold_left (fun acc e => step e acc) es s.

(** ** [GET /api/inventory] *)

(** The query string.  The two dates are the calendar days the engine
    reads from the ISO text, counted from the epoch. *)
Record query_params : Type := mkQuery {
  q_page : jsval;
  q_limit : jsval;
  q_tipo : jsval;
  q_producto_id : jsval;
  q_fecha_inicio : option Z;
  q_fecha_fin : option Z
}.

(** A row of the result: [m.*] with the columns taken from the product.
    The join with [usuarios] adds the user's names and, by the foreign
    key, keeps every row; it is left out. *)
Record movement_row : Type := mkRow {
  row_m : movimiento;
  producto_nombre : string;
  producto_codigo : string;
  row_stock_actual : Z
}.

Definition default (dflt : jsval) (v : jsval) : jsval :=
  match v with
  | JUndefined => dflt
  | _ => v
  end.

(** What a value is worth in a condition. *)
Definition truthy (v : jsval) : bool :=
  match v with
  | JUndefined | JNaN => false
  | JNum z => negb (z =? 0)
  | JStr s => negb (String.eqb s "")
  | JArr _ => true
  end.

Definition tipo_name (t : tipo_movimiento) : string :=
  match t with
  | entrada => "entrada"
  | salida => "salida"
  | ajuste => "ajuste"
  end.

Definition DATE (fecha : Z) : Z := fecha / 86400.

(** The WHERE clause the handler builds, one conjunct per filter given. *)
Definition where_clause (q : query_params) (m : movimiento) : bool :=
  (if truthy (q_tipo q)
   then String.eqb (tipo_name (tipo m)) (js_String (q_tipo q)) else true)
  && (if truthy (q_producto_id q)
      then match sql_int (q_producto_id q) with
           | Some i => producto_id m =? i
           | None => false
           end
      else true)
  && match q_fecha_inicio q with
     | Some day => day <=? DATE (fecha_movimiento m)
     | None => true
     end
  && match q_fecha_fin q with
     | Some day => DATE (fecha_movimiento m) <=? day
     | None => true
     end.

(** [FROM movimientos_inventario m JOIN productos p ON m.producto_id =
    p.id], with the movements a WHERE clause [keep] lets through. *)
Definition rows_kept (keep : movimiento -> bool) (d : db)
    : list movement_row :=
  flat_map
    (fun m =>
       map (fun p => mkRow m (nombre p) (codigo p) (stock_actual p))
           (filter (fun p => p_id p =? producto_id m) (productos d)))
    (filter keep (movimientos_inventario d)).

Definition rows_where (q : query_params) (d : db) : list movement_row :=
  rows_kept (where_clause q) d.

(** The filters of the query string that the engine reads as the WHERE
    clause above does: the kind is absent or one of the three names,
    and the product id is absent or binds as an integer.  For any other
    text, and for an array, the comparison is the engine's and the
    driver's affair. *)
Definition filters_bind (q : query_params) : bool :=
  (negb (truthy (q_tipo q))
   || (negb (is_array (q_tipo q))
       && existsb (String.eqb (js_String (q_tipo q)))
                  ["entrada"; "salida"; "ajuste"]))
  && (negb (truthy (q_producto_id q))
      || match sql_int (q_producto_id q) with
         | Some _ => true
         | None => false
         end).

Definition fecha (r : movement_row) : Z := fecha_movimiento (row_m r).

(** [ORDER BY m.fecha_movimiento DESC]: the rows, rearranged so that no
    row comes before a more recent one.  The clause names no other
    column, so the engine may deliver rows of one second in any order. *)
Definition ORDER_BY_fecha_DESC (rows sorted : list movement_row) : Prop :=
  Permutation rows sorted /\
  StronglySorted (fun a b => fecha b <= fecha a) sorted.

(** [(page - 1) * limit], where it is known to be an integer: both
    sides read as integers, or the page reads as 1, and then the
    product is 0 whatever number the limit reads as (when the limit
    reads as no number the product is [NaN], which the engine does not
    take, so that no 200 answer comes of it). *)
Definition js_offset (page limit : jsval) : option Z :=
  match js_Number page, js_Number limit with
  | Some pg, Some l => Some ((pg - 1) * l)
  | Some pg, None => if pg =? 1 then Some 0 else None
  | None, _ => None
  end.

(** [LIMIT ? OFFSET ?] with [parseInt(limit)] and [(page - 1) * limit],
    where both are integers and neither is negative: [limit=1.5] on the
    first page is [LIMIT 1 OFFSET 0]. *)
Definition limit_offset (q : query_params) : option (nat * nat) :=
  let page := default (JNum 1) (q_page q) in
  let limit := default (JNum 10) (q_limit q) in
  match parseInt limit, js_offset page limit with
  | JNum l, Some offset =>
      if (0 <=? l) && (0 <=? offset)
      then Some (Z.to_nat l, Z.to_nat offset) else None
  | _, _ => None
  end.

(** The [movements] a 200 answer of [GET /api/inventory] may carry.  The
    route answers without looking at the result of its validators, so
    every query string is served.  The rows are those of the WHERE
    clause, ordered, and cut by LIMIT and OFFSET.  Where the sources at
    hand do not say what reaches the engine, nothing is assumed: [keep]
    is the WHERE clause when the filters bind ([filters_bind]), LIMIT is
    [parseInt(limit)] when that is a number the engine takes, and the
    bounds are those of [limit_offset] when it has them; otherwise any
    clause and any bounds are admitted. *)
Inductive GET_inventory (u : user) (q : query_params) (d : db)
    : list movement_row -> Prop :=
| GET_inventory_ok keep sorted limit offset :
    denied u = false ->
    (filters_bind q = true -> forall m, keep m = where_clause q m) ->
    ORDER_BY_fecha_DESC (rows_kept keep d) sorted ->
    (forall l, parseInt (default (JNum 10) (q_limit q)) = JNum l ->
               0 <= l -> limit = Z.to_nat l) ->
    (forall l o, limit_offset q = Some (l, o) -> limit = l /\ offset = o) ->
    GET_inventory u q d (firstn limit (skipn offset sorted)).

(** Most recent first, rows of one second by id, highest first. *)
Definition recent_then_id_desc (a b : movement_row) : Prop :=
  fecha b < fecha a \/
  (fecha b = fecha a /\ m_id (row_m b) < m_id (row_m a)).

(** ** Auxiliary notions for the statements below *)

(** The statements a route hands to [executeTransaction]. *)
Definition queries_of (t : tipo_movimiento) (u : user) (b : body)
    (anterior : Z) : list statement :=
  [INSERT_movimiento (body_producto_id b) t
     (registrada_of t anterior (body_cantidad b)) anterior
     (nueva_of t anterior (body_cantidad b)) (body_motivo b) (user_id u);
   UPDATE_stock_actual (nueva_of t anterior (body_cantidad b))
     (body_producto_id b)].

(** The tables after both statements at second [now]: the row appended,
    the stock overwritten and [updated_at] set. *)
Definition both_writes (now : Z) (t : tipo_movimiento) (pid c ant nueva : Z)
    (mot : option string) (uid : Z) (d : db) : db :=
  mkDb (update_where_id pid (set_stock now nueva) (productos d))
       (movimientos_inventario d ++
        [mkMovimiento (next_movimiento_id d) pid t c ant nueva mot uid now])
       (next_producto_id d) (next_movimiento_id d + 1).

(** The quantity a committed row records: the size of the change for an
    adjustment, the quantity asked for otherwise. *)
Definition magnitude (t : tipo_movimiento) (anterior q : Z) : Z :=
  match t with
  | ajuste => Z.abs (q - anterior)
  | _ => q
  end.

(** The last movement of product [i] in the ledger. *)
Definition ultimo_movimiento (i : Z) (d : db) : option movimiento :=
  hd_error (rev (filter (fun m => producto_id m =? i)
                        (movimientos_inventario d))).

(** The pairing of stock and ledger the specification asks for: a
    product that has movements holds the stock its last movement ended
    at. *)
Definition stock_is_last_movement (d : db) : Prop :=
  forall p m, In p (productos d) ->
    ultimo_movimiento (p_id p) d = Some m ->
    stock_actual p = cantidad_nueva m.

(** The product operations whose [stock] field is not stored as a
    negative number; the other operations carry no such field. *)
Definition stock_field_nonneg (o : operation) : Prop :=
  match o with
  | op_POST_products _ _ _ _ b | op_PUT_products _ _ _ _ b =>
      forall v, sql_int_column (pb_stock b) = Some v -> 0 <= v
  | _ => True
  end.

(** Rows that follow one another without a gap: each starts from the
    stock the one before it ended at. *)
Fixpoint telescopes (ms : list movimiento) : Prop :=
  match ms with
  | m1 :: (m2 :: _) as rest =>
      cantidad_nueva m1 = cantidad_anterior m2 /\ telescopes rest
  | _ => True
  end.

(** The first row, if any, starts from stock [s]. *)
Definition starts_at (s : Z) (ms : list movimiento) : Prop :=
  match ms with
  | m :: _ => cantidad_anterior m = s
  | [] => True
  end.

(** How many times a request called [executeTransaction]. *)
Definition count_transactions (cs : list dbcall) : nat :=
  List.length (filter (fun c => match c with
                                | call_executeTransaction => true
                                | call_executeQuery => false
                                end) cs).

(** ** A small warehouse for the scenarios *)

Definition admin : user := mkUser 7 true false false.

Definition lapiz (stock : Z) : producto :=
  mkProducto 1 "PROD-1700000000000" "Lapiz" "" 150 10 stock 1 true 0.

Definition almacen (stock : Z) : db := mkDb [lapiz stock] [] 2 1.

Definition vacio : db := mkDb [] [] 1 1.

Definition pedir (t : tipo_movimiento) (c : jsval) : body :=
  mkBody (JNum 1) (JStr (tipo_name t)) c JUndefined.

Definition ficha (stock : jsval) : producto_body :=
  mkProductoBody "Lapiz" "" 150 stock 10 1.

(** A request of the movement list with no filter and the default
    page. *)
Definition sin_filtros : query_params :=
  mkQuery JUndefined JUndefined JUndefined JUndefined None None.

(** The pencil after an entry of 5 and an exit of 3 recorded in the same
    second. *)
Definition almacen_dos_movimientos : db :=
  run_operations
    [op_movimiento entrada no_faults 100 admin (pedir entrada (JNum 5));
     op_movimiento salida no_faults 100 admin (pedir salida (JNum 3))]
    (almacen 10).

(** A row of the list for a movement of the pencil in second 100, the
    pencil then holding 12. *)
Definition fila (id : Z) (t : tipo_movimiento) (c ant nueva : Z)
    : movement_row :=
  mkRow (mkMovimiento id 1 t c ant nueva None 7 100)
        "Lapiz" "PROD-1700000000000" 12.

(** ** An order the engine may deliver *)

(** The rows most recent first, built by inserting each row before the
    first row that is not more recent than it. *)
Fixpoint insert_by_fecha (r : movement_row) (l : list movement_row)
    : list movement_row :=
  match l with
  | [] => [r]
  | x :: rest =>
      if fecha x <=? fecha r then r :: l else x :: insert_by_fecha r rest
  end.

Definition sort_by_fecha (l : list movement_row) : list movement_row :=
  fold_right insert_by_fecha [] l.

(** The pencil after an entry of 5, an exit of 3 and an adjustment to
    20, recorded at seconds 100, 200 and 300. *)
Definition almacen_tres_movimientos : db :=
  run_operations
    [op_movimiento entrada no_faults 100 admin (pedir entrada (JNum 5));
     op_movimiento salida no_faults 200 admin (pedir salida (JNum 3));
     op_movimiento ajuste no_faults 300 admin (pedir ajuste (JNum 20))]
    (almacen 10).

Definition fila_en (now id : Z) (t : tipo_movimiento) (c ant nueva : Z)
    : movement_row :=
  mkRow (mkMovimiento id 1 t c ant nueva None 7 now)
        "Lapiz" "PROD-1700000000000" 20.

(** The second page of one row of the movements of product 1. *)
Definition segunda_pagina : query_params :=
  mkQuery (JStr "2") (JStr "1") JUndefined (JStr "1") None None.

(** ** Notions for the properties of whole sequences *)

(** What identifies a product: its id and its code. *)
Definition identity (p : producto) : Z * string := (p_id p, codigo p).

(** Every id in a table is below the table's counter, and ids grow in
    insertion order. *)
Definition keys_ok (d : db) : Prop :=
  Forall (fun p => p_id p < next_producto_id d) (productos d) /\
  Forall (fun m => m_id m < next_movimiento_id d) (movimientos_inventario d) /\
  StronglySorted Z.lt (map p_id (productos d)) /\
  StronglySorted Z.lt (map m_id (movimientos_inventario d)).

(** What a row of the ledger says about itself: an entry or an exit is
    of one unit at least, an exit ends at its start minus its quantity
    and does not go below zero, an adjustment records the size of its
    change and ends at one unit at least. *)
Definition row_ok (m : movimiento) : Prop :=
  match tipo m with
  | entrada => 1 <= cantidad m
  | salida =>
      1 <= cantidad m /\ cantidad m <= cantidad_anterior m /\
      cantidad_nueva m = cantidad_anterior m - cantidad m
  | ajuste =>
      cantidad m = Z.abs (cantidad_nueva m - cantidad_anterior m) /\
      1 <= cantidad_nueva m
  end.

(** A product as it is but for its stock and the time of its last
    update. *)
Definition same_but_stock (p p' : producto) : Prop :=
  p_id p' = p_id p /\ codigo p' = codigo p /\ nombre p' = nombre p /\
  descripcion p' = descripcion p /\ precio p' = precio p /\
  stock_minimo p' = stock_minimo p /\ categoria_id p' = categoria_id p /\
  activo p' = activo p.

Definition with_body_tipo (v : jsval) (b : body) : body :=
  mkBody (body_producto_id b) v (body_cantidad b) (body_motivo b).

Definition with_body_cantidad (v : jsval) (b : body) : body :=
  mkBody (body_producto_id b) (body_tipo b) v (body_motivo b).

(** The digits of [a] followed by those of [b]. *)
Fixpoint digits_app (a b : Decimal.uint) : Decimal.uint :=
  match a with
  | Decimal.Nil => b
  | Decimal.D0 a' => Decimal.D0 (digits_app a' b)
  | Decimal.D1 a' => Decimal.D1 (digits_app a' b)
  | Decimal.D2 a' => Decimal.D2 (digits_app a' b)
  | Decimal.D3 a' => Decimal.D3 (digits_app a' b)
  | Decimal.D4 a' => Decimal.D4 (digits_app a' b)
  | Decimal.D5 a' => Decimal.D5 (digits_app a' b)
  | Decimal.D6 a' => Decimal.D6 (digits_app a' b)
  | Decimal.D7 a' => Decimal.D7 (digits_app a' b)
  | Decimal.D8 a' => Decimal.D8 (digits_app a' b)
  | Decimal.D9 a' => Decimal.D9 (digits_app a' b)
  end.

(** A second product, the tables with both, and a request that names its
    product. *)
Definition goma (stock : Z) : producto :=
  mkProducto 2 "PROD-1700000000001" "Goma" "" 80 5 stock 1 true 0.

Definition papeleria (lapices gomas : Z) : db :=
  mkDb [lapiz lapices; goma gomas] [] 3 1.

Definition pedir_de (id : Z) (t : tipo_movimiento) (c : jsval) : body :=
  mkBody (JNum id) (JStr (tipo_name t)) c JUndefined.

(** ** [GET /api/inventory/:id] *)

(** A row of the answer: [m.*] with the name and the code of the
    product (the names of the user, from the join with [usuarios], are
    left out as in the list). *)
Record movement_detail : Type := mkDetail {
  det_m : movimiento;
  det_producto_nombre : string;
  det_producto_codigo : string
}.

(** [FROM movimientos_inventario m JOIN productos p ON m.producto_id =
    p.id WHERE m.id = ?]. *)
Definition SELECT_movimiento (d : db) (id : jsval) : list movement_detail :=
  match sql_int id with
  | Some i =>
      flat_map
        (fun m =>
           map (fun p => mkDetail m (nombre p) (codigo p))
               (filter (fun p => p_id p =? producto_id m) (productos d)))
        (filter (fun m => m_id m =? i) (movimientos_inventario d))
  | None => []
  end.

(** The handler: 403 without permission, 404 when no row has the id,
    the first row otherwise; [fault] says that the read throws. *)
Definition GET_movimiento (fault : bool) (u : user) (id : jsval) (d : db)
    : response + movement_detail :=
  if denied u then
    inl (json_error 403 "Acceso denegado"
                    "No tiene permisos para ver movimientos de inventario")
  else if fault then inl (server_error "Error obteniendo el movimiento")
  else match SELECT_movimiento d id with
  | [] => inl (json_error 404 "Movimiento no encontrado"
                          "El movimiento solicitado no existe")
  | movement :: _ => inr movement
  end.

(** ** The pages of [GET /api/inventory] *)

(** [pagination] of the answer: [pages] is [Math.ceil(total / limit)],
    which is no number when [limit] is 0. *)
Record pagination : Type := mkPagination {
  pg_page : jsval;
  pg_limit : jsval;
  pg_total : Z;
  pg_pages : option Z
}.

Definition ceil_div (total limit : Z) : option Z :=
  if limit =? 0 then None else Some (- ((- total) / limit)).

Definition pagination_of (q : query_params) (d : db) : pagination :=
  let page := default (JNum 1) (q_page q) in
  let limit := default (JNum 10) (q_limit q) in
  let total := Z.of_nat (List.length (rows_where q d)) in
  mkPagination (parseInt page) (parseInt limit) total
    (match js_Number limit with
     | Some l => ceil_div total l
     | None => None
     end).

(** The page a request cuts out of the rows once they are ordered. *)
Definition page_of (q : query_params) (sorted : list movement_row)
    : option (list movement_row) :=
  match limit_offset q with
  | Some (limit, offset) => Some (firstn limit (skipn offset sorted))
  | None => None
  end.

Definition with_page (page limit : Z) (q : query_params) : query_params :=
  mkQuery (JNum page) (JNum limit) (q_tipo q) (q_producto_id q)
          (q_fecha_inicio q) (q_fecha_fin q).

(** ** [GET /api/inventory/stock-bajo] and the figures of [GET
    /api/inventory/resumen] *)

(** A row of [categorias], as far as the queries read it. *)
Record categoria : Type := mkCategoria {
  c_id : Z;
  c_nombre : string
}.

(** A row of the low-stock list: [p.*] with the name of the category. *)
Record low_row : Type := mkLow {
  low_p : producto;
  categoria_nombre : string
}.

Definition stock_bajo_where (p : producto) : bool :=
  activo p && (stock_actual p <=? stock_minimo p).

(** [FROM productos p JOIN categorias c ON p.categoria_id = c.id WHERE
    p.activo = 1 AND p.stock_actual <= p.stock_minimo]. *)
Definition stock_bajo_rows (cats : list categoria) (d : db) : list low_row :=
  flat_map
    (fun p =>
       map (fun c => mkLow p (c_nombre c))
           (filter (fun c => c_id c =? categoria_id p) cats))
    (filter stock_bajo_where (productos d)).

Definition deficit (r : low_row) : Z :=
  stock_minimo (low_p r) - stock_actual (low_p r).

(** [ORDER BY (p.stock_minimo - p.stock_actual) DESC, p.nombre]:
    largest deficit first, rows of one deficit by name in the order
    [collate] of the column's collation. *)
Definition ORDER_BY_deficit_DESC_nombre (collate : string -> string -> Prop)
    (rows sorted : list low_row) : Prop :=
  Permutation rows sorted /\
  StronglySorted
    (fun a b => deficit b < deficit a \/
                (deficit b = deficit a /\
                 collate (nombre (low_p a)) (nombre (low_p b))))
    sorted.

(** The [products] and the [total] a 200 answer of the route may
    carry. *)
Inductive GET_stock_bajo (collate : string -> string -> Prop) (u : user)
    (cats : list categoria) (d : db) : list low_row -> nat -> Prop :=
| GET_stock_bajo_ok sorted :
    denied u = false ->
    ORDER_BY_deficit_DESC_nombre collate (stock_bajo_rows cats d) sorted ->
    GET_stock_bajo collate u cats d sorted (List.length sorted).

(** [SUM] of a column: no value when there is no row. *)
Definition SUM (column : list Z) : option Z :=
  match column with
  | [] => None
  | _ => Some (fold_right Z.add 0 column)
  end.

(** The first query of [GET /api/inventory/resumen], over [productos
    WHERE activo = 1]; [valor_total] is in hundredths like [precio]. *)
Record resumen : Type := mkResumen {
  total_productos : nat;
  stock_total : option Z;
  valor_total : option Z;
  productos_stock_bajo : nat;
  productos_sin_stock : nat
}.

Definition resumen_stats (d : db) : resumen :=
  let activos := filter activo (productos d) in
  mkResumen
    (List.length activos)
    (SUM (map stock_actual activos))
    (SUM (map (fun p => precio p * stock_actual p) activos))
    (List.length (filter (fun p => stock_actual p <=? stock_minimo p) activos))
    (List.length (filter (fun p => stock_actual p =? 0) activos)).

(** Its second query: [COUNT( * ) FROM movimientos_inventario WHERE
    DATE(fecha_movimiento) = CURDATE()], [today] being the day the
    engine is in. *)
Definition movimientos_hoy (today : Z) (d : db) : nat :=
  List.length (filter (fun m => DATE (fecha_movimiento m) =? today)
                      (movimientos_inventario d)).

(** Scenario C of the specification: a pencil at 7 and a notebook at 9,
    both with minimum 10, in one category. *)
Definition cuaderno (stock : Z) : producto :=
  mkProducto 2 "PROD-1700000000002" "Cuaderno" "" 300 10 stock 1 true 0.

Definition escenario_C : db := mkDb [cuaderno 9; lapiz 7] [] 3 1.

Definition oficina : list categoria := [mkCategoria 1 "Oficina"].

(** ** The middleware of [middleware/auth] *)

(** A JSON value, for the [permisos] of a role. *)
#[warnings="-register-all"] Inductive json : Type :=
| VNull
| VBool (b : bool)
| VNum (z : Z)
| VStr (s : string)
| VArr (items : list json)
| VObj (fields : list (string * json)).

Fixpoint assoc (key : string) (fields : list (string * json)) : option json :=
  match fields with
  | [] => None
  | (k, v) :: rest => if String.eqb k key then Some v else assoc key rest
  end.

(** [v[key]] for a key that is the name of a permission; [None] is
    [undefined].  Reading a property of [null] throws and is dealt with
    where it happens. *)
Definition prop (v : json) (key : string) : option json :=
  match v with
  | VObj fields => assoc key fields
  | _ => None
  end.

(** What a value is worth in a condition. *)
Definition truthy_json (v : option json) : bool :=
  match v with
  | None | Some VNull => false
  | Some (VBool b) => b
  | Some (VNum z) => negb (z =? 0)
  | Some (VStr s) => negb (String.eqb s "")
  | Some (VArr _) | Some (VObj _) => true
  end.

(** [v === true]. *)
Definition is_true (v : option json) : bool :=
  match v with
  | Some (VBool true) => true
  | _ => false
  end.

(** Rows of [usuarios] and [roles], as far as the middleware reads
    them; [rol_permisos] is the column as the driver hands it over: a
    value already parsed, text ([VStr]), or [VNull] for NULL. *)
Record usuario_row : Type := mkUsuario {
  us_id : Z;
  us_username : string;
  us_email : string;
  us_nombre : string;
  us_apellido : string;
  us_rol_id : Z;
  us_activo : bool
}.

Record rol_row : Type := mkRol {
  rol_id : Z;
  rol_nombre : string;
  rol_permisos : json
}.

Record auth_db : Type := mkAuthDb {
  usuarios : list usuario_row;
  roles : list rol_row
}.

(** [req.user]. *)
Record req_user : Type := mkReqUser {
  ru_id : Z;
  ru_username : string;
  ru_email : string;
  ru_nombre : string;
  ru_apellido : string;
  ru_rol : string;
  ru_rol_id : Z;
  ru_permisos : json
}.

(** [s.split(c)]. *)
Fixpoint split_on (c : ascii) (s : string) : list string :=
  match s with
  | EmptyString => [EmptyString]
  | String a rest =>
      if Ascii.eqb a c then EmptyString :: split_on c rest
      else match split_on c rest with
           | word :: words => String a word :: words
           | [] => [String a EmptyString]
           end
  end.

(** [authHeader && authHeader.split(' ')[1]], when it is worth true in a
    condition: the second word of the header, if it is not empty. *)
Definition bearer_token (authHeader : option string) : option string :=
  match authHeader with
  | None => None
  | Some h =>
      match nth_error (split_on " " h) 1 with
      | Some EmptyString | None => None
      | Some token => Some token
      end
  end.

(** What [jwt.verify] does with a token: the [userId] of its payload, or
    an error with its name. *)
Inductive jwt_outcome : Type :=
| Decoded (userId : Z)
| Throws (name : string).

(** [SELECT u.*, r.nombre as rol_nombre, r.permisos FROM usuarios u JOIN
    roles r ON u.rol_id = r.id WHERE u.id = ? AND u.activo = 1]. *)
Definition SELECT_usuario (a : auth_db) (userId : Z)
    : list (usuario_row * rol_row) :=
  flat_map
    (fun us => map (fun r => (us, r))
                   (filter (fun r => us_rol_id us =? rol_id r) (roles a)))
    (filter (fun us => (us_id us =? userId) && us_activo us) (usuarios a)).

(** The [permisos] the middleware puts on [req.user]: an object or an
    array is kept; anything else goes through [JSON.parse], and text
    that does not parse gives the empty object. *)
Definition parse_permisos (JSON_parse : string -> option json) (v : json)
    : json :=
  match v with
  | VObj _ | VArr _ => v
  | VStr s =>
      match JSON_parse s with
      | Some parsed => parsed
      | None => VObj []
      end
  | _ => v
  end.

Inductive auth_result : Type :=
| auth_next (user : req_user)
| auth_reply (status : Z) (error : string) (message : string).

(** [authenticateToken].  [jwt_verify] stands for [jwt.verify] with the
    secret of the process, [JSON_parse] for [JSON.parse]; [fault] says
    that the read throws. *)
Definition authenticateToken (jwt_verify : string -> jwt_outcome)
    (JSON_parse : string -> option json) (fault : bool) (a : auth_db)
    (authHeader : option string) : auth_result :=
  match bearer_token authHeader with
  | None =>
      auth_reply 401 "Token de acceso requerido"
                 "Debe proporcionar un token de autenticación"
  | Some token =>
      match jwt_verify token with
      | Throws name =>
          if String.eqb name "JsonWebTokenError" then
            auth_reply 401 "Token inválido"
                       "El token proporcionado no es válido"
          else if String.eqb name "TokenExpiredError" then
            auth_reply 401 "Token expirado"
                       "El token ha expirado, inicie sesión nuevamente"
          else auth_reply 500 "Error de autenticación"
                          "Error interno del servidor"
      | Decoded userId =>
          if fault then
            auth_reply 500 "Error de autenticación"
                       "Error interno del servidor"
          else match SELECT_usuario a userId with
          | [] => auth_reply 401 "Usuario no válido"
                             "El usuario no existe o está inactivo"
          | (us, r) :: _ =>
              auth_next
                (mkReqUser (us_id us) (us_username us) (us_email us)
                   (us_nombre us) (us_apellido us) (rol_nombre r)
                   (us_rol_id us)
                   (parse_permisos JSON_parse (rol_permisos r)))
          end
      end
  end.

Inductive check_result : Type :=
| check_next
| check_reply (status : Z) (error : string) (message : string)
| check_throws.

(** [checkPermission(permission)]. *)
Definition checkPermission (permission : string) (user : option req_user)
    : check_result :=
  match user with
  | None =>
      check_reply 401 "No autenticado"
                  "Debe iniciar sesión para acceder a este recurso"
  | Some u =>
      match ru_permisos u with
      | VNull => check_throws
      | permisos =>
          if is_true (prop permisos "all") then check_next
          else match prop permisos permission with
          | Some (VBool true) => check_next
          | Some VNull => check_throws
          | Some (VObj fields) =>
              if is_true (assoc "read" fields) then check_next
              else check_reply 403 "Acceso denegado"
                     "No tiene permisos para acceder a este recurso"
          | _ =>
              check_reply 403 "Acceso denegado"
                          "No tiene permisos para acceder a este recurso"
          end
      end
  end.

(** ** The movement routes behind the middleware *)

(** [req.user] as the conditions of the routes read it: what [all],
    [inventory] and [products] are worth.  There is nothing to read when
    [permisos] is [null]: the condition throws. *)
Definition route_user (r : req_user) : option user :=
  match ru_permisos r with
  | VNull => None
  | permisos =>
      Some (mkUser (ru_id r)
                   (truthy_json (prop permisos "all"))
                   (truthy_json (prop permisos "inventory"))
                   (truthy_json (prop permisos "products")))
  end.

Definition catch_message (t : tipo_movimiento) : string :=
  match t with
  | entrada => "Error registrando la entrada de inventario"
  | salida => "Error registrando la salida de inventario"
  | ajuste => "Error registrando el ajuste de inventario"
  end.

(** A movement route as the router serves it: the middleware first,
    then the handler with the [req.user] the middleware has set. *)
Definition served_movimiento (jwt_verify : string -> jwt_outcome)
    (JSON_parse : string -> option json) (auth_fault : bool) (a : auth_db)
    (authHeader : option string) (t : tipo_movimiento) (f : faults)
    (now : Z) (b : body) (d : db) : outcome :=
  match authenticateToken jwt_verify JSON_parse auth_fault a authHeader with
  | auth_reply status error message =>
      mkOutcome (json_error status error message) d []
  | auth_next r =>
      match route_user r with
      | None => mkOutcome (server_error (catch_message t)) d []
      | Some u => POST_movimiento t f now u b d
      end
  end.

(** Text without a space. *)
Fixpoint no_space (s : string) : bool :=
  match s with
  | EmptyString => true
  | String a rest => negb (Ascii.eqb a " ") && no_space rest
  end.

(** The roles [schema.sql] inserts, and a user of each. *)
Definition rol_admin : rol_row :=
  mkRol 1 "admin" (VObj [("all", VBool true)]).

Definition rol_usuario : rol_row :=
  mkRol 3 "usuario"
        (VObj [("products", VBool true);
               ("inventory", VObj [("read", VBool true);
                                   ("write", VBool false)])]).

Definition ana : usuario_row :=
  mkUsuario 7 "ana" "ana@inventario.com" "Ana" "Paz" 1 true.

Definition luis : usuario_row :=
  mkUsuario 8 "luis" "luis@inventario.com" "Luis" "Sol" 3 true.

Definition personal : auth_db := mkAuthDb [ana; luis] [rol_admin; rol_usuario].

(** A verifier that accepts the tokens ["t7"] and ["t8"], and a parser
    that is never needed since the permissions above are objects. *)
Definition verifica (token : string) : jwt_outcome :=
  if String.eqb token "t7" then Decoded 7
  else if String.eqb token "t8" then Decoded 8
  else Throws "JsonWebTokenError".

Definition no_parse (s : string) : option json := None.

(** ** [GET /api/products] *)

(** A row of the [data] of the answer: [p.*] with the name of the
    category, which the LEFT JOIN leaves empty when the category has no
    row. *)
Record product_row : Type := mkProductRow {
  pr_p : producto;
  pr_categoria_nombre : option string
}.

(** [FROM productos p LEFT JOIN categorias c ON p.categoria_id = c.id
    WHERE p.activo = 1]. *)
Definition products_rows (cats : list categoria) (d : db) : list product_row :=
  flat_map
    (fun p =>
       match filter (fun c => c_id c =? categoria_id p) cats with
       | [] => [mkProductRow p None]
       | found => map (fun c => mkProductRow p (Some (c_nombre c))) found
       end)
    (filter activo (productos d)).

(** The [data] a 200 answer may carry: the rows [ORDER BY p.created_at
    DESC], [created_at] giving the second at which a row was inserted, a
    column the record of a product does not keep. *)
Inductive GET_products (created_at : producto -> Z) (u : user)
    (cats : list categoria) (d : db) : list product_row -> Prop :=
| GET_products_ok sorted :
    denied_products u = false ->
    Permutation (products_rows cats d) sorted ->
    StronglySorted (fun a b => created_at (pr_p b) <= created_at (pr_p a))
                   sorted ->
    GET_products created_at u cats d sorted.

(** ** Notions for the requests in flight *)

(** A statement that writes no negative stock. *)
Definition statement_nonneg (q : statement) : Prop :=
  match q with
  | UPDATE_stock_actual v _ => forall n, sql_int v = Some n -> 0 <= n
  | INSERT_movimiento _ _ _ _ _ _ _ => True
  end.

Definition prepared_nonneg (p : option prepared) : Prop :=
  match p with
  | Some (Ready queries _ _) => Forall statement_nonneg queries
  | _ => True
  end.

(** No product has a negative stock and no request in flight is about
    to write one. *)
Definition server_nonneg (s : server) : Prop :=
  stock_nonneg (tables s) /\ Forall prepared_nonneg (in_flight s).

(** ** Notions for the ledger as an audit chain *)

(** The movements of product [i], oldest first. *)
Definition movimientos_de (i : Z) (d : db) : list movimiento :=
  filter (fun m => producto_id m =? i) (movimientos_inventario d).

(** The foreign key of the ledger and the counter of the products: every
    movement is of a product of the table, and every product id is below
    the counter. *)
Definition references_ok (d : db) : Prop :=
  Forall (fun p => p_id p < next_producto_id d) (productos d) /\
  Forall (fun m => exists p, In p (productos d) /\ p_id p = producto_id m)
         (movimientos_inventario d).

(** The ledger read as an audit chain: each product that has movements
    holds the stock its last movement ended at, and the movements of any
    product follow one another without a gap. *)
Definition audit_chain (d : db) : Prop :=
  stock_is_last_movement d /\ forall i, telescopes (movimientos_de i d).

(** The operations other than the product update, the one statement
    outside the movement routes that sets [stock_actual] of an existing
    row. *)
Definition leaves_stock_column (o : operation) : Prop :=
  match o with
  | op_PUT_products _ _ _ _ _ => False
  | _ => True
  end.

(** * Properties *)

(** ** Integer literals *)

Lemma parse_digits_nonneg (s : string) (v : Z) :
  parse_digits s = Some v -> 0 <= v.
Proof.
  unfold parse_digits.
  destruct (NilZero.uint_of_string s); simpl; intros [= <-].
  unfold Z.of_uint. apply N2Z.is_nonneg.
Qed.

(** The text of a number that is not negative starts with a digit, so
    whatever is appended to it is read without a sign. *)
Lemma string_of_uint_unsigned (d : Decimal.uint) (t : string) :
  d <> Decimal.Nil ->
  parse_int (NilEmpty.string_of_uint d ++ t)
  = parse_digits (NilEmpty.string_of_uint d ++ t)
  /\ parse_int (NilEmpty.string_of_uint d)
     = parse_digits (NilEmpty.string_of_uint d).
Proof.
  destruct d; intros H; try congruence; simpl; split; reflexivity.
Qed.

Lemma to_uint_nonnil (p : positive) : Pos.to_uint p <> Decimal.Nil.
Proof.
  intros H.
  pose proof (DecimalPos.Unsigned.of_to p) as E.
  rewrite H in E. discriminate E.
Qed.

Lemma NilZero_NilEmpty (d : Decimal.uint) :
  d <> Decimal.Nil -> NilZero.string_of_uint d = NilEmpty.string_of_uint d.
Proof. destruct d; intros H; try congruence; reflexivity. Qed.

Lemma parse_digits_to_uint (p : positive) :
  parse_digits (NilZero.string_of_uint (Pos.to_uint p)) = Some (Z.pos p).
Proof.
  unfold parse_digits.
  rewrite NilZero.usu by apply to_uint_nonnil.
  simpl. unfold Z.of_uint. now rewrite DecimalPos.Unsigned.of_to.
Qed.

(** Printing a number and reading it back gives the number. *)
Lemma parse_int_string_of_Z (z : Z) : parse_int (string_of_Z z) = Some z.
Proof.
  destruct z as [|p|p]; unfold string_of_Z; simpl.
  - reflexivity.
  - pose proof (to_uint_nonnil p) as Hn.
    rewrite (NilZero_NilEmpty _ Hn).
    destruct (string_of_uint_unsigned (Pos.to_uint p) "" Hn) as [_ ->].
    rewrite <- (NilZero_NilEmpty _ Hn). apply parse_digits_to_uint.
  - rewrite parse_digits_to_uint. reflexivity.
Qed.

(** Appending text to a number that is not negative never reads as a
    negative number. *)
Lemma parse_int_concat_nonneg (a : Z) (s : string) (v : Z) :
  0 <= a -> parse_int (string_of_Z a ++ s) = Some v -> 0 <= v.
Proof.
  intros Ha. unfold string_of_Z.
  destruct a as [|p|p]; try lia; simpl Z.to_int; simpl NilZero.string_of_int.
  - simpl. apply parse_digits_nonneg.
  - pose proof (to_uint_nonnil p) as Hn.
    rewrite (NilZero_NilEmpty _ Hn).
    destruct (string_of_uint_unsigned (Pos.to_uint p) s Hn) as [-> _].
    apply parse_digits_nonneg.
Qed.

(** ** What the validators let through *)

(** What binds as an integer is that integer in the arithmetic. *)
Lemma sql_int_js_Number (v : jsval) (z : Z) :
  sql_int v = Some z -> js_Number v = Some z.
Proof.
  destruct v as [| |n|s|items]; cbn [sql_int js_Number]; try discriminate.
  - auto.
  - unfold number_of_text. destruct s; [discriminate|auto].
Qed.

Lemma sql_int_scalar (v : jsval) (z : Z) :
  sql_int v = Some z -> is_array v = false.
Proof. destruct v; cbn; congruence. Qed.

(** A field that passes [isInt({ min })] is an array, or holds an integer
    not below [min]; arithmetic and storage read the same integer in
    it. *)
Lemma isInt_value (min : Z) (v : jsval) :
  isInt min v = true ->
  is_array v = true \/
  exists z, sql_int v = Some z /\ js_Number v = Some z /\ min <= z.
Proof.
  unfold isInt, each, isInt_text.
  destruct v as [| |z|s|items]; cbn [validator_toString
    validator_toString_shallow js_String is_array sql_int]; auto;
    try discriminate.
  - rewrite parse_int_string_of_Z. intros H. right. exists z.
    repeat split; try reflexivity. lia.
  - destruct (parse_int s) as [z|] eqn:E; [|discriminate].
    intros H. right. exists z. split; [reflexivity|].
    split; [|lia]. apply sql_int_js_Number. exact E.
Qed.

(** The same for a field that is known to bind as an integer. *)
Lemma isInt_bound (min : Z) (v : jsval) (z : Z) :
  isInt min v = true -> sql_int v = Some z -> min <= z.
Proof.
  intros H E. destruct (isInt_value _ _ H) as [Ha|(z' & E' & _ & Hle)].
  - rewrite (sql_int_scalar _ _ E) in Ha. discriminate.
  - congruence.
Qed.

Lemma isInt_JNum (min z : Z) : isInt min (JNum z) = (min <=? z).
Proof.
  unfold isInt, each, isInt_text.
  cbn [validator_toString validator_toString_shallow js_String].
  now rewrite parse_int_string_of_Z.
Qed.

Lemma isInt_JStr (min : Z) (s : string) (z : Z) :
  parse_int s = Some z -> isInt min (JStr s) = (min <=? z).
Proof.
  intros E. unfold isInt, each, isInt_text.
  cbn [validator_toString validator_toString_shallow js_String].
  now rewrite E.
Qed.

Lemma inventoryValidation_nil (b : body) :
  inventoryValidation b = [] ->
  isInt 1 (body_producto_id b) = true /\ isInt 1 (body_cantidad b) = true.
Proof.
  unfold inventoryValidation.
  destruct (isInt 1 (body_producto_id b)); [|discriminate].
  destruct (isIn _ (body_tipo b)); [|discriminate].
  destruct (isInt 1 (body_cantidad b)); [|discriminate].
  auto.
Qed.


(** ** Shape of a handler before its transaction *)

Lemma prepare_replied t f u b d cs r :
  prepare t f u b d = Replied cs r ->
  ~ In call_executeTransaction cs /\ status_of r <> 201 /\
  (status_of r = 400 \/ status_of r = 403 \/ status_of r = 404
   \/ status_of r = 500).
Proof.
  destruct t; simpl; unfold entrada_prepare, salida_prepare, ajuste_prepare;
    (destruct (denied u);
     [intros [= <- <-]; simpl; intuition (discriminate || lia)|]);
    (destruct (inventoryValidation b);
     [|intros [= <- <-]; simpl; intuition (discriminate || lia)]);
    (destruct (query_fault f);
     [intros [= <- <-]; simpl; intuition (discriminate || lia)|]);
    (destruct (SELECT_producto_activo d (body_producto_id b));
     [intros [= <- <-]; simpl; intuition (discriminate || lia)|]);
    try discriminate.
  destruct (js_lt (stock_actual p) (body_cantidad b)); [|discriminate].
  intros [= <- <-]; simpl; intuition (discriminate || lia).
Qed.

Lemma prepare_ready t f u b d qs created failed :
  prepare t f u b d = Ready qs created failed ->
  exists p rest,
    denied u = false /\ inventoryValidation b = [] /\ query_fault f = false /\
    SELECT_producto_activo d (body_producto_id b) = p :: rest /\
    (t = salida -> js_lt (stock_actual p) (body_cantidad b) = false) /\
    qs = queries_of t u b (stock_actual p) /\
    status_of created = 201 /\ status_of failed = 500.
Proof.
  destruct t; simpl; unfold entrada_prepare, salida_prepare, ajuste_prepare;
    (destruct (denied u); [discriminate|]);
    (destruct (inventoryValidation b); [|discriminate]);
    (destruct (query_fault f); [discriminate|]);
    (destruct (SELECT_producto_activo d (body_producto_id b)) as [|p rest];
     [discriminate|]).
  - intros [= <- <- <-]. exists p, rest. repeat split; discriminate.
  - destruct (js_lt (stock_actual p) (body_cantidad b)) eqn:E; [discriminate|].
    intros [= <- <- <-]. exists p, rest. repeat split; auto.
  - intros [= <- <- <-]. exists p, rest. repeat split; discriminate.
Qed.

(** With permission, a valid body, a read that works and an active
    product, the routes of entry and adjustment always reach their
    transaction, the route of exit when the stock is enough. *)
Lemma prepare_reaches t f u b d p rest :
  denied u = false -> inventoryValidation b = [] -> query_fault f = false ->
  SELECT_producto_activo d (body_producto_id b) = p :: rest ->
  (t = salida -> js_lt (stock_actual p) (body_cantidad b) = false) ->
  exists created failed,
    prepare t f u b d
    = Ready (queries_of t u b (stock_actual p)) created failed /\
    status_of created = 201 /\ status_of failed = 500.
Proof.
  intros Hu Hv Hf Hs Hlt.
  destruct t; simpl; unfold entrada_prepare, salida_prepare, ajuste_prepare;
    rewrite Hu, Hv, Hf, Hs; try rewrite (Hlt eq_refl);
    eexists _, _; (split; [reflexivity|split; reflexivity]).
Qed.

(** ** The transaction of a movement *)

Lemma transaction_commits f now t u b ant d d' :
  executeTransaction f now (queries_of t u b ant) d = Some d' ->
  exists pid c nueva,
    sql_int (body_producto_id b) = Some pid /\
    sql_int (registrada_of t ant (body_cantidad b)) = Some c /\
    sql_int (nueva_of t ant (body_cantidad b)) = Some nueva /\
    d' = both_writes now t pid c ant nueva (sql_text (body_motivo b))
                     (user_id u) d.
Proof.
  unfold executeTransaction, queries_of, run_statements.
  destruct (aborts_at f 0); [discriminate|].
  unfold exec_statement at 1.
  destruct (sql_int (body_producto_id b)) as [pid|] eqn:Hp; [|discriminate].
  destruct (sql_int (registrada_of t ant (body_cantidad b))) as [c|] eqn:Hc;
    [|discriminate].
  destruct (sql_int (nueva_of t ant (body_cantidad b))) as [nueva|] eqn:Hn;
    [|discriminate].
  destruct (is_array (body_motivo b)); [discriminate|].
  destruct (existsb _ (productos d)); [|discriminate].
  destruct (aborts_at f 1); [discriminate|].
  unfold exec_statement. rewrite Hn, Hp. cbn [productos movimientos_inventario
    next_producto_id next_movimiento_id].
  intros [= <-]. exists pid, c, nueva. repeat split; reflexivity.
Qed.

Lemma SELECT_in d id p rest :
  SELECT_producto_activo d id = p :: rest ->
  exists i, sql_int id = Some i /\ In p (productos d) /\ p_id p = i
            /\ activo p = true.
Proof.
  unfold SELECT_producto_activo.
  destruct (sql_int id) as [i|]; [|discriminate].
  intros H. exists i.
  assert (Hin : In p (filter (fun p => (p_id p =? i) && activo p) (productos d)))
    by (rewrite H; left; reflexivity).
  apply filter_In in Hin. destruct Hin as [Hin Hb].
  apply andb_true_iff in Hb. destruct Hb as [Hi Ha].
  apply Z.eqb_eq in Hi. auto.
Qed.

Lemma transaction_goes_through now t u b ant d pid c nueva p rest :
  sql_int (body_producto_id b) = Some pid ->
  sql_int (registrada_of t ant (body_cantidad b)) = Some c ->
  sql_int (nueva_of t ant (body_cantidad b)) = Some nueva ->
  is_array (body_motivo b) = false ->
  SELECT_producto_activo d (body_producto_id b) = p :: rest ->
  executeTransaction no_faults now (queries_of t u b ant) d
  = Some (both_writes now t pid c ant nueva (sql_text (body_motivo b))
                      (user_id u) d).
Proof.
  intros Hp Hc Hn Hm Hs.
  destruct (SELECT_in _ _ _ _ Hs) as (i & Hi & Hin & Hid & _).
  assert (i = pid) by congruence. subst i.
  unfold executeTransaction, queries_of, run_statements.
  change (aborts_at no_faults 0) with false.
  change (aborts_at no_faults 1) with false. cbv iota.
  unfold exec_statement at 1. rewrite Hp, Hc, Hn, Hm.
  assert (E : existsb (fun p0 => p_id p0 =? pid) (productos d) = true).
  { apply existsb_exists. exists p. split; [assumption|]. now apply Z.eqb_eq. }
  rewrite E. unfold exec_statement. rewrite Hn, Hp. reflexivity.
Qed.

(** After the overwrite the [SELECT] returns the same rows with the new
    stock. *)
Lemma SELECT_after_update d d' id i now v :
  sql_int id = Some i ->
  productos d' = update_where_id i (set_stock now v) (productos d) ->
  SELECT_producto_activo d' id
  = map (set_stock now v) (SELECT_producto_activo d id).
Proof.
  intros Hi Hp. unfold SELECT_producto_activo. rewrite Hi, Hp. clear Hp.
  unfold update_where_id.
  induction (productos d) as [|p ps IH]; [reflexivity|].
  cbn [map filter]. rewrite IH.
  destruct (p_id p =? i) eqn:E.
  - cbn [set_stock p_id activo]. rewrite E.
    destruct (activo p); reflexivity.
  - rewrite E. reflexivity.
Qed.

(** ** What the three routes bind, once the body is valid *)

Lemma registrada_value t ant c q :
  sql_int c = Some q ->
  sql_int (registrada_of t ant c)
  = Some (match t with ajuste => Z.abs (q - ant) | _ => q end).
Proof.
  intros H. destruct t; simpl; try assumption.
  unfold js_abs_diff. rewrite (sql_int_js_Number _ _ H). reflexivity.
Qed.

Lemma nueva_value t ant c q :
  sql_int c = Some q ->
  (t = entrada -> c = JNum q) ->
  sql_int (nueva_of t ant c) = Some (spec_stock_after t ant q).
Proof.
  intros H Hn. destruct t; simpl.
  - rewrite (Hn eq_refl). reflexivity.
  - unfold js_sub. rewrite (sql_int_js_Number _ _ H). reflexivity.
  - assumption.
Qed.

(** Conversely, when the values of a route bind, the quantity of the
    body binds as the number it reads as. *)
Lemma committed_quantity t ant c r n q :
  sql_int (registrada_of t ant c) = Some r ->
  sql_int (nueva_of t ant c) = Some n ->
  js_Number c = Some q -> sql_int c = Some q.
Proof.
  intros Hr Hn Hq. destruct t; simpl in *.
  - rewrite (sql_int_js_Number _ _ Hr) in Hq. congruence.
  - rewrite (sql_int_js_Number _ _ Hr) in Hq. congruence.
  - rewrite (sql_int_js_Number _ _ Hn) in Hq. congruence.
Qed.

Lemma POST_movimiento_cases t f now u b d :
  (exists cs r,
      prepare t f u b d = Replied cs r /\
      POST_movimiento t f now u b d = mkOutcome r d cs)
  \/ (exists p rest created failed,
      SELECT_producto_activo d (body_producto_id b) = p :: rest /\
      denied u = false /\ inventoryValidation b = [] /\
      (t = salida -> js_lt (stock_actual p) (body_cantidad b) = false) /\
      status_of created = 201 /\ status_of failed = 500 /\
      ((executeTransaction f now (queries_of t u b (stock_actual p)) d = None /\
        POST_movimiento t f now u b d
        = mkOutcome failed d [call_executeQuery; call_executeTransaction])
       \/ (exists pid c nueva,
            sql_int (body_producto_id b) = Some pid /\
            sql_int (registrada_of t (stock_actual p) (body_cantidad b))
            = Some c /\
            sql_int (nueva_of t (stock_actual p) (body_cantidad b))
            = Some nueva /\
            POST_movimiento t f now u b d
            = mkOutcome created
                (both_writes now t pid c (stock_actual p) nueva
                   (sql_text (body_motivo b)) (user_id u) d)
                [call_executeQuery; call_executeTransaction]))).
Proof.
  unfold POST_movimiento.
  destruct (prepare t f u b d) as [cs r|qs created failed] eqn:E.
  - left. exists cs, r. split; reflexivity.
  - right. apply prepare_ready in E.
    destruct E as (p & rest & Hu & Hv & Hf & Hs & Hlt & -> & Hc & Hfa).
    exists p, rest, created, failed. repeat (split; [assumption|]).
    unfold complete.
    destruct (executeTransaction f now _ d) as [d'|] eqn:T.
    + right. apply transaction_commits in T.
      destruct T as (pid & c & nueva & Hp & Hc' & Hn & ->).
      exists pid, c, nueva. repeat (split; [assumption|]). reflexivity.
    + left. split; reflexivity.
Qed.

Lemma stock_read_both_writes now t pid c ant nueva mot uid d id p rest :
  sql_int id = Some pid ->
  SELECT_producto_activo d id = p :: rest ->
  stock_read (both_writes now t pid c ant nueva mot uid d) id = Some nueva.
Proof.
  intros Hp Hs. unfold stock_read.
  rewrite (SELECT_after_update d (both_writes now t pid c ant nueva mot uid d)
             id pid now nueva Hp) by reflexivity.
  rewrite Hs. reflexivity.
Qed.

(** C1: every refusal of a movement request comes before any write: a
    request without permission is answered 403 and one with an invalid
    body 400, both without any call to the storage layer; a product
    (its id no array) missing or inactive is answered 404 and an exit
    above the stock 400, both after the one read and without the
    transaction; whatever the reason, an answer other than 201 leaves
    the tables as they were.  On
    success both writes are committed: a request answered 201 has
    appended exactly one row, of the product and the kind asked for,
    whose stock before is the stock read, and has overwritten the stock
    of the rows of that product, and of no other row, with the stock
    after of that row, which is what the product reads afterwards.  So
    the tables after a call are those before it or those with both
    writes, never one write alone. *)
Theorem movement_refused_or_both_writes t f now u b d :
  let o := POST_movimiento t f now u b d in
  (denied u = true ->
   status_of (reply o) = 403 /\ calls o = [] /\ store o = d) /\
  (denied u = false -> inventoryValidation b <> [] ->
   status_of (reply o) = 400 /\ calls o = [] /\ store o = d) /\
  (denied u = false -> inventoryValidation b = [] -> query_fault f = false ->
   is_array (body_producto_id b) = false ->
   SELECT_producto_activo d (body_producto_id b) = [] ->
   reply o = not_found /\ calls o = [call_executeQuery] /\ store o = d) /\
  (denied u = false -> inventoryValidation b = [] -> query_fault f = false ->
   forall p rest,
     SELECT_producto_activo d (body_producto_id b) = p :: rest ->
     t = salida -> js_lt (stock_actual p) (body_cantidad b) = true ->
     status_of (reply o) = 400 /\ calls o = [call_executeQuery] /\
     store o = d) /\
  (status_of (reply o) = 400 \/ status_of (reply o) = 403
   \/ status_of (reply o) = 404 ->
   ~ In call_executeTransaction (calls o)) /\
  (status_of (reply o) <> 201 -> store o = d) /\
  (status_of (reply o) = 201 ->
   exists pid p rest m,
     sql_int (body_producto_id b) = Some pid /\
     SELECT_producto_activo d (body_producto_id b) = p :: rest /\
     movimientos_inventario (store o)
     = (movimientos_inventario d ++ [m])%list /\
     m_id m = next_movimiento_id d /\ producto_id m = pid /\ tipo m = t /\
     cantidad_anterior m = stock_actual p /\
     sql_int (nueva_of t (stock_actual p) (body_cantidad b))
     = Some (cantidad_nueva m) /\
     stock_read (store o) (body_producto_id b) = Some (cantidad_nueva m) /\
     Forall2 (fun x x' =>
                if p_id x =? pid
                then x' = set_stock now (cantidad_nueva m) x
                else x' = x)
             (productos d) (productos (store o)) /\
     store o = both_writes now t pid (cantidad m) (stock_actual p)
                 (cantidad_nueva m) (sql_text (body_motivo b)) (user_id u) d).
Proof.
  intros o. subst o.
  destruct (POST_movimiento_cases t f now u b d)
    as [(cs & r & E & ->)
       |(p & rest & created & failed & Hs & Hu & Hv & Hlt & Hc & Hf &
         [[_ ->]|(pid & c & nueva & Hp & Hc' & Hn & ->)])];
    cbn [reply store calls].
  - destruct (prepare_replied _ _ _ _ _ _ _ E) as (Hno & H201 & _).
    split; [|split; [|split; [|split; [|split; [|split]]]]].
    + intros Hu. destruct t; simpl in E;
        unfold entrada_prepare, salida_prepare, ajuste_prepare in E;
        rewrite Hu in E; inversion E; repeat split; reflexivity.
    + intros Hu Hv. destruct t; simpl in E;
        unfold entrada_prepare, salida_prepare, ajuste_prepare in E;
        rewrite Hu in E; destruct (inventoryValidation b); try congruence;
        inversion E; repeat split; reflexivity.
    + intros Hu Hv Hq _ Hs. destruct t; simpl in E;
        unfold entrada_prepare, salida_prepare, ajuste_prepare in E;
        rewrite Hu, Hv, Hq, Hs in E; inversion E; repeat split; reflexivity.
    + intros Hu Hv Hq p rest Hs -> Hlt. simpl in E.
      unfold salida_prepare in E. rewrite Hu, Hv, Hq, Hs, Hlt in E.
      inversion E. repeat split; reflexivity.
    + intros _. exact Hno.
    + reflexivity.
    + intros H. contradiction.
  - split; [congruence|]. split; [congruence|]. split; [congruence|].
    split; [|split; [rewrite Hf; lia|split; [reflexivity|rewrite Hf; lia]]].
    intros _ _ _ p' rest' Hs' -> Hlt'.
    rewrite Hs in Hs'. injection Hs' as <- <-.
    rewrite (Hlt eq_refl) in Hlt'. discriminate.
  - split; [congruence|]. split; [congruence|]. split; [congruence|].
    split; [|split; [rewrite Hc; lia|split; [congruence|]]].
    + intros _ _ _ p' rest' Hs' -> Hlt'.
      rewrite Hs in Hs'. injection Hs' as <- <-.
      rewrite (Hlt eq_refl) in Hlt'. discriminate.
    + intros _.
      exists pid, p, rest,
        (mkMovimiento (next_movimiento_id d) pid t c (stock_actual p) nueva
                      (sql_text (body_motivo b)) (user_id u) now).
      cbn [m_id producto_id tipo cantidad cantidad_anterior cantidad_nueva].
      repeat (split; [first [assumption|reflexivity]|]).
      split; [now apply (stock_read_both_writes _ _ _ _ _ _ _ _ _ _ p rest)|].
      split; [|reflexivity].
      cbn [both_writes productos]. unfold update_where_id.
      induction (productos d) as [|x xs IH]; cbn [map]; constructor;
        [|exact IH].
      destruct (p_id x =? pid); reflexivity.
Qed.

(** An entry of 5 pencils on a stock of 10 is answered 201: the ledger
    holds the one row 10 -> 15 and the pencil reads 15. *)
Lemma movement_refused_or_both_writes_witness :
  status_of (reply (POST_movimiento entrada no_faults 100 admin
                      (pedir entrada (JNum 5)) (almacen 10))) = 201 /\
  movimientos_inventario
    (store (POST_movimiento entrada no_faults 100 admin
              (pedir entrada (JNum 5)) (almacen 10)))
  = [mkMovimiento 1 1 entrada 5 10 15 None 7 100] /\
  stock_read
    (store (POST_movimiento entrada no_faults 100 admin
              (pedir entrada (JNum 5)) (almacen 10))) (JNum 1)
  = Some 15.
Proof.
  assert (H201 : status_of (reply (POST_movimiento entrada no_faults 100 admin
                                     (pedir entrada (JNum 5)) (almacen 10)))
                 = 201) by reflexivity.
  destruct (movement_refused_or_both_writes entrada no_faults 100 admin
              (pedir entrada (JNum 5)) (almacen 10))
    as (_ & _ & _ & _ & _ & _ & Hok).
  destruct (Hok H201)
    as (pid & p & rest & m & Hp & Hs & Hl & Hid & Hpid & Ht & Hant & Hn &
        Hr & _ & _).
  injection Hp as <-. injection Hs as <- <-.
  cbn in Hn. injection Hn as Hn.
  split; [exact H201|]. split.
  - reflexivity.
  - change (body_producto_id (pedir entrada (JNum 5))) with (JNum 1) in Hr.
    rewrite Hr, <- Hn. reflexivity.
Defined.

(** ** A movement that commits *)

Lemma faults_none (f : faults) :
  query_fault f = false -> tx_fault f = None -> f = no_faults.
Proof. destruct f as [qf tf]; simpl; intros -> ->; reflexivity. Qed.

(** What is compared with the stock of an exit is what binds. *)
Lemma js_lt_bound (s : Z) (c : jsval) (q : Z) :
  sql_int c = Some q -> js_lt s c = (s <? q).
Proof. intros H. unfold js_lt. now rewrite (sql_int_js_Number _ _ H). Qed.

(** With permission, a valid body, an active product and no fault, a
    request whose quantity binds as the integer [q] (a number, or text
    that is an integer literal) and whose [motivo] is no array commits
    the row and the stock of the specification's table.  For the route
    of entry this is stated for a quantity sent as a number. *)
Lemma movement_commits t now u b d p rest q :
  denied u = false -> inventoryValidation b = [] ->
  SELECT_producto_activo d (body_producto_id b) = p :: rest ->
  sql_int (body_cantidad b) = Some q ->
  is_array (body_motivo b) = false ->
  (t = entrada -> body_cantidad b = JNum q) ->
  (t = salida -> q <= stock_actual p) ->
  exists pid created,
    sql_int (body_producto_id b) = Some pid /\ status_of created = 201 /\
    POST_movimiento t no_faults now u b d
    = mkOutcome created
        (both_writes now t pid (magnitude t (stock_actual p) q)
           (stock_actual p) (spec_stock_after t (stock_actual p) q)
           (sql_text (body_motivo b)) (user_id u) d)
        [call_executeQuery; call_executeTransaction].
Proof.
  intros Hu Hv Hs Hq Hm Hnum Hle.
  assert (Hlt : t = salida -> js_lt (stock_actual p) (body_cantidad b) = false).
  { intros Ht. rewrite (js_lt_bound _ _ _ Hq). apply Z.ltb_ge. auto. }
  destruct (prepare_reaches t no_faults u b d p rest Hu Hv eq_refl Hs Hlt)
    as (created & failed & E & Hc & _).
  destruct (SELECT_in _ _ _ _ Hs) as (pid & Hp & _).
  exists pid, created. split; [assumption|]. split; [assumption|].
  unfold POST_movimiento. rewrite E. unfold complete.
  rewrite (transaction_goes_through now t u b (stock_actual p) d pid
             (magnitude t (stock_actual p) q)
             (spec_stock_after t (stock_actual p) q) p rest Hp).
  - reflexivity.
  - rewrite (registrada_value t _ _ q Hq). reflexivity.
  - apply nueva_value; assumption.
  - assumption.
  - assumption.
Qed.

(** C3: on an active product with stock [s], a valid exit request of
    quantity [q] (a number, or text that is an integer literal) is
    refused when [q > s], with the answer "Stock insuficiente" whose
    message gives the stock available and the quantity asked for, and
    the tables are unchanged; when [q <= s] and the storage layer does
    not fail (no fault, and a [motivo] that is no array, which the
    driver is taken to refuse) it is answered 201, the row (salida, q,
    s, s - q) is appended and the stock read afterwards is [s - q],
    which is 0 when [q = s]. *)
Theorem salida_insufficient_or_subtracts f now u b d p rest q :
  denied u = false -> inventoryValidation b = [] -> query_fault f = false ->
  SELECT_producto_activo d (body_producto_id b) = p :: rest ->
  sql_int (body_cantidad b) = Some q ->
  let s := stock_actual p in
  let o := POST_salida f now u b d in
  (s < q ->
   reply o = json_error 400 "Stock insuficiente"
               ("No hay suficiente stock. Disponible: " ++ string_of_Z s
                ++ ", Solicitado: " ++ js_String (body_cantidad b))
   /\ store o = d) /\
  (q <= s -> tx_fault f = None -> is_array (body_motivo b) = false ->
   status_of (reply o) = 201 /\
   stock_read (store o) (body_producto_id b) = Some (s - q) /\
   (q = s -> stock_read (store o) (body_producto_id b) = Some 0) /\
   exists pid,
     sql_int (body_producto_id b) = Some pid /\
     store o = both_writes now salida pid q s (s - q)
                           (sql_text (body_motivo b)) (user_id u) d).
Proof.
  intros Hu Hv Hf Hs Hq s o. subst s o. split.
  - intros Hlt. unfold POST_salida, POST_movimiento. simpl prepare.
    unfold salida_prepare. rewrite Hu, Hv, Hf, Hs.
    assert (E : js_lt (stock_actual p) (body_cantidad b) = true).
    { rewrite (js_lt_bound _ _ _ Hq). now apply Z.ltb_lt. }
    rewrite E. split; reflexivity.
  - intros Hle Ht Hm. rewrite (faults_none f Hf Ht).
    destruct (movement_commits salida now u b d p rest q Hu Hv Hs Hq Hm)
      as (pid & created & Hp & Hc & E); [discriminate|auto|].
    unfold POST_salida. rewrite E. cbn [reply store].
    assert (R : stock_read
                  (both_writes now salida pid (magnitude salida (stock_actual p) q)
                     (stock_actual p) (spec_stock_after salida (stock_actual p) q)
                     (sql_text (body_motivo b)) (user_id u) d)
                  (body_producto_id b) = Some (stock_actual p - q)).
    { apply (stock_read_both_writes _ _ _ _ _ _ _ _ _ _ p rest Hp Hs). }
    split; [assumption|]. split; [exact R|].
    split; [intros ->; rewrite R; f_equal; lia|].
    exists pid. split; [assumption|reflexivity].
Qed.

(** C4: on an active product with stock [s], a valid adjustment request
    whose [cantidad] is [q] (a number, or text that is an integer
    literal) is answered 201 when the storage layer does not fail (no
    fault, and a [motivo] that is no array, which the driver is taken to
    refuse); the row appended has [cantidad_anterior = s],
    [cantidad_nueva = q] and [cantidad = |q - s|], and the stock read
    afterwards is [q]. *)
Theorem ajuste_records_magnitude now u b d p rest q :
  denied u = false -> inventoryValidation b = [] ->
  SELECT_producto_activo d (body_producto_id b) = p :: rest ->
  sql_int (body_cantidad b) = Some q ->
  is_array (body_motivo b) = false ->
  let s := stock_actual p in
  let o := POST_ajuste no_faults now u b d in
  status_of (reply o) = 201 /\
  stock_read (store o) (body_producto_id b) = Some q /\
  exists m,
    movimientos_inventario (store o) = (movimientos_inventario d ++ [m])%list /\
    tipo m = ajuste /\ Some (producto_id m) = sql_int (body_producto_id b) /\
    cantidad_anterior m = s /\ cantidad_nueva m = q /\
    cantidad m = Z.abs (q - s).
Proof.
  intros Hu Hv Hs Hq Hm s o. subst s o.
  destruct (movement_commits ajuste now u b d p rest q Hu Hv Hs Hq Hm)
    as (pid & created & Hp & Hc & E); try discriminate.
  unfold POST_ajuste. rewrite E. cbn [reply store].
  split; [assumption|]. split.
  - apply (stock_read_both_writes _ _ _ _ _ _ _ _ _ _ p rest Hp Hs).
  - eexists. split; [reflexivity|]. cbn. now rewrite Hp.
Qed.

(** Scenario A of the specification: from stock 50 an exit of 50 commits
    and leaves 0. *)
Lemma salida_insufficient_or_subtracts_witness :
  stock_read (store (POST_salida no_faults 100 admin (pedir salida (JNum 50))
                                 (almacen 50)))
             (JNum 1) = Some 0.
Proof.
  pose proof (salida_insufficient_or_subtracts no_faults 100 admin
                (pedir salida (JNum 50)) (almacen 50) (lapiz 50) [] 50
                eq_refl eq_refl eq_refl eq_refl eq_refl) as H.
  cbv zeta in H. destruct H as [_ H].
  destruct (H (Z.le_refl 50) eq_refl eq_refl) as (_ & _ & H0 & _).
  exact (H0 eq_refl).
Defined.

(** Scenario A, second half: an exit of 1 from stock 0 is refused, the
    message naming 0 available and 1 asked for. *)
Example salida_de_stock_cero :
  POST_salida no_faults 100 admin (pedir salida (JNum 1)) (almacen 0)
  = mkOutcome
      (json_error 400 "Stock insuficiente"
         "No hay suficiente stock. Disponible: 0, Solicitado: 1")
      (almacen 0) [call_executeQuery].
Proof. reflexivity. Qed.

(** Scenario B of the specification: from stock 10 an adjustment to 7
    records quantity 3, before 10, after 7. *)
Lemma ajuste_records_magnitude_witness :
  exists m,
    movimientos_inventario
      (store (POST_ajuste no_faults 100 admin (pedir ajuste (JNum 7)) (almacen 10)))
    = [m] /\ cantidad m = 3 /\ cantidad_anterior m = 10 /\ cantidad_nueva m = 7.
Proof.
  destruct (ajuste_records_magnitude 100 admin (pedir ajuste (JNum 7)) (almacen 10)
              (lapiz 10) [] 7 eq_refl eq_refl eq_refl eq_refl eq_refl)
    as (_ & _ & m & Hm & _ & _ & Ha & Hn & Hc).
  exists m. repeat split; assumption.
Defined.

(** ** Adjustments *)

Lemma update_where_id_same i now v ps :
  (forall p, In p ps -> p_id p = i -> stock_actual p = v) ->
  update_where_id i (set_stock now v) ps
  = update_where_id i (with_updated_at now) ps.
Proof.
  unfold update_where_id. intros H. apply map_ext_in. intros p Hin.
  destruct (p_id p =? i) eqn:E; [|reflexivity].
  apply Z.eqb_eq in E. unfold set_stock, with_updated_at.
  now rewrite (H p Hin E).
Qed.

Lemma update_where_id_stock i now v ps p :
  In p (update_where_id i (set_stock now v) ps) -> p_id p = i ->
  stock_actual p = v.
Proof.
  unfold update_where_id. intros Hin Hid.
  apply in_map_iff in Hin. destruct Hin as (p0 & E & _).
  destruct (p_id p0 =? i) eqn:Ei.
  - subst p. reflexivity.
  - subst p. apply Z.eqb_neq in Ei. contradiction.
Qed.

(** C8: when two adjustment requests for the same product and the same
    target [t] are served one after the other and both are answered 201,
    the second appends a row with [cantidad = 0] and
    [cantidad_anterior = cantidad_nueva = t], the stock read after it is
    [t], and it leaves the table of products as the first left it but
    for the [updated_at] of the product, which it sets again. *)
Theorem ajuste_twice_second_is_noop f1 f2 now1 now2 u1 u2 b1 b2 d pid t :
  sql_int (body_producto_id b1) = Some pid ->
  sql_int (body_producto_id b2) = Some pid ->
  js_Number (body_cantidad b1) = Some t ->
  js_Number (body_cantidad b2) = Some t ->
  let o1 := POST_ajuste f1 now1 u1 b1 d in
  let o2 := POST_ajuste f2 now2 u2 b2 (store o1) in
  status_of (reply o1) = 201 -> status_of (reply o2) = 201 ->
  productos (store o2)
  = update_where_id pid (with_updated_at now2) (productos (store o1)) /\
  stock_read (store o2) (body_producto_id b2) = Some t /\
  exists m,
    movimientos_inventario (store o2)
    = (movimientos_inventario (store o1) ++ [m])%list /\
    tipo m = ajuste /\ producto_id m = pid /\
    cantidad_anterior m = t /\ cantidad_nueva m = t /\ cantidad m = 0.
Proof.
  intros Hp1 Hp2 Hq1 Hq2 o1 o2 H1 H2. subst o1 o2.
  unfold POST_ajuste in *.
  destruct (POST_movimiento_cases ajuste f1 now1 u1 b1 d)
    as [(cs & r & E & R)
       |(p & rest & created & failed & Hs & Hu & Hv & Hlt & Hc & Hf &
         [[_ R]|(pid1 & c1 & n1 & Hp & Hc' & Hn & R)])];
    rewrite R in *; cbn [reply store] in *.
  - apply prepare_replied in E. tauto.
  - congruence.
  - clear R. simpl nueva_of in Hn.
    rewrite (sql_int_js_Number _ _ Hn) in Hq1.
    assert (pid1 = pid) by congruence. assert (n1 = t) by congruence.
    subst pid1 n1. clear Hn Hp.
    set (d1 := both_writes now1 ajuste pid c1 (stock_actual p) t
                 (sql_text (body_motivo b1)) (user_id u1) d) in *.
    destruct (POST_movimiento_cases ajuste f2 now2 u2 b2 d1)
      as [(cs & r & E & R)
         |(p2 & rest2 & created2 & failed2 & Hs2 & Hu2 & Hv2 & _ & Hc2 & Hf2 &
           [[_ R]|(pid2 & c2 & n2 & Hp & Hc2' & Hn & R)])];
      rewrite R in *; cbn [reply store] in *.
    + apply prepare_replied in E. tauto.
    + congruence.
    + clear R.
      destruct (SELECT_in _ _ _ _ Hs2) as (i & Hi & Hin & Hid & _).
      assert (i = pid) by congruence. subst i.
      assert (St : stock_actual p2 = t).
      { apply (update_where_id_stock pid now1 t (productos d)); assumption. }
      rewrite St in *.
      simpl nueva_of in Hn. pose proof (sql_int_js_Number _ _ Hn) as Hq2'.
      simpl registrada_of in Hc2'. unfold js_abs_diff in Hc2'.
      rewrite Hq2 in Hc2'. simpl in Hc2'.
      assert (pid2 = pid) by congruence. assert (n2 = t) by congruence.
      assert (c2 = 0) by (injection Hc2' as <-; lia).
      subst pid2 n2 c2. split; [|split].
      * unfold both_writes at 1. cbn [productos].
        apply update_where_id_same. intros q Hq Hqi.
        apply (update_where_id_stock pid now1 t (productos d)); assumption.
      * apply (stock_read_both_writes _ _ _ _ _ _ _ _ _ _ p2 rest2 Hp2 Hs2).
      * eexists. split; [reflexivity|]. cbn. repeat split; reflexivity.
Qed.

(** Two adjustments of the pencil to 7, from stock 10: the second one
    records 0. *)
Lemma ajuste_twice_second_is_noop_witness :
  exists m,
    movimientos_inventario
      (store (POST_ajuste no_faults 101 admin (pedir ajuste (JNum 7))
                (store (POST_ajuste no_faults 100 admin (pedir ajuste (JNum 7))
                                    (almacen 10)))))
    = (movimientos_inventario
         (store (POST_ajuste no_faults 100 admin (pedir ajuste (JNum 7)) (almacen 10)))
       ++ [m])%list
    /\ cantidad m = 0 /\ cantidad_anterior m = 7 /\ cantidad_nueva m = 7.
Proof.
  destruct (ajuste_twice_second_is_noop no_faults no_faults 100 101 admin admin
              (pedir ajuste (JNum 7)) (pedir ajuste (JNum 7)) (almacen 10) 1 7
              eq_refl eq_refl eq_refl eq_refl eq_refl eq_refl)
    as (_ & _ & m & Hm & _ & _ & Ha & Hn & Hc).
  exists m. repeat split; assumption.
Defined.






(** ** The committed row and the table of the specification *)

(** C2, as amended: a movement that commits through the route of exit or
    of adjustment, or through the route of entry with the quantity sent
    as a number, appends a row whose [cantidad_anterior] is the stock
    read and whose [cantidad_nueva] is the value of the specification's
    table (before + q, before - q, the target q); and the stock read
    right after the commit is that [cantidad_nueva]. *)
Theorem committed_row_follows_table t f now u b d q :
  js_Number (body_cantidad b) = Some q ->
  (t = entrada -> body_cantidad b = JNum q) ->
  let o := POST_movimiento t f now u b d in
  status_of (reply o) = 201 ->
  exists m p rest,
    SELECT_producto_activo d (body_producto_id b) = p :: rest /\
    movimientos_inventario (store o)
    = (movimientos_inventario d ++ [m])%list /\
    tipo m = t /\ cantidad m = magnitude t (stock_actual p) q /\
    cantidad_anterior m = stock_actual p /\
    cantidad_nueva m = spec_stock_after t (cantidad_anterior m) q /\
    stock_read (store o) (body_producto_id b) = Some (cantidad_nueva m).
Proof.
  intros Hq Hnum o H. subst o.
  destruct (POST_movimiento_cases t f now u b d)
    as [(cs & r & E & R)
       |(p & rest & created & failed & Hs & Hu & Hv & Hlt & Hc & Hf &
         [[_ R]|(pid & c & nueva & Hp & Hc' & Hn & R)])];
    rewrite R in *; cbn [reply store] in *.
  - apply prepare_replied in E. tauto.
  - congruence.
  - pose proof (committed_quantity _ _ _ _ _ _ Hc' Hn Hq) as Hq'.
    rewrite (registrada_value t _ _ q Hq') in Hc'.
    rewrite (nueva_value t _ _ q Hq' Hnum) in Hn.
    injection Hc' as <-. injection Hn as <-.
    eexists _, p, rest. split; [assumption|].
    split; [reflexivity|]. cbn [tipo cantidad cantidad_anterior cantidad_nueva].
    repeat (split; [reflexivity|]).
    apply (stock_read_both_writes _ _ _ _ _ _ _ _ _ _ p rest Hp Hs).
Qed.

(** An entry of 5 on the pencil at stock 10 commits the row
    (5, 10, 15). *)
Lemma committed_row_follows_table_witness :
  exists m,
    movimientos_inventario
      (store (POST_movimiento entrada no_faults 100 admin (pedir entrada (JNum 5))
                              (almacen 10))) = [m]
    /\ cantidad m = 5 /\ cantidad_anterior m = 10 /\ cantidad_nueva m = 15.
Proof.
  destruct (committed_row_follows_table entrada no_faults 100 admin
              (pedir entrada (JNum 5)) (almacen 10) 5 eq_refl (fun _ => eq_refl)
              eq_refl)
    as (m & p & rest & Hs & Hm & _ & Hc & Ha & Hn & _).
  exists m. injection Hs as <- <-. rewrite Ha in Hn.
  repeat split; assumption.
Defined.

(** C2, as stated, fails: once the pencil is created with stock 10 and
    an entry of 5 has brought it to 15, a product update that carries
    stock 3 overwrites the stock, and the last movement of the pencil
    still ends at 15. *)
Lemma stock_is_last_movement_broken_by_update :
  let ops :=
    [op_POST_products false 1700000000000 0 admin (ficha (JNum 10));
     op_movimiento entrada no_faults 100 admin (pedir entrada (JNum 5));
     op_PUT_products false 0 admin (JStr "1") (ficha (JNum 3))] in
  stock_is_last_movement vacio /\
  ~ stock_is_last_movement (run_operations ops vacio).
Proof.
  split.
  - intros p m [].
  - intros H.
    specialize (H (lapiz 3)
                  (mkMovimiento 1 1 entrada 5 10 15 None 7 100)
                  (or_introl eq_refl) eq_refl).
    discriminate H.
Qed.

(** The quantity of an entry that arrives as text is appended to the
    text of the stock instead of being added to it: an entry of ["5"] on
    stock 10 commits the row (5, 10, 105) and leaves a stock of 105,
    where the routes of exit and adjustment read the same text as the
    number 5. *)
Lemma entrada_text_quantity_is_concatenated :
  let o := POST_entrada no_faults 100 admin (pedir entrada (JStr "5")) (almacen 10) in
  status_of (reply o) = 201 /\
  movimientos_inventario (store o)
  = [mkMovimiento 1 1 entrada 5 10 105 None 7 100] /\
  stock_read (store o) (JNum 1) = Some 105 /\
  stock_read (store (POST_salida no_faults 100 admin (pedir salida (JStr "5"))
                                 (almacen 10))) (JNum 1) = Some 5.
Proof. repeat split; reflexivity. Qed.

(** ** Stock that is never negative *)

Lemma Forall_update_where_id (P : producto -> Prop) i f ps :
  Forall P ps -> (forall p, In p ps -> P p -> P (f p)) ->
  Forall P (update_where_id i f ps).
Proof.
  unfold update_where_id. intros H Hf. apply Forall_forall.
  intros x Hx. apply in_map_iff in Hx. destruct Hx as (p & <- & Hin).
  pose proof (proj1 (Forall_forall P ps) H p Hin) as Hp.
  destruct (p_id p =? i); auto.
Qed.

Lemma Forall_update_where_id_activo (P : producto -> Prop) i f ps :
  Forall P ps -> (forall p, In p ps -> P p -> P (f p)) ->
  Forall P (update_where_id_activo i f ps).
Proof.
  unfold update_where_id_activo. intros H Hf. apply Forall_forall.
  intros x Hx. apply in_map_iff in Hx. destruct Hx as (p & <- & Hin).
  pose proof (proj1 (Forall_forall P ps) H p Hin) as Hp.
  destruct ((p_id p =? i) && activo p); auto.
Qed.

(** The value a movement writes to [stock_actual] is not negative when
    the stock it read is not. *)
Lemma nueva_nonneg t s c nueva :
  0 <= s -> isInt 1 c = true ->
  (t = salida -> js_lt s c = false) ->
  sql_int (nueva_of t s c) = Some nueva -> 0 <= nueva.
Proof.
  intros Hs Hi Hlt Hn.
  destruct t; cbn [nueva_of] in Hn.
  - destruct c as [| |z|str|items]; cbn [js_add sql_int] in Hn;
      try discriminate.
    + rewrite isInt_JNum in Hi. apply Z.leb_le in Hi.
      injection Hn as <-. lia.
    + now apply (parse_int_concat_nonneg s (js_String (JStr str))).
    + now apply (parse_int_concat_nonneg s (js_String (JArr items))).
  - specialize (Hlt eq_refl). unfold js_lt in Hlt. unfold js_sub in Hn.
    destruct (js_Number c) as [q|]; [|discriminate].
    apply Z.ltb_ge in Hlt. injection Hn as <-. lia.
  - pose proof (isInt_bound _ _ _ Hi Hn). lia.
Qed.

Lemma movement_keeps_stock_nonneg t f now u b d :
  stock_nonneg d -> stock_nonneg (store (POST_movimiento t f now u b d)).
Proof.
  intros H.
  destruct (POST_movimiento_cases t f now u b d)
    as [(cs & r & E & ->)
       |(p & rest & created & failed & Hs & Hu & Hv & Hlt & Hc & Hf &
         [[_ ->]|(pid & c & nueva & Hp & Hc' & Hn & ->)])];
    cbn [store]; try assumption.
  unfold stock_nonneg, both_writes. cbn [productos].
  apply Forall_update_where_id; [assumption|].
  intros p0 _ _. cbn.
  destruct (SELECT_in _ _ _ _ Hs) as (i & _ & Hin & _).
  apply inventoryValidation_nil in Hv. destruct Hv as [_ Hv].
  apply (nueva_nonneg t (stock_actual p) (body_cantidad b)); auto.
  apply (proj1 (Forall_forall _ _) H p Hin).
Qed.

Lemma operation_keeps_stock_nonneg o d :
  stock_field_nonneg o -> stock_nonneg d -> stock_nonneg (apply_operation o d).
Proof.
  intros Ho H.
  destruct o as [t f now u b|fault now_ms now u b|fault now u id b
                |fault now u id];
    simpl in *.
  - now apply movement_keeps_stock_nonneg.
  - unfold POST_products.
    destruct (denied_products u); [assumption|].
    destruct fault; [assumption|].
    destruct (sql_int_column (pb_stock b)) as [v|] eqn:E; [|assumption].
    unfold stock_nonneg. cbn [snd productos].
    apply Forall_app. split; [assumption|].
    constructor; [|constructor]. cbn. now apply Ho.
  - unfold PUT_products.
    destruct (denied_products u); [assumption|].
    destruct fault; [assumption|].
    destruct (sql_int id) as [i|]; [|assumption].
    destruct (Nat.eqb _ 0); [assumption|].
    destruct (sql_int_column (pb_stock b)) as [v|] eqn:E; [|assumption].
    unfold stock_nonneg. cbn [snd productos].
    apply Forall_update_where_id_activo; [assumption|].
    intros p _ _. cbn. now apply Ho.
  - unfold DELETE_products.
    destruct (denied_products u); [assumption|].
    destruct fault; [assumption|].
    destruct (sql_int id) as [i|]; [|assumption].
    destruct (Nat.eqb _ 0); [assumption|].
    unfold stock_nonneg. cbn [snd productos].
    apply Forall_update_where_id_activo; [assumption|].
    intros p _ Hp. exact Hp.
Qed.

(** C5, as amended: if no product has a negative stock, then after any
    sequence of movement requests, product deactivations, and product
    creations and updates whose [stock] field is not stored as a
    negative number (a number below 0, or text that the engine rounds
    to one), no product, active or inactive, has a negative stock. *)
Theorem stock_never_negative ops d :
  stock_nonneg d -> Forall stock_field_nonneg ops ->
  stock_nonneg (run_operations ops d).
Proof.
  unfold run_operations. revert d.
  induction ops as [|o ops IH]; intros d Hd Hops; [exact Hd|].
  inversion Hops as [|o' ops' Ho Hrest]; subst.
  cbn [fold_left]. apply IH; [|assumption].
  now apply operation_keeps_stock_nonneg.
Qed.

(** Scenario A replayed on the empty tables: the pencil is created with
    stock 50, 50 leave, 1 more is refused, the pencil is retired. *)
Lemma stock_never_negative_witness :
  stock_nonneg
    (run_operations
       [op_POST_products false 1700000000000 0 admin (ficha (JNum 50));
        op_movimiento salida no_faults 100 admin (pedir salida (JNum 50));
        op_movimiento salida no_faults 101 admin (pedir salida (JNum 1));
        op_DELETE_products false 0 admin (JStr "1")]
       vacio).
Proof.
  apply stock_never_negative.
  - constructor.
  - repeat constructor. intros v E. injection E as <-. discriminate.
Defined.

(** C5, as stated, fails: the product routes store the [stock] of the
    body unchecked, so an update of the pencil with stock -5 leaves a
    negative stock. *)
Lemma stock_negative_after_update :
  let ops :=
    [op_POST_products false 1700000000000 0 admin (ficha (JNum 10));
     op_PUT_products false 0 admin (JStr "1") (ficha (JNum (-5)))] in
  stock_nonneg vacio /\
  productos (run_operations ops vacio) = [lapiz (-5)] /\
  ~ stock_nonneg (run_operations ops vacio).
Proof.
  split; [constructor|]. split; [reflexivity|].
  intros H. inversion H as [|p ps Hp _]. subst.
  apply Hp. reflexivity.
Qed.

(** The same with text: the engine rounds ["-1.5"] to -2 and stores it,
    while ["-0.4"] is stored as 0. *)
Example fractional_stock_is_rounded :
  let r := PUT_products false 0 admin (JStr "1") (ficha (JStr "-1.5"))
                        (almacen 10) in
  status_of (fst r) = 200 /\ productos (snd r) = [lapiz (-2)] /\
  sql_int_column (JStr "-0.4") = Some 0 /\
  sql_int_column (JStr "2.5") = Some 3 /\
  sql_int_column (JStr " 12e-1 ") = Some 1 /\
  sql_int_column (JStr "1abc") = None.
Proof. repeat split; reflexivity. Qed.

(** ** Who writes the stock *)

Lemma map_stock_set_activo i now a ps :
  map stock_actual (update_where_id_activo i (set_activo now a) ps)
  = map stock_actual ps.
Proof.
  unfold update_where_id_activo. rewrite map_map. apply map_ext.
  intros p. destruct ((p_id p =? i) && activo p); reflexivity.
Qed.

(** After an update of the active rows of an id that keeps ids and
    flags, the [SELECT] returns the same rows, updated. *)
Lemma SELECT_after_update_activo i f ps :
  (forall p, p_id (f p) = p_id p /\ activo (f p) = activo p) ->
  filter (fun p => (p_id p =? i) && activo p) (update_where_id_activo i f ps)
  = map f (filter (fun p => (p_id p =? i) && activo p) ps).
Proof.
  intros Hf. unfold update_where_id_activo.
  induction ps as [|p ps IH]; [reflexivity|].
  cbn [map filter]. rewrite IH.
  destruct ((p_id p =? i) && activo p) eqn:E.
  - destruct (Hf p) as [-> ->]. rewrite E. reflexivity.
  - rewrite E. reflexivity.
Qed.

Lemma count_nonzero_head i ps :
  Nat.eqb (count_where_id_activo i ps) 0 = false ->
  exists p rest,
    filter (fun p => (p_id p =? i) && activo p) ps = p :: rest.
Proof.
  unfold count_where_id_activo.
  destruct (filter _ ps) as [|p rest]; [discriminate|].
  intros _. now exists p, rest.
Qed.

(** C6, as amended: the movement routes are the only ones that append to
    the ledger.  A movement request leaves the tables as they were or,
    inside its one transaction and answered 201, appends one row and
    overwrites the stock of the product of that row with the
    [cantidad_nueva] of the row, which is what the stock then reads.
    Deactivating a product changes no stock and no row of the ledger.
    Creating and updating a product never append to the ledger, and
    both write the stock: a creation that is answered 200 adds one
    product whose stock is the [stock] of the body as the engine stores
    it, and an update that is answered 200 writes the [stock] of its
    body into every active row of that id, along with the name and the
    price, the stock then reading that value. *)
Theorem stock_writers :
  (forall t f now u b d,
      let o := POST_movimiento t f now u b d in
      store o = d \/
      exists m,
        In call_executeTransaction (calls o) /\
        status_of (reply o) = 201 /\
        movimientos_inventario (store o)
        = (movimientos_inventario d ++ [m])%list /\
        tipo m = t /\
        sql_int (body_producto_id b) = Some (producto_id m) /\
        stock_read (store o) (body_producto_id b) = Some (cantidad_nueva m) /\
        productos (store o)
        = update_where_id (producto_id m)
            (set_stock now (cantidad_nueva m)) (productos d)) /\
  (forall fault now u id d,
      let d' := snd (DELETE_products fault now u id d) in
      movimientos_inventario d' = movimientos_inventario d /\
      map stock_actual (productos d') = map stock_actual (productos d)) /\
  (forall fault now_ms now u b d,
      let r := POST_products fault now_ms now u b d in
      movimientos_inventario (snd r) = movimientos_inventario d /\
      (status_of (fst r) = 200 ->
       exists v p,
         sql_int_column (pb_stock b) = Some v /\
         productos (snd r) = (productos d ++ [p])%list /\
         p_id p = next_producto_id d /\ stock_actual p = v /\
         activo p = true)) /\
  (forall fault now u id b d,
      let r := PUT_products fault now u id b d in
      movimientos_inventario (snd r) = movimientos_inventario d /\
      (status_of (fst r) = 200 ->
       exists i v,
         sql_int id = Some i /\ sql_int_column (pb_stock b) = Some v /\
         stock_read (snd r) id = Some v /\
         productos (snd r)
         = update_where_id_activo i (set_columns b v now) (productos d))).
Proof.
  split; [|split; [|split]].
  - intros t f now u b d o. subst o.
    destruct (POST_movimiento_cases t f now u b d)
      as [(cs & r & E & ->)
         |(p & rest & created & failed & Hs & Hu & Hv & Hlt & Hc & Hf &
           [[_ ->]|(pid & c & nueva & Hp & Hc' & Hn & ->)])];
      cbn [store calls reply]; try (left; reflexivity).
    right. eexists. split; [right; left; reflexivity|].
    split; [exact Hc|]. split; [reflexivity|].
    cbn [tipo producto_id cantidad_nueva].
    split; [reflexivity|]. split; [exact Hp|].
    split; [|reflexivity].
    apply (stock_read_both_writes _ _ _ _ _ _ _ _ _ _ p rest Hp Hs).
  - intros fault now u id d d'. subst d'. unfold DELETE_products.
    destruct (denied_products u); [split; reflexivity|].
    destruct fault; [split; reflexivity|].
    destruct (sql_int id) as [i|]; [|split; reflexivity].
    destruct (Nat.eqb _ 0); [split; reflexivity|].
    cbn [snd productos movimientos_inventario].
    split; [reflexivity|apply map_stock_set_activo].
  - intros fault now_ms now u b d r. subst r. unfold POST_products.
    destruct (denied_products u); [split; [reflexivity|discriminate]|].
    destruct fault; [split; [reflexivity|discriminate]|].
    destruct (sql_int_column (pb_stock b)) as [v|];
      [|split; [reflexivity|discriminate]].
    split; [reflexivity|]. intros _. eexists v, _.
    split; [reflexivity|]. split; [reflexivity|].
    repeat split; reflexivity.
  - intros fault now u id b d r. subst r. unfold PUT_products.
    destruct (denied_products u); [split; [reflexivity|discriminate]|].
    destruct fault; [split; [reflexivity|discriminate]|].
    destruct (sql_int id) as [i|] eqn:Hi; [|split; [reflexivity|discriminate]].
    destruct (Nat.eqb _ 0) eqn:Hn; [split; [reflexivity|discriminate]|].
    destruct (sql_int_column (pb_stock b)) as [v|];
      [|split; [reflexivity|discriminate]].
    split; [reflexivity|]. intros _. exists i, v.
    split; [reflexivity|]. split; [reflexivity|]. split; [|reflexivity].
    unfold stock_read, SELECT_producto_activo. rewrite Hi.
    cbn [snd productos].
    rewrite SELECT_after_update_activo by (intros x; split; reflexivity).
    destruct (count_nonzero_head _ _ Hn) as (p & rest & ->).
    reflexivity.
Qed.

(** An update of the pencil that carries the stock "2.5" is answered
    200 and the pencil then reads 3, the value the engine stores. *)
Lemma stock_writers_witness :
  stock_read
    (snd (PUT_products false 60 admin (JStr "1") (ficha (JStr "2.5"))
            (almacen 10)))
    (JStr "1") = Some 3.
Proof.
  destruct stock_writers as (_ & _ & _ & Hput).
  destruct (Hput false 60 admin (JStr "1") (ficha (JStr "2.5")) (almacen 10))
    as [_ H].
  destruct (H eq_refl) as (i & v & _ & Hv & Hr & _).
  vm_compute in Hv. injection Hv as <-. exact Hr.
Defined.

(** C6, as stated, fails: an update of the pencil that carries stock 3
    changes its stock from 10 to 3 and appends nothing to the ledger. *)
Lemma stock_written_outside_the_ledger :
  let r := PUT_products false 0 admin (JStr "1") (ficha (JNum 3)) (almacen 10) in
  status_of (fst r) = 200 /\
  stock_read (almacen 10) (JNum 1) = Some 10 /\
  stock_read (snd r) (JNum 1) = Some 3 /\
  movimientos_inventario (snd r) = movimientos_inventario (almacen 10).
Proof. repeat split; reflexivity. Qed.

(** ** Requests one after the other, and requests that overlap *)

Lemma telescopes_cons m ms :
  starts_at (cantidad_nueva m) ms -> telescopes ms -> telescopes (m :: ms).
Proof. destruct ms as [|m2 r]; simpl; auto. Qed.

Lemma entradas_in_sequence n now u b q :
  denied u = false -> inventoryValidation b = [] ->
  body_cantidad b = JNum q -> is_array (body_motivo b) = false ->
  forall d p rest,
    SELECT_producto_activo d (body_producto_id b) = p :: rest ->
    let d' := run_operations
                (repeat (op_movimiento entrada no_faults now u b) n) d in
    stock_read d' (body_producto_id b)
    = Some (stock_actual p + Z.of_nat n * q) /\
    exists ms,
      movimientos_inventario d' = (movimientos_inventario d ++ ms)%list /\
      List.length ms = n /\ starts_at (stock_actual p) ms /\ telescopes ms /\
      Forall (fun m => tipo m = entrada /\ cantidad m = q /\
                       cantidad_nueva m = cantidad_anterior m + q) ms.
Proof.
  intros Hu Hv Hq Hm. induction n as [|n IH]; intros d p rest Hs d'; subst d'.
  - cbn [repeat run_operations fold_left]. split.
    + unfold stock_read. rewrite Hs. cbn. f_equal. lia.
    + exists []. rewrite app_nil_r. repeat split; constructor.
  - cbn [repeat]. unfold run_operations. cbn [fold_left apply_operation].
    assert (Hn : sql_int (body_cantidad b) = Some q) by (now rewrite Hq).
    destruct (movement_commits entrada now u b d p rest q Hu Hv Hs Hn Hm)
      as (pid & created & Hp & Hc & E); [auto|discriminate|].
    rewrite E. cbn [store].
    set (d1 := both_writes now entrada pid (magnitude entrada (stock_actual p) q)
                 (stock_actual p) (spec_stock_after entrada (stock_actual p) q)
                 (sql_text (body_motivo b)) (user_id u) d).
    assert (Hs1 : SELECT_producto_activo d1 (body_producto_id b)
                  = set_stock now (stock_actual p + q) p
                    :: map (set_stock now (stock_actual p + q)) rest).
    { rewrite (SELECT_after_update d d1 _ pid now (stock_actual p + q) Hp)
        by reflexivity.
      rewrite Hs. reflexivity. }
    destruct (IH d1 _ _ Hs1) as (Hst & ms & Hms & Hlen & Hstart & Htel & Hall).
    fold (run_operations (repeat (op_movimiento entrada no_faults now u b) n) d1).
    split.
    + rewrite Hst. cbn [set_stock stock_actual]. f_equal. lia.
    + eexists (_ :: ms). rewrite Hms. cbn [d1 both_writes movimientos_inventario].
      rewrite <- app_assoc. split; [reflexivity|].
      split; [cbn; now rewrite Hlen|]. split; [reflexivity|].
      split; [apply telescopes_cons; assumption|].
      constructor; [|assumption]. cbn. repeat split; reflexivity.
Qed.

Lemma one_transaction_at_most t f now u b d :
  (count_transactions (calls (POST_movimiento t f now u b d)) <= 1)%nat.
Proof.
  destruct (POST_movimiento_cases t f now u b d)
    as [(cs & r & E & ->)
       |(p & rest & created & failed & Hs & Hu & Hv & Hlt & Hc & Hf &
         [[_ ->]|(pid & c & nueva & Hp & Hc' & Hn & ->)])];
    cbn [calls]; try (cbn; lia).
  apply prepare_replied in E. destruct E as [Hno _].
  unfold count_transactions.
  assert (F : filter (fun c => match c with
                               | call_executeTransaction => true
                               | call_executeQuery => false
                               end) cs = []).
  { induction cs as [|c cs IH]; [reflexivity|].
    cbn. destruct c.
    - apply IH. intros H. apply Hno. now right.
    - exfalso. apply Hno. now left. }
  rewrite F. cbn. lia.
Qed.

(** Two movements of one product, of any kind, served one after the
    other and both committed: the second starts where the first
    ended. *)
Lemma consecutive_movements_chain t1 f1 now1 u1 b1 t2 f2 now2 u2 b2 d :
  sql_int (body_producto_id b2) = sql_int (body_producto_id b1) ->
  let o1 := POST_movimiento t1 f1 now1 u1 b1 d in
  let o2 := POST_movimiento t2 f2 now2 u2 b2 (store o1) in
  status_of (reply o1) = 201 -> status_of (reply o2) = 201 ->
  exists m1 m2,
    movimientos_inventario (store o2)
    = (movimientos_inventario d ++ [m1; m2])%list /\
    tipo m1 = t1 /\ tipo m2 = t2 /\ producto_id m2 = producto_id m1 /\
    cantidad_anterior m2 = cantidad_nueva m1 /\
    stock_read (store o2) (body_producto_id b2) = Some (cantidad_nueva m2).
Proof.
  intros Hid o1 o2 H1 H2. subst o1 o2.
  destruct (POST_movimiento_cases t1 f1 now1 u1 b1 d)
    as [(cs & r & E & R)
       |(p & rest & created & failed & Hs & Hu & Hv & Hlt & Hc & Hf &
         [[_ R]|(pid & c & nueva & Hp & Hc' & Hn & R)])];
    rewrite R in *; cbn [reply store] in *.
  - apply prepare_replied in E. tauto.
  - congruence.
  - clear R.
    set (d1 := both_writes now1 t1 pid c (stock_actual p) nueva
                 (sql_text (body_motivo b1)) (user_id u1) d) in *.
    destruct (POST_movimiento_cases t2 f2 now2 u2 b2 d1)
      as [(cs & r & E & R)
         |(p2 & rest2 & created2 & failed2 & Hs2 & Hu2 & Hv2 & _ & Hc2 & Hf2 &
           [[_ R]|(pid2 & c2 & n2 & Hp2 & Hc2' & Hn2 & R)])];
      rewrite R in *; cbn [reply store] in *.
    + apply prepare_replied in E. tauto.
    + congruence.
    + clear R.
      destruct (SELECT_in _ _ _ _ Hs2) as (i & Hi & Hin & Hid2 & _).
      assert (i = pid) by congruence. subst i.
      assert (pid2 = pid) by congruence. subst pid2.
      assert (St : stock_actual p2 = nueva).
      { apply (update_where_id_stock pid now1 nueva (productos d));
          assumption. }
      eexists _, _. split.
      * cbn [both_writes movimientos_inventario d1]. rewrite <- app_assoc.
        reflexivity.
      * cbn [tipo producto_id cantidad_anterior cantidad_nueva].
        repeat (split; [reflexivity || exact St|]).
        apply (stock_read_both_writes _ _ _ _ _ _ _ _ _ _ p2 rest2 Hp2 Hs2).
Qed.

(** A transaction that is called and does not commit is answered 500,
    and a request that is not answered 201 leaves the tables as they
    were. *)
Lemma failed_transaction_is_a_500 t f now u b d :
  let o := POST_movimiento t f now u b d in
  (status_of (reply o) <> 201 -> store o = d) /\
  (In call_executeTransaction (calls o) -> status_of (reply o) <> 201 ->
   status_of (reply o) = 500 /\ reply o = server_error (catch_message t)).
Proof.
  intros o. subst o. unfold POST_movimiento.
  destruct (prepare t f u b d) as [cs r|qs created failed] eqn:E.
  - cbn [complete reply store calls]. split; [reflexivity|].
    intros Hin. apply prepare_replied in E. tauto.
  - assert (Hfail : failed = server_error (catch_message t)).
    { destruct t; cbn [prepare] in E;
        unfold entrada_prepare, salida_prepare, ajuste_prepare in E;
        (destruct (denied u); [discriminate|]);
        (destruct (inventoryValidation b); [|discriminate]);
        (destruct (query_fault f); [discriminate|]);
        (destruct (SELECT_producto_activo d (body_producto_id b));
         [discriminate|]);
        try (destruct (js_lt _ _); [discriminate|]);
        injection E as _ _ <-; reflexivity. }
    apply prepare_ready in E.
    destruct E as (p & rest & _ & _ & _ & _ & _ & _ & Hc & Hf).
    unfold complete.
    destruct (executeTransaction f now qs d); cbn [reply store calls].
    + split; [congruence|]. intros _ H. congruence.
    + split; [reflexivity|]. intros _ _. split; [exact Hf|exact Hfail].
Qed.

(** C7, as amended: movements of one product that are served one after
    the other, each finished before the next starts, serialize.  Of two
    such movements, of any kinds, that both commit, the second records
    as its stock before what the first recorded as its stock after, and
    the stock then reads what the second recorded as its stock after.
    In particular [n] entry requests with the quantity [q] sent as a
    number, a [motivo] that is no array and no fault leave, on a stock
    [s], the stock [s + n * q], and the [n] rows appended start at [s],
    each ends at its start plus [q] and each starts where the one
    before ended.  A request calls its transaction once at most; when
    the transaction is called and fails the request is answered 500
    with the error message of its route, and whenever a request is not
    answered 201 the tables are as before: nothing is read again and
    nothing is tried again. *)
Theorem sequential_movements_serialize n now u b q d p rest :
  denied u = false -> inventoryValidation b = [] ->
  body_cantidad b = JNum q -> is_array (body_motivo b) = false ->
  SELECT_producto_activo d (body_producto_id b) = p :: rest ->
  let d' := run_operations
              (repeat (op_movimiento entrada no_faults now u b) n) d in
  (stock_read d' (body_producto_id b) = Some (stock_actual p + Z.of_nat n * q)
   /\ exists ms,
       movimientos_inventario d' = (movimientos_inventario d ++ ms)%list /\
       List.length ms = n /\ starts_at (stock_actual p) ms /\ telescopes ms /\
       Forall (fun m => tipo m = entrada /\ cantidad m = q /\
                        cantidad_nueva m = cantidad_anterior m + q) ms) /\
  (forall t1 f1 now1 u1 b1 t2 f2 now2 u2 b2 d0,
      sql_int (body_producto_id b2) = sql_int (body_producto_id b1) ->
      let o1 := POST_movimiento t1 f1 now1 u1 b1 d0 in
      let o2 := POST_movimiento t2 f2 now2 u2 b2 (store o1) in
      status_of (reply o1) = 201 -> status_of (reply o2) = 201 ->
      exists m1 m2,
        movimientos_inventario (store o2)
        = (movimientos_inventario d0 ++ [m1; m2])%list /\
        tipo m1 = t1 /\ tipo m2 = t2 /\ producto_id m2 = producto_id m1 /\
        cantidad_anterior m2 = cantidad_nueva m1 /\
        stock_read (store o2) (body_producto_id b2)
        = Some (cantidad_nueva m2)) /\
  (forall t f now' u' b' d0,
      let o := POST_movimiento t f now' u' b' d0 in
      (count_transactions (calls o) <= 1)%nat /\
      (status_of (reply o) <> 201 -> store o = d0) /\
      (In call_executeTransaction (calls o) -> status_of (reply o) <> 201 ->
       status_of (reply o) = 500 /\
       reply o = server_error (catch_message t))).
Proof.
  intros Hu Hv Hq Hm Hs d'. subst d'. split; [|split].
  - now apply (entradas_in_sequence n now u b q Hu Hv Hq Hm d p rest).
  - intros t1 f1 now1 u1 b1 t2 f2 now2 u2 b2 d0.
    apply consecutive_movements_chain.
  - intros t f now' u' b' d0 o. subst o.
    split; [apply one_transaction_at_most|].
    apply failed_transaction_is_a_500.
Qed.

(** Three entries of 5 on the pencil at stock 10, one after the other,
    leave 25; and an exit of 3 that follows an entry of 5 on stock 10
    starts at 15. *)
Lemma sequential_movements_serialize_witness :
  stock_read
    (run_operations
       (repeat (op_movimiento entrada no_faults 100 admin (pedir entrada (JNum 5))) 3)
       (almacen 10))
    (JNum 1) = Some 25 /\
  exists m1 m2,
    movimientos_inventario
      (store (POST_movimiento salida no_faults 101 admin (pedir salida (JNum 3))
                (store (POST_movimiento entrada no_faults 100 admin
                          (pedir entrada (JNum 5)) (almacen 10)))))
    = [m1; m2] /\
    cantidad_nueva m1 = 15 /\ cantidad_anterior m2 = 15 /\
    cantidad_nueva m2 = 12.
Proof.
  destruct (sequential_movements_serialize 3 100 admin (pedir entrada (JNum 5)) 5
              (almacen 10) (lapiz 10) [] eq_refl eq_refl eq_refl eq_refl
              eq_refl)
    as [[H _] [Hpair _]].
  split; [exact H|].
  destruct (Hpair entrada no_faults 100 admin (pedir entrada (JNum 5))
                  salida no_faults 101 admin (pedir salida (JNum 3))
                  (almacen 10) eq_refl eq_refl eq_refl)
    as (m1 & m2 & Hms & _ & _ & _ & Hchain & _).
  exists m1, m2. split; [exact Hms|].
  cbn in Hms. injection Hms as <- <-. repeat split; reflexivity.
Defined.

(** C7, as stated, fails: two entry requests of 5 for the pencil at
    stock 10 that both read the stock before either commits are both
    answered 201, both rows start at 10 and end at 15, and the stock ends
    at 15 where two entries of 5 should leave 20. *)
Lemma overlapping_entries_lose_one :
  let s := run_events
             [ev_arrive entrada no_faults admin (pedir entrada (JNum 5));
              ev_arrive entrada no_faults admin (pedir entrada (JNum 5));
              ev_resume 0 no_faults 100;
              ev_resume 1 no_faults 100]
             (mkServer (almacen 10) [] []) in
  map status_of (answers s) = [201; 201] /\
  map (fun m => (cantidad_anterior m, cantidad_nueva m))
      (movimientos_inventario (tables s)) = [(10, 15); (10, 15)] /\
  ~ telescopes (movimientos_inventario (tables s)) /\
  stock_read (tables s) (JNum 1) = Some 15 /\
  15 <> 10 + 2 * 5.
Proof.
  repeat split; try reflexivity.
  - intros [H _]. discriminate H.
  - discriminate.
Qed.

(** ** The order of the movement list *)

Section Pages.

Variable A : Type.
Variable R : A -> A -> Prop.

Lemma In_skipn (n : nat) (l : list A) (x : A) :
  In x (skipn n l) -> In x l.
Proof.
  revert l. induction n as [|n IH]; intros [|a l]; simpl; auto.
Qed.

Lemma In_firstn (n : nat) (l : list A) (x : A) :
  In x (firstn n l) -> In x l.
Proof.
  revert l. induction n as [|n IH]; intros [|a l]; simpl; auto.
  - contradiction.
  - intros [H|H]; auto.
Qed.

Lemma StronglySorted_skipn (n : nat) (l : list A) :
  StronglySorted R l -> StronglySorted R (skipn n l).
Proof.
  revert l. induction n as [|n IH]; intros [|a l] H; simpl; auto.
  apply IH. now apply StronglySorted_inv in H.
Qed.

Lemma StronglySorted_firstn (n : nat) (l : list A) :
  StronglySorted R l -> StronglySorted R (firstn n l).
Proof.
  revert l. induction n as [|n IH]; intros [|a l] H; simpl;
    try constructor.
  - apply IH. now apply StronglySorted_inv in H.
  - apply StronglySorted_inv in H. destruct H as [_ H].
    apply Forall_forall. intros x Hx. apply In_firstn in Hx.
    revert x Hx. now apply Forall_forall.
Qed.

End Pages.

Lemma rows_kept_in keep d r :
  In r (rows_kept keep d) ->
  keep (row_m r) = true /\ In (row_m r) (movimientos_inventario d).
Proof.
  unfold rows_kept. intros H.
  apply in_flat_map in H. destruct H as (m & Hm & Hr).
  apply filter_In in Hm. destruct Hm as [Hin Hw].
  apply in_map_iff in Hr. destruct Hr as (p & <- & _).
  split; assumption.
Qed.

Lemma rows_where_filtered q d r :
  In r (rows_where q d) ->
  where_clause q (row_m r) = true /\ In (row_m r) (movimientos_inventario d).
Proof. apply rows_kept_in. Qed.

Lemma rows_kept_ext keep keep' d :
  (forall m, keep m = keep' m) -> rows_kept keep d = rows_kept keep' d.
Proof.
  intros H. unfold rows_kept. f_equal. now apply filter_ext.
Qed.

(** Inserting keeps the rows and keeps them most recent first. *)
Lemma insert_by_fecha_perm r l : Permutation (r :: l) (insert_by_fecha r l).
Proof.
  induction l as [|x l IH]; cbn [insert_by_fecha]; [apply Permutation_refl|].
  destruct (fecha x <=? fecha r); [apply Permutation_refl|].
  eapply perm_trans; [apply perm_swap|]. now constructor.
Qed.

Lemma insert_by_fecha_sorted r l :
  StronglySorted (fun a b => fecha b <= fecha a) l ->
  StronglySorted (fun a b => fecha b <= fecha a) (insert_by_fecha r l).
Proof.
  induction 1 as [|x l Hl IH Hx]; cbn [insert_by_fecha].
  - repeat constructor.
  - destruct (fecha x <=? fecha r) eqn:E.
    + apply Z.leb_le in E. constructor; [now constructor|].
      constructor; [exact E|].
      apply Forall_forall. intros y Hy.
      pose proof (proj1 (Forall_forall _ _) Hx y Hy) as Hy'.
      cbv beta in Hy'. lia.
    + apply Z.leb_gt in E. constructor; [exact IH|].
      apply Forall_forall. intros y Hy.
      apply (Permutation_in _ (Permutation_sym (insert_by_fecha_perm r l)))
        in Hy.
      destruct Hy as [<-|Hy]; [lia|].
      exact (proj1 (Forall_forall _ _) Hx y Hy).
Qed.

Lemma sort_by_fecha_ordered l : ORDER_BY_fecha_DESC l (sort_by_fecha l).
Proof.
  split.
  - induction l as [|r l IH]; cbn [sort_by_fecha fold_right];
      [apply Permutation_refl|].
    eapply perm_trans; [|apply insert_by_fecha_perm]. now constructor.
  - induction l as [|r l IH]; cbn [sort_by_fecha fold_right];
      [constructor|].
    now apply insert_by_fecha_sorted.
Qed.

(** Rows of different seconds can be put most recent first in one way
    only. *)
Lemma most_recent_first_unique (l1 l2 : list movement_row) :
  Permutation l1 l2 ->
  StronglySorted (fun a b => fecha b <= fecha a) l1 ->
  StronglySorted (fun a b => fecha b <= fecha a) l2 ->
  NoDup (map fecha l1) -> l1 = l2.
Proof.
  revert l2. induction l1 as [|a l1 IH]; intros l2 Hp S1 S2 Hn.
  - apply Permutation_nil in Hp. now subst.
  - destruct l2 as [|b l2].
    + apply Permutation_sym, Permutation_nil in Hp. discriminate.
    + assert (Hab : a = b).
      { assert (Ha : In a (b :: l2))
          by (apply (Permutation_in _ Hp); now left).
        assert (Hb : In b (a :: l1))
          by (apply (Permutation_in _ (Permutation_sym Hp)); now left).
        destruct Ha as [Ha|Ha]; [now symmetry|].
        destruct Hb as [Hb|Hb]; [assumption|]. exfalso.
        apply StronglySorted_inv in S1, S2.
        destruct S1 as [_ S1]. destruct S2 as [_ S2].
        pose proof (proj1 (Forall_forall _ _) S1 b Hb) as H1.
        pose proof (proj1 (Forall_forall _ _) S2 a Ha) as H2.
        cbv beta in H1, H2.
        cbn [map] in Hn. apply NoDup_cons_iff in Hn. destruct Hn as [Hn _].
        apply Hn. replace (fecha a) with (fecha b) by lia.
        now apply in_map. }
      subst b. f_equal. apply IH.
      * now apply Permutation_cons_inv in Hp.
      * now apply StronglySorted_inv in S1.
      * now apply StronglySorted_inv in S2.
      * cbn [map] in Hn. now apply NoDup_cons_iff in Hn.
Qed.

(** The rows of the WHERE clause, most recent first, cut by any bounds
    that agree with those of the request, are admitted as an answer. *)
Lemma GET_inventory_serves u q d limit offset :
  denied u = false ->
  (forall l, parseInt (default (JNum 10) (q_limit q)) = JNum l ->
             0 <= l -> limit = Z.to_nat l) ->
  (forall l o, limit_offset q = Some (l, o) -> limit = l /\ offset = o) ->
  GET_inventory u q d
    (firstn limit (skipn offset (sort_by_fecha (rows_where q d)))).
Proof.
  intros Hu Hl Hb.
  apply (GET_inventory_ok u q d (where_clause q)
           (sort_by_fecha (rows_where q d)) limit offset Hu).
  - intros _ m. reflexivity.
  - apply sort_by_fecha_ordered.
  - exact Hl.
  - exact Hb.
Qed.

(** C9, as amended: whatever the query string (the route answers without
    looking at the result of its validators) and whatever the page, the
    movements of a 200 answer come most recent first (no row before a
    row of a later second) and each of them is a row of the ledger,
    which passes the filters of kind, product and dates when the kind
    is absent or one of the three kinds and the product id is absent or
    an integer.  When, with such filters, the rows that pass them carry
    different seconds and the bounds of the page are integers (page and
    limit absent or integers, or the first page with a limit of which
    [parseInt] reads the head, as [limit=1.5]), the answer is
    determined: it is the page cut out of the rows most recent first.
    Among rows of the same second no order is promised. *)
Theorem movements_most_recent_first u q d rows :
  GET_inventory u q d rows ->
  StronglySorted (fun a b => fecha b <= fecha a) rows /\
  Forall (fun r => In (row_m r) (movimientos_inventario d)) rows /\
  (filters_bind q = true ->
   Forall (fun r => where_clause q (row_m r) = true) rows) /\
  (filters_bind q = true ->
   NoDup (map fecha (rows_where q d)) ->
   forall l o, limit_offset q = Some (l, o) ->
     rows = firstn l (skipn o (sort_by_fecha (rows_where q d)))).
Proof.
  intros H.
  destruct H as [keep sorted limit offset _ Hkeep [Hperm Hsorted] _ Hb].
  split; [|split; [|split]].
  - apply StronglySorted_firstn. now apply StronglySorted_skipn.
  - apply Forall_forall. intros r Hr.
    apply In_firstn in Hr. apply In_skipn in Hr.
    apply (Permutation_in _ (Permutation_sym Hperm)) in Hr.
    now apply rows_kept_in in Hr.
  - intros Hsc. apply Forall_forall. intros r Hr.
    apply In_firstn in Hr. apply In_skipn in Hr.
    apply (Permutation_in _ (Permutation_sym Hperm)) in Hr.
    apply rows_kept_in in Hr. rewrite <- (Hkeep Hsc). tauto.
  - intros Hsc Hnd l o Hlo.
    destruct (Hb l o Hlo) as [-> ->].
    rewrite (rows_kept_ext keep (where_clause q) d (Hkeep Hsc)) in Hperm.
    fold (rows_where q d) in Hperm.
    destruct (sort_by_fecha_ordered (rows_where q d)) as [Hperm' Hsorted'].
    f_equal. f_equal.
    apply most_recent_first_unique; try assumption.
    + eapply perm_trans; [apply Permutation_sym; exact Hperm|exact Hperm'].
    + apply (Permutation_NoDup (Permutation_map fecha Hperm)). exact Hnd.
Qed.

(** The second page of one row of the three movements of the pencil,
    which carry different seconds, is the exit, the one in the middle,
    and no other answer is possible. *)
Lemma movements_most_recent_first_witness :
  GET_inventory admin segunda_pagina almacen_tres_movimientos
                [fila_en 200 2 salida 3 15 12] /\
  forall rows,
    GET_inventory admin segunda_pagina almacen_tres_movimientos rows ->
    rows = [fila_en 200 2 salida 3 15 12].
Proof.
  split.
  - apply (GET_inventory_serves admin segunda_pagina
             almacen_tres_movimientos 1 1 eq_refl).
    + intros l E _. vm_compute in E. injection E as <-. reflexivity.
    + intros l o E. injection E as <- <-. split; reflexivity.
  - intros rows H.
    destruct (movements_most_recent_first admin segunda_pagina
                almacen_tres_movimientos rows H) as (_ & _ & _ & Hdet).
    assert (Hnd : NoDup (map fecha (rows_where segunda_pagina
                                               almacen_tres_movimientos))).
    { repeat constructor; cbn; intuition discriminate. }
    rewrite (Hdet eq_refl Hnd 1%nat 1%nat eq_refl). reflexivity.
Defined.

Lemma same_second_ascending_is_admitted :
  GET_inventory admin sin_filtros almacen_dos_movimientos
                [fila 1 entrada 5 10 15; fila 2 salida 3 15 12].
Proof.
  apply (GET_inventory_ok admin sin_filtros almacen_dos_movimientos
           (where_clause sin_filtros)
           [fila 1 entrada 5 10 15; fila 2 salida 3 15 12] 10 0).
  - reflexivity.
  - intros _ m. reflexivity.
  - split.
    + apply Permutation_refl.
    + repeat constructor; discriminate.
  - intros l E _. vm_compute in E. injection E as <-. reflexivity.
  - intros l o E. injection E as <- <-. split; reflexivity.
Qed.

Lemma same_second_descending_is_admitted :
  GET_inventory admin sin_filtros almacen_dos_movimientos
                [fila 2 salida 3 15 12; fila 1 entrada 5 10 15].
Proof.
  apply (GET_inventory_ok admin sin_filtros almacen_dos_movimientos
           (where_clause sin_filtros)
           [fila 2 salida 3 15 12; fila 1 entrada 5 10 15] 10 0).
  - reflexivity.
  - intros _ m. reflexivity.
  - split.
    + apply perm_swap.
    + repeat constructor; discriminate.
  - intros l E _. vm_compute in E. injection E as <-. reflexivity.
  - intros l o E. injection E as <- <-. split; reflexivity.
Qed.

(** C9, as stated, fails: the entry and the exit of the pencil carry the
    same second; the answer that lists them lowest id first satisfies the
    route's ORDER BY as well as the one that lists them highest id
    first, and it does not break the tie by id descending. *)
Lemma tie_not_broken_by_id :
  GET_inventory admin sin_filtros almacen_dos_movimientos
                [fila 1 entrada 5 10 15; fila 2 salida 3 15 12] /\
  GET_inventory admin sin_filtros almacen_dos_movimientos
                [fila 2 salida 3 15 12; fila 1 entrada 5 10 15] /\
  ~ StronglySorted recent_then_id_desc
                   [fila 1 entrada 5 10 15; fila 2 salida 3 15 12].
Proof.
  split; [exact same_second_ascending_is_admitted|].
  split; [exact same_second_descending_is_admitted|].
  intros H. apply StronglySorted_inv in H. destruct H as [_ H].
  inversion H as [|x l Hx _]. subst.
  destruct Hx as [Hx|[_ Hx]]; discriminate Hx.
Qed.

(** * Further properties of the routes *)

(** ** Nothing is removed, no id is reused *)

Lemma map_update_where_id (B : Type) (g : producto -> B) i f ps :
  (forall p, g (f p) = g p) -> map g (update_where_id i f ps) = map g ps.
Proof.
  intros H. unfold update_where_id. rewrite map_map. apply map_ext.
  intros p. destruct (p_id p =? i); auto.
Qed.

Lemma map_update_where_id_activo (B : Type) (g : producto -> B) i f ps :
  (forall p, g (f p) = g p) ->
  map g (update_where_id_activo i f ps) = map g ps.
Proof.
  intros H. unfold update_where_id_activo. rewrite map_map. apply map_ext.
  intros p. destruct ((p_id p =? i) && activo p); auto.
Qed.

(** What one operation does to the two tables, seen from outside: the
    ledger gains at most one row, numbered by the counter, and the
    products keep their ids and codes, one being added at most, numbered
    by its counter. *)
Lemma apply_operation_grows o d :
  let d' := apply_operation o d in
  (movimientos_inventario d' = movimientos_inventario d /\
   next_movimiento_id d' = next_movimiento_id d
   \/ exists m,
       movimientos_inventario d' = (movimientos_inventario d ++ [m])%list /\
       m_id m = next_movimiento_id d /\
       next_movimiento_id d' = next_movimiento_id d + 1) /\
  (map identity (productos d') = map identity (productos d) /\
   next_producto_id d' = next_producto_id d
   \/ exists p,
       productos d' = (productos d ++ [p])%list /\
       p_id p = next_producto_id d /\
       next_producto_id d' = next_producto_id d + 1).
Proof.
  destruct o as [t f now u b|fault now_ms now u b|fault now u id b|fault now u id];
    cbn [apply_operation].
  - destruct (POST_movimiento_cases t f now u b d)
      as [(cs & r & E & ->)
         |(p & rest & created & failed & Hs & Hu & Hv & Hlt & Hc & Hf &
           [[_ ->]|(pid & c & nueva & Hp & Hc' & Hn & ->)])];
      cbn [store]; try (split; left; split; reflexivity).
    split.
    + right. eexists. split; [reflexivity|]. split; reflexivity.
    + left. split; [|reflexivity]. cbn [both_writes productos].
      apply map_update_where_id. reflexivity.
  - unfold POST_products.
    destruct (denied_products u); [split; left; split; reflexivity|].
    destruct fault; [split; left; split; reflexivity|].
    destruct (sql_int_column (pb_stock b)); [|split; left; split; reflexivity].
    cbn [snd]. split; [left; split; reflexivity|].
    right. eexists. split; [reflexivity|]. split; reflexivity.
  - unfold PUT_products.
    destruct (denied_products u); [split; left; split; reflexivity|].
    destruct fault; [split; left; split; reflexivity|].
    destruct (sql_int id); [|split; left; split; reflexivity].
    destruct (Nat.eqb _ 0); [split; left; split; reflexivity|].
    destruct (sql_int_column (pb_stock b)); [|split; left; split; reflexivity].
    cbn [snd]. split; left; (split; [|reflexivity]); [reflexivity|].
    cbn [productos]. apply map_update_where_id_activo. reflexivity.
  - unfold DELETE_products.
    destruct (denied_products u); [split; left; split; reflexivity|].
    destruct fault; [split; left; split; reflexivity|].
    destruct (sql_int id); [|split; left; split; reflexivity].
    destruct (Nat.eqb _ 0); [split; left; split; reflexivity|].
    cbn [snd]. split; left; (split; [|reflexivity]); [reflexivity|].
    cbn [productos]. apply map_update_where_id_activo. reflexivity.
Qed.

(** X1: whatever requests are served, in whatever order, no row of the
    ledger is ever changed or removed and no product is ever removed or
    given another id or code: the ledger before is a prefix of the ledger
    after, and so is the list of product ids and codes. *)
Theorem ledger_and_catalogue_only_grow ops d :
  exists ms ps,
    movimientos_inventario (run_operations ops d)
    = (movimientos_inventario d ++ ms)%list /\
    map identity (productos (run_operations ops d))
    = (map identity (productos d) ++ ps)%list.
Proof.
  unfold run_operations. revert d.
  induction ops as [|o ops IH]; intros d.
  - exists [], []. cbn. now rewrite !app_nil_r.
  - cbn [fold_left]. destruct (IH (apply_operation o d)) as (ms & ps & Hm & Hp).
    destruct (apply_operation_grows o d) as [Hl Hc].
    rewrite Hm, Hp.
    destruct Hl as [[-> _]|(m & -> & _)];
      destruct Hc as [[-> _]|(p & -> & _)];
      rewrite ?map_app, <- ?app_assoc; eexists _, _; split; reflexivity.
Qed.

Lemma StronglySorted_snoc (l : list Z) (x : Z) :
  StronglySorted Z.lt l -> Forall (fun y => y < x) l ->
  StronglySorted Z.lt (l ++ [x]).
Proof.
  induction l as [|a l IH]; intros Hs Hf; cbn.
  - repeat constructor.
  - apply StronglySorted_inv in Hs. destruct Hs as [Hs Ha].
    inversion Hf as [|? ? Hax Hf']; subst.
    constructor; [now apply IH|].
    apply Forall_app. split; [assumption|]. repeat constructor. assumption.
Qed.

Lemma operation_keeps_keys o d : keys_ok d -> keys_ok (apply_operation o d).
Proof.
  intros (Hp & Hm & Sp & Sm).
  rewrite <- (Forall_map p_id (fun i => i < next_producto_id d)) in Hp.
  rewrite <- (Forall_map m_id (fun i => i < next_movimiento_id d)) in Hm.
  destruct (apply_operation_grows o d) as [Hl Hc]. unfold keys_ok.
  rewrite <- (Forall_map p_id (fun i => i < next_producto_id _)).
  rewrite <- (Forall_map m_id (fun i => i < next_movimiento_id _)).
  assert (Ep : map p_id (productos (apply_operation o d))
               = map p_id (productos d) /\
               next_producto_id (apply_operation o d) = next_producto_id d
               \/ map p_id (productos (apply_operation o d))
                  = (map p_id (productos d) ++ [next_producto_id d])%list /\
                  next_producto_id (apply_operation o d)
                  = next_producto_id d + 1).
  { destruct Hc as [[E N]|(p & E & I & N)].
    - left. split; [|assumption].
      assert (F : forall l, map p_id l = map fst (map identity l))
        by (intros l; rewrite map_map; reflexivity).
      rewrite !F. now rewrite E.
    - right. split; [|assumption]. rewrite E, map_app. cbn. now rewrite I. }
  assert (Em : map m_id (movimientos_inventario (apply_operation o d))
               = map m_id (movimientos_inventario d) /\
               next_movimiento_id (apply_operation o d) = next_movimiento_id d
               \/ map m_id (movimientos_inventario (apply_operation o d))
                  = (map m_id (movimientos_inventario d)
                     ++ [next_movimiento_id d])%list /\
                  next_movimiento_id (apply_operation o d)
                  = next_movimiento_id d + 1).
  { destruct Hl as [[E N]|(m & E & I & N)].
    - left. split; [now rewrite E|assumption].
    - right. split; [|assumption]. rewrite E, map_app. cbn. now rewrite I. }
  clear Hl Hc.
  assert (W : forall n l, Forall (fun i => i < n) l ->
                          Forall (fun i => i < n + 1) l).
  { intros n l H. apply Forall_forall. intros x Hx.
    pose proof (proj1 (Forall_forall _ _) H x Hx) as Hlt.
    cbv beta in Hlt. lia. }
  destruct Ep as [[-> ->]|[-> ->]]; destruct Em as [[-> ->]|[-> ->]];
    repeat split; auto;
    try (apply Forall_app; split; [now apply W|repeat constructor; lia]);
    try (now apply StronglySorted_snoc).
Qed.

(** X2: ids are never reused.  If in both tables every id is below the
    table's counter and ids grow in insertion order, this is still so
    after any sequence of requests; in particular no two products and no
    two movements ever share an id. *)
Theorem keys_stay_fresh ops d :
  keys_ok d ->
  keys_ok (run_operations ops d) /\
  NoDup (map p_id (productos (run_operations ops d))) /\
  NoDup (map m_id (movimientos_inventario (run_operations ops d))).
Proof.
  intros H.
  assert (K : keys_ok (run_operations ops d)).
  { unfold run_operations. revert d H.
    induction ops as [|o ops IH]; intros d H; [exact H|].
    cbn [fold_left]. apply IH. now apply operation_keeps_keys. }
  split; [exact K|].
  destruct K as (_ & _ & Sp & Sm).
  assert (N : forall l, StronglySorted Z.lt l -> NoDup l).
  { induction l as [|a l IH]; intros S; constructor;
      apply StronglySorted_inv in S; destruct S as [S F]; auto.
    intros Hin. pose proof (proj1 (Forall_forall _ _) F a Hin) as Hlt.
    cbv beta in Hlt. lia. }
  split; apply N; assumption.
Qed.

(** From the empty tables: two pencils, an entry, an adjustment and a
    deactivation later the ids are 1, 2 and 1, 2. *)
Lemma keys_stay_fresh_witness :
  NoDup (map p_id (productos
    (run_operations
       [op_POST_products false 1700000000000 0 admin (ficha (JNum 10));
        op_POST_products false 1700000000001 0 admin (ficha (JNum 0));
        op_movimiento entrada no_faults 100 admin (pedir entrada (JNum 5));
        op_movimiento ajuste no_faults 101 admin (pedir ajuste (JNum 7));
        op_DELETE_products false 0 admin (JStr "2")]
       vacio))).
Proof.
  refine (proj1 (proj2 (keys_stay_fresh _ vacio _))).
  repeat split; constructor.
Defined.

(** ** What a movement leaves alone *)

Lemma Forall2_map_r (A : Type) (R : A -> A -> Prop) (f : A -> A) (l : list A) :
  (forall x, R x (f x)) -> Forall2 R l (map f l).
Proof. intros H. induction l; cbn; constructor; auto. Qed.

(** X3: a movement request changes nothing in the table of products but
    the stock of the product it names and the time of its last update:
    every row keeps its place, its id, code, name, description, price,
    minimum, category and active flag; a row is as it was, [updated_at]
    included, or it is a row of the product named and its [updated_at]
    is the second of the request; and no product is added. *)
Theorem movement_touches_one_stock t f now u b d :
  let o := POST_movimiento t f now u b d in
  Forall2 (fun p p' =>
             same_but_stock p p' /\
             (sql_int (body_producto_id b) <> Some (p_id p) -> p' = p) /\
             (p' = p \/ updated_at p' = now))
          (productos d) (productos (store o)) /\
  next_producto_id (store o) = next_producto_id d.
Proof.
  intros o. subst o.
  assert (Hrefl : Forall2 (fun p p' =>
             same_but_stock p p' /\
             (sql_int (body_producto_id b) <> Some (p_id p) -> p' = p) /\
             (p' = p \/ updated_at p' = now))
             (productos d) (productos d)).
  { rewrite <- (map_id (productos d)) at 2. apply Forall2_map_r.
    intros p. unfold same_but_stock. repeat split; auto. }
  destruct (POST_movimiento_cases t f now u b d)
    as [(cs & r & E & ->)
       |(p & rest & created & failed & Hs & Hu & Hv & Hlt & Hc & Hf &
         [[_ ->]|(pid & c & nueva & Hp & Hc' & Hn & ->)])];
    cbn [store]; try (split; [exact Hrefl|reflexivity]).
  split; [|reflexivity]. cbn [both_writes productos].
  unfold update_where_id. apply Forall2_map_r. intros x.
  destruct (p_id x =? pid) eqn:E.
  - apply Z.eqb_eq in E. split; [|split].
    + unfold same_but_stock. repeat split; reflexivity.
    + intros Hne. exfalso. apply Hne. now rewrite Hp, E.
    + right. reflexivity.
  - split; [unfold same_but_stock; repeat split; reflexivity|].
    split; [reflexivity|left; reflexivity].
Qed.

(** ** What the rows of the ledger say *)

Lemma movement_row_ok t f now u b d :
  Forall row_ok (movimientos_inventario d) ->
  Forall row_ok (movimientos_inventario (store (POST_movimiento t f now u b d))).
Proof.
  intros H.
  destruct (POST_movimiento_cases t f now u b d)
    as [(cs & r & E & ->)
       |(p & rest & created & failed & Hs & Hu & Hv & Hlt & Hc & Hf &
         [[_ ->]|(pid & c & nueva & Hp & Hc' & Hn & ->)])];
    cbn [store]; try assumption.
  cbn [both_writes movimientos_inventario].
  apply Forall_app. split; [assumption|]. constructor; [|constructor].
  apply inventoryValidation_nil in Hv. destruct Hv as [_ Hv].
  unfold row_ok. cbn [tipo cantidad cantidad_anterior cantidad_nueva].
  destruct t; cbn [registrada_of nueva_of] in Hc', Hn.
  - exact (isInt_bound _ _ _ Hv Hc').
  - pose proof (isInt_bound _ _ _ Hv Hc') as Hle.
    specialize (Hlt eq_refl). rewrite (js_lt_bound _ _ _ Hc') in Hlt.
    apply Z.ltb_ge in Hlt.
    unfold js_sub in Hn. rewrite (sql_int_js_Number _ _ Hc') in Hn.
    injection Hn as <-. repeat split; auto.
  - pose proof (isInt_bound _ _ _ Hv Hn) as Hle.
    unfold js_abs_diff in Hc'. rewrite (sql_int_js_Number _ _ Hn) in Hc'.
    injection Hc' as <-. split; [reflexivity|assumption].
Qed.

(** X4: every row the routes write to the ledger is consistent with
    itself, and stays so: after any sequence of requests each entry and
    each exit is of one unit at least, each exit ends at its start minus
    its quantity without going below zero, and each adjustment records
    the absolute difference between its end and its start and ends at
    one unit at least. *)
Theorem ledger_rows_stay_consistent ops d :
  Forall row_ok (movimientos_inventario d) ->
  Forall row_ok (movimientos_inventario (run_operations ops d)).
Proof.
  unfold run_operations. revert d.
  induction ops as [|o ops IH]; intros d H; [exact H|].
  cbn [fold_left]. apply IH.
  destruct o as [t f now u b|fault now_ms now u b|fault now u id b|fault now u id];
    cbn [apply_operation].
  - now apply movement_row_ok.
  - unfold POST_products.
    destruct (denied_products u); [assumption|].
    destruct fault; [assumption|].
    destruct (sql_int_column (pb_stock b)); assumption.
  - unfold PUT_products.
    destruct (denied_products u); [assumption|].
    destruct fault; [assumption|].
    destruct (sql_int id); [|assumption].
    destruct (Nat.eqb _ 0); [assumption|].
    destruct (sql_int_column (pb_stock b)); assumption.
  - unfold DELETE_products.
    destruct (denied_products u); [assumption|].
    destruct fault; [assumption|].
    destruct (sql_int id); [|assumption].
    destruct (Nat.eqb _ 0); assumption.
Qed.

(** The pencil is created with 10; 5 arrive as text, 3 leave, the stock
    is set to 7 and the price is changed: the three rows are
    consistent. *)
Lemma ledger_rows_stay_consistent_witness :
  Forall row_ok
    (movimientos_inventario
       (run_operations
          [op_POST_products false 1700000000000 0 admin (ficha (JNum 10));
           op_movimiento entrada no_faults 100 admin (pedir entrada (JStr "5"));
           op_movimiento salida no_faults 101 admin (pedir salida (JNum 3));
           op_movimiento ajuste no_faults 102 admin (pedir ajuste (JNum 7));
           op_PUT_products false 0 admin (JStr "1") (ficha (JNum 7))]
          vacio)).
Proof.
  apply ledger_rows_stay_consistent. constructor.
Defined.

(** ** Fields of the body that do not matter, or matter less than they
    seem *)

Lemma inventoryValidation_tipo b v :
  isIn ["entrada"; "salida"; "ajuste"] (body_tipo b) = true ->
  isIn ["entrada"; "salida"; "ajuste"] v = true ->
  inventoryValidation (with_body_tipo v b) = inventoryValidation b.
Proof.
  intros Hb Hv. unfold inventoryValidation.
  cbn [with_body_tipo body_producto_id body_tipo body_cantidad body_motivo].
  now rewrite Hb, Hv.
Qed.

(** X5: the kind of a movement is the route it is posted to.  The [tipo]
    of the body must be one of the three names, and that is all it is
    used for: two requests to the same route that differ only in a valid
    [tipo] get the same answer and leave the same tables. *)
Theorem body_tipo_is_ignored t f now u b v d :
  isIn ["entrada"; "salida"; "ajuste"] (body_tipo b) = true ->
  isIn ["entrada"; "salida"; "ajuste"] v = true ->
  POST_movimiento t f now u (with_body_tipo v b) d
  = POST_movimiento t f now u b d.
Proof.
  intros Hb Hv. unfold POST_movimiento. f_equal.
  pose proof (inventoryValidation_tipo b v Hb Hv) as E.
  destruct t; cbn [prepare];
    unfold entrada_prepare, salida_prepare, ajuste_prepare;
    rewrite E; reflexivity.
Qed.

(** Posted to the route of exits with [tipo] "entrada", 3 pencils leave
    all the same. *)
Lemma body_tipo_is_ignored_witness :
  POST_salida no_faults 100 admin
              (with_body_tipo (JStr "entrada") (pedir salida (JNum 3)))
              (almacen 10)
  = POST_salida no_faults 100 admin (pedir salida (JNum 3)) (almacen 10).
Proof.
  exact (body_tipo_is_ignored salida no_faults 100 admin
           (pedir salida (JNum 3)) (JStr "entrada") (almacen 10)
           eq_refl eq_refl).
Defined.

Lemma inventoryValidation_cantidad_text b s q :
  parse_int s = Some q ->
  inventoryValidation (with_body_cantidad (JStr s) b)
  = inventoryValidation (with_body_cantidad (JNum q) b).
Proof.
  intros H. unfold inventoryValidation.
  cbn [with_body_cantidad body_producto_id body_tipo body_cantidad body_motivo].
  assert (E : isInt 1 (JStr s) = isInt 1 (JNum q)).
  { now rewrite isInt_JNum, (isInt_JStr _ _ _ H). }
  rewrite E. reflexivity.
Qed.

Lemma js_Number_JStr s q : parse_int s = Some q -> js_Number (JStr s) = Some q.
Proof. intros H. now apply sql_int_js_Number. Qed.

(** The transaction of an exit or of an adjustment reads the quantity
    through its value only. *)
Lemma transaction_reads_value t f now u b s q ant d :
  t <> entrada -> parse_int s = Some q ->
  executeTransaction f now
    (queries_of t u (with_body_cantidad (JStr s) b) ant) d
  = executeTransaction f now
      (queries_of t u (with_body_cantidad (JNum q) b) ant) d.
Proof.
  intros Ht H. unfold executeTransaction, queries_of, run_statements.
  cbn [with_body_cantidad body_producto_id body_tipo body_cantidad body_motivo].
  assert (Er : sql_int (registrada_of t ant (JStr s))
               = sql_int (registrada_of t ant (JNum q))).
  { destruct t; cbn [registrada_of sql_int]; try rewrite H; try reflexivity.
    unfold js_abs_diff. now rewrite (js_Number_JStr _ _ H). }
  assert (En : sql_int (nueva_of t ant (JStr s))
               = sql_int (nueva_of t ant (JNum q))).
  { destruct t; cbn [nueva_of sql_int]; try rewrite H; try reflexivity;
      try contradiction.
    unfold js_sub. now rewrite (js_Number_JStr _ _ H). }
  unfold exec_statement. rewrite Er, En. reflexivity.
Qed.

(** X6: the routes of exit and of adjustment read a quantity sent as
    text as the number it spells: the request with the text and the
    request with the number get the same status and leave the same
    tables. *)
Theorem text_quantity_reads_as_number t f now u b s q d :
  t <> entrada -> parse_int s = Some q ->
  let o_text := POST_movimiento t f now u (with_body_cantidad (JStr s) b) d in
  let o_num := POST_movimiento t f now u (with_body_cantidad (JNum q) b) d in
  store o_text = store o_num /\
  status_of (reply o_text) = status_of (reply o_num) /\
  calls o_text = calls o_num.
Proof.
  intros Ht H o_text o_num. subst o_text o_num.
  pose proof (inventoryValidation_cantidad_text b s q H) as Ev.
  unfold POST_movimiento.
  destruct t; [contradiction| |]; cbn [prepare];
    unfold salida_prepare, ajuste_prepare; rewrite Ev;
    cbn [with_body_cantidad body_producto_id body_tipo body_cantidad body_motivo];
    (destruct (denied u); [repeat split; reflexivity|]);
    (destruct (inventoryValidation (with_body_cantidad (JNum q) b));
     [|repeat split; reflexivity]);
    (destruct (query_fault f); [repeat split; reflexivity|]);
    (destruct (SELECT_producto_activo d (body_producto_id b)) as [|p rest];
     [repeat split; reflexivity|]).
  - assert (El : js_lt (stock_actual p) (JStr s)
                 = js_lt (stock_actual p) (JNum q))
      by (unfold js_lt; now rewrite (js_Number_JStr _ _ H)).
    rewrite El.
    destruct (js_lt (stock_actual p) (JNum q)); [repeat split; reflexivity|].
    unfold complete.
    pose proof (transaction_reads_value salida f now u b s q (stock_actual p) d
                  Ht H) as Et.
    unfold queries_of in Et.
    cbn [with_body_cantidad body_producto_id body_tipo body_cantidad
         body_motivo registrada_of nueva_of] in Et.
    rewrite Et. clear Et.
    destruct (executeTransaction f now _ d); repeat split; reflexivity.
  - unfold complete.
    pose proof (transaction_reads_value ajuste f now u b s q (stock_actual p) d
                  Ht H) as Et.
    unfold queries_of in Et.
    cbn [with_body_cantidad body_producto_id body_tipo body_cantidad
         body_motivo registrada_of nueva_of] in Et.
    rewrite Et. clear Et.
    destruct (executeTransaction f now _ d); repeat split; reflexivity.
Qed.

(** An exit of "+3" from the pencil at 10 leaves what an exit of 3
    leaves. *)
Lemma text_quantity_reads_as_number_witness :
  store (POST_movimiento salida no_faults 100 admin
           (with_body_cantidad (JStr "+3") (pedir salida JUndefined))
           (almacen 10))
  = store (POST_movimiento salida no_faults 100 admin
             (with_body_cantidad (JNum 3) (pedir salida JUndefined))
             (almacen 10)).
Proof.
  refine (proj1 (text_quantity_reads_as_number salida no_faults 100 admin
                   (pedir salida JUndefined) "+3" 3 (almacen 10) _ eq_refl)).
  discriminate.
Defined.

(** ** An entry whose quantity is text *)

Lemma uint_of_string_app (a b : string) (da db : Decimal.uint) :
  NilEmpty.uint_of_string a = Some da ->
  NilEmpty.uint_of_string b = Some db ->
  NilEmpty.uint_of_string (a ++ b) = Some (digits_app da db).
Proof.
  revert da. induction a as [|c a IH]; intros da Ha Hb; cbn in *.
  - injection Ha as <-. exact Hb.
  - destruct (NilEmpty.uint_of_string a) as [da'|]; [|discriminate].
    rewrite (IH da' eq_refl Hb).
    apply uint_of_char_spec in Ha.
    repeat (destruct Ha as [[-> ->]|Ha]; [reflexivity|]).
    destruct Ha as [-> ->]. reflexivity.
Qed.

Lemma usize_digits_app (a b : Decimal.uint) :
  DecimalPos.Unsigned.usize (digits_app a b)
  = (DecimalPos.Unsigned.usize a + DecimalPos.Unsigned.usize b)%N.
Proof. induction a; cbn; rewrite ?IHa; lia. Qed.

(** A leading digit [k] weighs [k] times ten to the number of digits
    after it. *)
Lemma of_uint_acc_value (d : Decimal.uint) (k : positive) :
  N.pos (Pos.of_uint_acc d k)
  = (Pos.of_uint d + N.pos k * 10 ^ DecimalPos.Unsigned.usize d)%N.
Proof.
  rewrite DecimalPos.Unsigned.of_uint_acc_rev.
  now rewrite <- DecimalPos.Unsigned.of_uint_alt.
Qed.

Lemma of_uint_digits_app (a b : Decimal.uint) :
  Pos.of_uint (digits_app a b)
  = (Pos.of_uint a * 10 ^ DecimalPos.Unsigned.usize b + Pos.of_uint b)%N.
Proof.
  induction a; cbn [digits_app Pos.of_uint];
    rewrite ?of_uint_acc_value, ?usize_digits_app, ?IHa, ?N.pow_add_r;
    try lia.
Qed.

Lemma usize_of_string (s : string) (d : Decimal.uint) :
  NilEmpty.uint_of_string s = Some d ->
  DecimalPos.Unsigned.usize d = N.of_nat (String.length s).
Proof.
  revert d. induction s as [|c s IH]; intros d H; cbn in H.
  - injection H as <-. reflexivity.
  - destruct (NilEmpty.uint_of_string s) as [d'|]; [|discriminate].
    specialize (IH d' eq_refl). apply uint_of_char_spec in H.
    cbn [String.length].
    assert (E : N.succ (DecimalPos.Unsigned.usize d')
                = N.of_nat (S (String.length s))) by (rewrite IH; lia).
    repeat (destruct H as [[_ ->]|H]; [exact E|]).
    destruct H as [_ ->]. exact E.
Qed.

Lemma NilZero_uint_of_string (s : string) (d : Decimal.uint) :
  NilZero.uint_of_string s = Some d -> NilEmpty.uint_of_string s = Some d.
Proof. destruct s; [discriminate|auto]. Qed.

(** A run of digits is read the same with and without the rule for
    signs. *)
Lemma parse_int_digits (s : string) (q : Z) :
  parse_digits s = Some q -> parse_int s = Some q.
Proof.
  intros H. destruct s as [|c r]; [discriminate|].
  unfold parse_digits in H. cbn in H.
  destruct (NilEmpty.uint_of_string r) as [d|] eqn:E; [|discriminate].
  destruct (uint_of_char c (Some d)) as [d'|] eqn:Ec; [|discriminate].
  apply uint_of_char_spec in Ec.
  assert (Hc : parse_int (String c r) = parse_digits (String c r)).
  { repeat (destruct Ec as [[-> _]|Ec]; [reflexivity|]).
    destruct Ec as [-> _]. reflexivity. }
  rewrite Hc. unfold parse_digits. cbn. rewrite E.
  repeat (destruct Ec as [[-> ->]|Ec]; [exact H|]).
  destruct Ec as [-> ->]. exact H.
Qed.

(** The text of a stock that is not negative, followed by a run of
    digits, reads as the stock shifted left by as many decimal places as
    the run has digits, plus the run. *)
Lemma parse_int_concat_value (a : Z) (s : string) (q : Z) :
  0 <= a -> parse_digits s = Some q ->
  parse_int (string_of_Z a ++ s)
  = Some (a * 10 ^ Z.of_nat (String.length s) + q).
Proof.
  intros Ha Hs. unfold parse_digits in Hs.
  destruct (NilZero.uint_of_string s) as [ds|] eqn:Es; [|discriminate].
  cbn in Hs. injection Hs as <-.
  apply NilZero_uint_of_string in Es.
  assert (G : forall d, d <> Decimal.Nil -> Z.of_uint d = a ->
              parse_int (NilEmpty.string_of_uint d ++ s)
              = Some (a * 10 ^ Z.of_nat (String.length s) + Z.of_uint ds)).
  { intros d Hd Hv.
    destruct (string_of_uint_unsigned d s Hd) as [-> _].
    unfold parse_digits, NilZero.uint_of_string.
    destruct (NilEmpty.string_of_uint d ++ s)%string eqn:Eapp.
    - destruct d; cbn in Eapp; congruence.
    - rewrite <- Eapp.
      rewrite (uint_of_string_app _ _ d ds (NilEmpty.usu d) Es).
      cbn [option_map]. f_equal. unfold Z.of_uint in *.
      rewrite of_uint_digits_app, (usize_of_string s ds Es).
      rewrite N2Z.inj_add, N2Z.inj_mul, N2Z.inj_pow, Hv.
      rewrite nat_N_Z. reflexivity. }
  unfold string_of_Z. destruct a as [|p|p]; try lia; cbn [Z.to_int NilZero.string_of_int].
  - apply (G (Decimal.D0 Decimal.Nil)); [discriminate|reflexivity].
  - rewrite (NilZero_NilEmpty _ (to_uint_nonnil p)).
    apply G; [apply to_uint_nonnil|].
    unfold Z.of_uint. now rewrite DecimalPos.Unsigned.of_to.
Qed.

(** X7: the route of entry adds with [+] on the raw field, so a quantity
    that arrives as a run of digits is appended to the digits of the
    stock.  On an active product with stock [s >= 0], with permission, a
    valid body whose [motivo] is no array and no fault, the request is
    answered 201, the row records the quantity [q] the text spells and
    the stock read before, and both the row and the product end at
    [s * 10 ^ n + q], [n] being the number of digits sent, which is
    [s + q] only when [s = 0]. *)
Theorem entrada_text_appends_digits now u b d p rest s q :
  denied u = false -> inventoryValidation b = [] ->
  SELECT_producto_activo d (body_producto_id b) = p :: rest ->
  body_cantidad b = JStr s -> parse_digits s = Some q ->
  0 <= stock_actual p -> is_array (body_motivo b) = false ->
  let o := POST_entrada no_faults now u b d in
  let after := stock_actual p * 10 ^ Z.of_nat (String.length s) + q in
  status_of (reply o) = 201 /\
  stock_read (store o) (body_producto_id b) = Some after /\
  (exists m,
      movimientos_inventario (store o)
      = (movimientos_inventario d ++ [m])%list /\
      tipo m = entrada /\ cantidad m = q /\
      cantidad_anterior m = stock_actual p /\ cantidad_nueva m = after) /\
  (after = stock_actual p + q <-> stock_actual p = 0).
Proof.
  intros Hu Hv Hs Hc Hq Hpos Hm o after. subst o after.
  destruct (prepare_reaches entrada no_faults u b d p rest Hu Hv eq_refl Hs)
    as (created & failed & E & H201 & _); [discriminate|].
  destruct (SELECT_in _ _ _ _ Hs) as (pid & Hp & _).
  pose proof (parse_int_digits s q Hq) as Hq'.
  assert (Hr : sql_int (registrada_of entrada (stock_actual p) (body_cantidad b))
               = Some q) by (rewrite Hc; exact Hq').
  assert (Hn : sql_int (nueva_of entrada (stock_actual p) (body_cantidad b))
               = Some (stock_actual p * 10 ^ Z.of_nat (String.length s) + q)).
  { rewrite Hc. cbn [nueva_of js_add sql_int].
    now apply parse_int_concat_value. }
  unfold POST_entrada, POST_movimiento. rewrite E. unfold complete.
  rewrite (transaction_goes_through now entrada u b (stock_actual p) d pid _ _
             p rest Hp Hr Hn Hm Hs).
  cbn [reply store]. split; [assumption|]. split; [|split].
  - apply (stock_read_both_writes _ _ _ _ _ _ _ _ _ _ p rest Hp Hs).
  - eexists. split; [reflexivity|]. cbn. repeat split; reflexivity.
  - assert (Hq1 : 1 <= q).
    { apply inventoryValidation_nil in Hv. destruct Hv as [_ Hv].
      exact (isInt_bound _ _ _ Hv Hr). }
    assert (Hn1 : (0 < String.length s)%nat).
    { destruct s; [discriminate|cbn; lia]. }
    assert (Hpow : 10 <= 10 ^ Z.of_nat (String.length s)).
    { replace 10 with (10 ^ 1) at 1 by reflexivity.
      apply Z.pow_le_mono_r; lia. }
    split; intros H; nia.
Qed.

(** 5 pencils sent as the text "5" to a stock of 10 leave 105. *)
Lemma entrada_text_appends_digits_witness :
  stock_read (store (POST_entrada no_faults 100 admin
                                  (pedir entrada (JStr "5")) (almacen 10)))
             (JNum 1) = Some 105.
Proof.
  exact (proj1 (proj2 (entrada_text_appends_digits 100 admin
                         (pedir entrada (JStr "5")) (almacen 10) (lapiz 10) []
                         "5" 5 eq_refl eq_refl eq_refl eq_refl eq_refl
                         (Z.le_trans 0 1 10 Z.le_0_1 (Zle_bool_imp_le 1 10 eq_refl))
                         eq_refl))).
Defined.

(** ** The answer and the row *)

(** The [movimiento] a route builds for its 201 answer. *)
Lemma prepare_created t f u b d qs created failed :
  prepare t f u b d = Ready qs created failed ->
  exists p rest msg,
    SELECT_producto_activo d (body_producto_id b) = p :: rest /\
    created
    = json_movimiento 201 msg
        (mkMovimientoJson (parseInt (body_producto_id b)) (nombre p) t
           (match t with
            | ajuste => js_abs_diff (body_cantidad b) (stock_actual p)
            | _ => parseInt (body_cantidad b)
            end)
           (stock_actual p)
           (nueva_of t (stock_actual p) (body_cantidad b))
           (body_motivo b) (user_id u)).
Proof.
  destruct t; simpl; unfold entrada_prepare, salida_prepare, ajuste_prepare;
    (destruct (denied u); [discriminate|]);
    (destruct (inventoryValidation b); [|discriminate]);
    (destruct (query_fault f); [discriminate|]);
    (destruct (SELECT_producto_activo d (body_producto_id b)) as [|p rest];
     [discriminate|]).
  - intros [= <- <- <-]. eexists p, rest, _. split; reflexivity.
  - destruct (js_lt (stock_actual p) (body_cantidad b)); [discriminate|].
    intros [= <- <- <-]. eexists p, rest, _. split; reflexivity.
  - intros [= <- <- <-]. eexists p, rest, _. split; reflexivity.
Qed.

(** ** [parseInt] on what the validators let through *)

Lemma read_digits_all (s : string) (d : Decimal.uint) :
  NilEmpty.uint_of_string s = Some d ->
  forall acc n,
    read_digits digit_value 10 acc n s
    = (acc * 10 ^ Z.of_nat (String.length s) + Z.of_N (Pos.of_uint d),
       (n + String.length s)%nat, "").
Proof.
  revert d. induction s as [|c s IH]; intros d H acc n.
  - cbn in H. injection H as <-. cbn.
    apply f_equal2; [apply f_equal2; lia|reflexivity].
  - cbn [NilEmpty.uint_of_string] in H.
    destruct (NilEmpty.uint_of_string s) as [d'|] eqn:E; [|discriminate].
    pose proof (usize_of_string s d' E) as Hlen.
    apply uint_of_char_spec in H.
    assert (G : forall (k : Decimal.uint) (kv : Z),
               d = digits_app k d' -> digit_value c = Some kv ->
               Z.of_N (Pos.of_uint k) = kv ->
               read_digits digit_value 10 acc n (String c s)
               = (acc * 10 ^ Z.of_nat (String.length (String c s))
                  + Z.of_N (Pos.of_uint d),
                  (n + String.length (String c s))%nat, "")).
    { intros k kv -> Hd Hk. cbn [read_digits]. rewrite Hd.
      rewrite (IH d' eq_refl). rewrite of_uint_digits_app, Hlen.
      cbn [String.length].
      apply f_equal2; [apply f_equal2; [|lia]|reflexivity].
      rewrite N2Z.inj_add, N2Z.inj_mul, N2Z.inj_pow, Hk, nat_N_Z.
      change (Z.of_N 10) with 10.
      rewrite Nat2Z.inj_succ, Z.pow_succ_r by lia. ring. }
    destruct H as [[-> ->]|H];
      [apply (G (Decimal.D0 Decimal.Nil) 0); reflexivity|].
    destruct H as [[-> ->]|H];
      [apply (G (Decimal.D1 Decimal.Nil) 1); reflexivity|].
    destruct H as [[-> ->]|H];
      [apply (G (Decimal.D2 Decimal.Nil) 2); reflexivity|].
    destruct H as [[-> ->]|H];
      [apply (G (Decimal.D3 Decimal.Nil) 3); reflexivity|].
    destruct H as [[-> ->]|H];
      [apply (G (Decimal.D4 Decimal.Nil) 4); reflexivity|].
    destruct H as [[-> ->]|H];
      [apply (G (Decimal.D5 Decimal.Nil) 5); reflexivity|].
    destruct H as [[-> ->]|H];
      [apply (G (Decimal.D6 Decimal.Nil) 6); reflexivity|].
    destruct H as [[-> ->]|H];
      [apply (G (Decimal.D7 Decimal.Nil) 7); reflexivity|].
    destruct H as [[-> ->]|[-> ->]];
      [apply (G (Decimal.D8 Decimal.Nil) 8); reflexivity
      |apply (G (Decimal.D9 Decimal.Nil) 9); reflexivity].
Qed.

(** A run of digits is read whole, and starts with a digit. *)
Lemma read_digits_of_parse (s : string) (z : Z) :
  parse_digits s = Some z ->
  read_digits digit_value 10 0 0 s = (z, String.length s, "") /\
  exists c r, s = String c r /\ digit_value c <> None.
Proof.
  unfold parse_digits. intros H.
  destruct s as [|c r]; [discriminate|].
  cbn [NilZero.uint_of_string] in H.
  destruct (NilEmpty.uint_of_string (String c r)) as [d|] eqn:E;
    [|discriminate].
  injection H as <-. split.
  - rewrite (read_digits_all _ _ E). cbn [Nat.add]. unfold Z.of_uint.
    apply f_equal2; [apply f_equal2; [lia|reflexivity]|reflexivity].
  - exists c, r. split; [reflexivity|].
    cbn [NilEmpty.uint_of_string] in E.
    destruct (NilEmpty.uint_of_string r) as [d'|]; [|discriminate].
    apply uint_of_char_spec in E.
    repeat (destruct E as [[-> _]|E]; [discriminate|]).
    destruct E as [-> _]. discriminate.
Qed.

Lemma digit_is_no_space (c : ascii) :
  digit_value c <> None -> is_space c = false.
Proof.
  unfold digit_value, is_space. intros H.
  destruct ((48 <=? Z.of_N (N_of_ascii c)) && (Z.of_N (N_of_ascii c) <=? 57))
    eqn:E; [|congruence].
  apply andb_true_iff in E. destruct E as [E1 E2].
  apply Z.leb_le in E1, E2.
  apply orb_false_iff. split; [apply orb_false_iff; split|].
  - apply andb_false_iff. right. apply Z.leb_gt. lia.
  - apply Z.eqb_neq. lia.
  - apply Z.eqb_neq. lia.
Qed.

Lemma digit_is_no_sign (c : ascii) :
  digit_value c <> None -> c <> "-"%char /\ c <> "+"%char /\
  c <> "x"%char /\ c <> "X"%char.
Proof.
  intros H. repeat split; intros ->; apply H; reflexivity.
Qed.

(** After its sign an integer literal is read in base 10 to its end. *)
Lemma read_literal (r : string) (v : Z) :
  parse_digits r = Some v ->
  match r with
  | String "0" (String "x" t) | String "0" (String "X" t) =>
      read_digits hex_value 16 0 0 t
  | _ => read_digits digit_value 10 0 0 r
  end = (v, String.length r, "") /\ String.length r <> 0%nat.
Proof.
  intros Hv.
  destruct (read_digits_of_parse r v Hv) as [Hr (c & t & -> & Hc)].
  split; [|discriminate]. rewrite <- Hr.
  destruct t as [|c2 t2];
    [destruct c as [[] [] [] [] [] [] [] []]; reflexivity|].
  assert (Hc2 : digit_value c2 <> None).
  { unfold parse_digits in Hv. cbn [NilZero.uint_of_string] in Hv.
    cbn [NilEmpty.uint_of_string] in Hv.
    destruct (NilEmpty.uint_of_string t2) as [d2|]; [|discriminate].
    destruct (uint_of_char c2 (Some d2)) as [d3|] eqn:E2; [|discriminate].
    apply uint_of_char_spec in E2.
    repeat (destruct E2 as [[-> _]|E2]; [discriminate|]).
    destruct E2 as [-> _]. discriminate. }
  destruct (digit_is_no_sign c2 Hc2) as (_ & _ & Hx & HX).
  destruct c as [[] [] [] [] [] [] [] []]; try reflexivity.
  destruct c2 as [[] [] [] [] [] [] [] []]; try reflexivity; congruence.
Qed.

(** [parseInt] and the validators agree on an integer literal. *)
Lemma parseInt_text_int (s : string) (z : Z) :
  parse_int s = Some z -> parseInt_text s = Some z.
Proof.
  intros H. unfold parseInt_text.
  assert (Hcases :
    (exists r v, s = String "-" r /\ parse_digits r = Some v /\ z = - v) \/
    (exists r, s = String "+" r /\ parse_digits r = Some z) \/
    (parse_digits s = Some z /\
     exists c r, s = String c r /\ digit_value c <> None)).
  { destruct s as [|c r]; [discriminate|].
    destruct (Ascii.eqb c "-") eqn:E1.
    - apply Ascii.eqb_eq in E1. subst c. left. cbn [parse_int] in H.
      destruct (parse_digits r) as [v|] eqn:Hv; [|discriminate].
      injection H as <-. exists r, v. repeat split; [exact Hv].
    - destruct (Ascii.eqb c "+") eqn:E2.
      + apply Ascii.eqb_eq in E2. subst c. right. left. now exists r.
      + apply Ascii.eqb_neq in E1, E2. right. right.
        assert (Hp : parse_digits (String c r) = Some z).
        { destruct c as [[] [] [] [] [] [] [] []]; try exact H; congruence. }
        split; [exact Hp|].
        destruct (read_digits_of_parse _ _ Hp) as [_ (c' & r' & Hs & Hc')].
        now exists c', r'. }
  destruct Hcases as [(r & v & -> & Hv & ->)|[(r & -> & Hv)|(Hv & c & r & -> & Hc)]].
  - cbn [skip_spaces is_space]. change (is_space "-") with false. cbv iota.
    cbn [read_sign].
    destruct (read_literal r v Hv) as [-> Hn].
    destruct (String.length r); [congruence|reflexivity].
  - change (skip_spaces (String "+" r)) with (String "+" r).
    cbn [read_sign].
    destruct (read_literal r z Hv) as [-> Hn].
    destruct (String.length r); [congruence|reflexivity].
  - cbn [skip_spaces]. rewrite (digit_is_no_space c Hc).
    destruct (digit_is_no_sign c Hc) as (Hm & Hp & _).
    assert (Hs : read_sign (String c r) = (false, String c r)).
    { unfold read_sign.
      destruct c as [[] [] [] [] [] [] [] []]; try reflexivity; congruence. }
    rewrite Hs.
    destruct (read_literal _ z Hv) as [-> Hn].
    cbn [String.length Nat.eqb]. reflexivity.
Qed.

(** What binds as an integer is that integer for [parseInt]. *)
Lemma parseInt_bound (v : jsval) (z : Z) :
  sql_int v = Some z -> parseInt v = JNum z.
Proof.
  intros H. unfold parseInt.
  destruct v as [| |n|s|items]; cbn [sql_int] in H; try discriminate.
  - injection H as ->. cbn [js_String].
    now rewrite (parseInt_text_int _ _ (parse_int_string_of_Z z)).
  - cbn [js_String]. now rewrite (parseInt_text_int _ _ H).
Qed.

Lemma js_Number_parseInt v z :
  sql_int v = Some z -> js_Number (parseInt v) = Some z.
Proof. intros H. now rewrite (parseInt_bound _ _ H). Qed.

(** X8: what a 201 answer reports is what was written.  Whenever a
    movement route answers with a [movimiento], the ledger has grown by
    exactly one row, and the product id, kind, quantity, stock before,
    stock after, reason and user of the answer are those of that row,
    the numbers of the answer being read as the storage reads them. *)
Theorem reply_reports_the_row t f now u b d msg j :
  reply (POST_movimiento t f now u b d) = json_movimiento 201 msg j ->
  exists m,
    movimientos_inventario (store (POST_movimiento t f now u b d))
    = (movimientos_inventario d ++ [m])%list /\
    js_Number (j_producto_id j) = Some (producto_id m) /\
    j_producto_nombre j
    = match SELECT_producto_activo d (body_producto_id b) with
      | p :: _ => nombre p
      | [] => ""
      end /\
    j_tipo j = tipo m /\
    js_Number (j_cantidad j) = Some (cantidad m) /\
    j_cantidad_anterior j = cantidad_anterior m /\
    js_Number (j_cantidad_nueva j) = Some (cantidad_nueva m) /\
    sql_text (j_motivo j) = motivo m /\
    j_usuario_id j = usuario_id m.
Proof.
  unfold POST_movimiento.
  destruct (prepare t f u b d) as [cs r|qs created failed] eqn:E;
    cbn [complete reply store].
  - intros ->. apply prepare_replied in E. cbn in E. tauto.
  - destruct (prepare_created _ _ _ _ _ _ _ _ E) as (p & rest & msg' & Hs & Hc).
    apply prepare_ready in E.
    destruct E as (p' & rest' & _ & _ & _ & Hs' & _ & -> & _ & Hf).
    rewrite Hs in Hs'. injection Hs' as <- <-.
    destruct (executeTransaction f now _ d) as [d'|] eqn:T; cbn [reply store].
    + intros Hr. rewrite Hc in Hr. injection Hr as _ <-.
      apply transaction_commits in T.
      destruct T as (pid & c & nueva & Hp & Hc' & Hn & ->).
      eexists. split; [reflexivity|].
      cbn [j_producto_id j_producto_nombre j_tipo j_cantidad
           j_cantidad_anterior j_cantidad_nueva j_motivo j_usuario_id
           producto_id tipo cantidad cantidad_anterior cantidad_nueva
           motivo usuario_id].
      rewrite Hs.
      split; [now apply js_Number_parseInt|].
      split; [reflexivity|]. split; [reflexivity|].
      split; [|split; [reflexivity|split;
                 [exact (sql_int_js_Number _ _ Hn)|split; reflexivity]]].
      destruct t; cbn [registrada_of] in Hc';
        try exact (sql_int_js_Number _ _ Hc');
        now apply js_Number_parseInt.
    + intros Hr. rewrite Hr in Hf. discriminate Hf.
Qed.

(** The answer to an adjustment of the pencil from 10 to 7 reports
    quantity 3, before 10, after 7, as the row does. *)
Lemma reply_reports_the_row_witness :
  exists m,
    movimientos_inventario
      (store (POST_movimiento ajuste no_faults 100 admin
                (pedir ajuste (JNum 7)) (almacen 10))) = [m] /\
    cantidad m = 3 /\ cantidad_anterior m = 10 /\ cantidad_nueva m = 7.
Proof.
  destruct (reply_reports_the_row ajuste no_faults 100 admin
              (pedir ajuste (JNum 7)) (almacen 10) _ _ eq_refl)
    as (m & Hm & _ & _ & _ & Hc & Ha & Hn & _).
  exists m. split; [exact Hm|].
  cbn in Hc, Ha, Hn. injection Hc as Hc. injection Hn as Hn.
  repeat split; congruence.
Defined.

(** ** Requests that follow one another *)

Lemma same_id_same_row (ps : list producto) (x p : producto) :
  NoDup (map p_id ps) -> In x ps -> In p ps -> p_id x = p_id p -> x = p.
Proof.
  induction ps as [|a ps IH]; intros Hn Hx Hp E; [contradiction|].
  cbn in Hn. inversion Hn as [|? ? Hnot Hn']; subst.
  destruct Hx as [<-|Hx]; destruct Hp as [<-|Hp]; auto.
  - exfalso. apply Hnot. rewrite E. now apply in_map.
  - exfalso. apply Hnot. rewrite <- E. now apply in_map.
Qed.

Lemma update_where_id_twice i now1 now2 v w ps :
  update_where_id i (set_stock now2 w)
    (update_where_id i (set_stock now1 v) ps)
  = update_where_id i (set_stock now2 w) ps.
Proof.
  unfold update_where_id. rewrite map_map. apply map_ext. intros p.
  destruct (p_id p =? i) eqn:E; [|now rewrite E].
  cbn [set_stock p_id]. rewrite E. reflexivity.
Qed.

(** X9: an exit undoes an entry of the same quantity.  When a request
    sent as a number, with a [motivo] that is no array, to the route of
    entry and then, unchanged, to the route of exit is served twice
    without fault on an active product with a stock that is not
    negative and whose id no other row carries, the table of products
    is as before but for the [updated_at] of that product, which is the
    second of the exit; the stock reads what it read before; and the
    ledger has two more rows, the second going back from where the
    first arrived to where it started. *)
Theorem entrada_then_salida_restores now1 now2 u b d p rest q :
  denied u = false -> inventoryValidation b = [] ->
  body_cantidad b = JNum q -> is_array (body_motivo b) = false ->
  SELECT_producto_activo d (body_producto_id b) = p :: rest ->
  NoDup (map p_id (productos d)) -> 0 <= stock_actual p ->
  let d1 := store (POST_entrada no_faults now1 u b d) in
  let d2 := store (POST_salida no_faults now2 u b d1) in
  productos d2
  = update_where_id (p_id p) (with_updated_at now2) (productos d) /\
  stock_read d2 (body_producto_id b) = Some (stock_actual p) /\
  exists m1 m2,
    movimientos_inventario d2
    = (movimientos_inventario d ++ [m1; m2])%list /\
    tipo m1 = entrada /\ tipo m2 = salida /\
    cantidad m1 = q /\ cantidad m2 = q /\
    cantidad_anterior m1 = stock_actual p /\
    cantidad_nueva m1 = stock_actual p + q /\
    cantidad_anterior m2 = stock_actual p + q /\
    cantidad_nueva m2 = stock_actual p.
Proof.
  intros Hu Hv Hc Hm Hs Hn H0 d1 d2. subst d2 d1.
  assert (Hq : sql_int (body_cantidad b) = Some q) by (now rewrite Hc).
  assert (Hq1 : 1 <= q).
  { apply inventoryValidation_nil in Hv. destruct Hv as [_ Hi].
    exact (isInt_bound _ _ _ Hi Hq). }
  destruct (movement_commits entrada now1 u b d p rest q Hu Hv Hs Hq Hm)
    as (pid & created & Hp & _ & E1); [auto|discriminate|].
  unfold POST_entrada. rewrite E1. cbn [store].
  set (d1 := both_writes now1 entrada pid (magnitude entrada (stock_actual p) q)
               (stock_actual p) (spec_stock_after entrada (stock_actual p) q)
               (sql_text (body_motivo b)) (user_id u) d).
  assert (Hs1 : SELECT_producto_activo d1 (body_producto_id b)
                = set_stock now1 (stock_actual p + q) p
                  :: map (set_stock now1 (stock_actual p + q)) rest).
  { rewrite (SELECT_after_update d d1 _ pid now1 (stock_actual p + q) Hp)
      by reflexivity.
    now rewrite Hs. }
  destruct (movement_commits salida now2 u b d1 _ _ q Hu Hv Hs1 Hq Hm)
    as (pid' & created' & Hp' & _ & E2);
    [discriminate|intros _; cbn [set_stock stock_actual]; lia|].
  assert (pid' = pid) by congruence. subst pid'.
  destruct (SELECT_in _ _ _ _ Hs) as (i & Hi & Hin & Hid & _).
  assert (Hpid : p_id p = pid) by congruence. clear i Hi Hid.
  unfold POST_salida. rewrite E2. cbn [store]. split; [|split].
  - cbn [both_writes productos d1 spec_stock_after set_stock stock_actual].
    rewrite update_where_id_twice, Hpid.
    apply update_where_id_same. intros x Hx Hxi.
    assert (x = p) by (apply (same_id_same_row (productos d)); auto; congruence).
    subst x. lia.
  - rewrite (stock_read_both_writes _ _ _ _ _ _ _ _ _ _ _ _ Hp Hs1).
    cbn [spec_stock_after set_stock stock_actual]. f_equal. lia.
  - eexists _, _. cbn [both_writes movimientos_inventario d1].
    rewrite <- app_assoc. split; [reflexivity|].
    cbn. repeat split; lia.
Qed.

(** 5 pencils arrive and 5 leave: the pencil is at 10 again, updated at
    the second of the exit. *)
Lemma entrada_then_salida_restores_witness :
  productos
    (store (POST_salida no_faults 101 admin (pedir entrada (JNum 5))
              (store (POST_entrada no_faults 100 admin (pedir entrada (JNum 5))
                                   (almacen 10)))))
  = [with_updated_at 101 (lapiz 10)].
Proof.
  refine (proj1 (entrada_then_salida_restores 100 101 admin
                   (pedir entrada (JNum 5)) (almacen 10) (lapiz 10) [] 5
                   eq_refl eq_refl eq_refl eq_refl eq_refl _ _)).
  - repeat constructor. intros [].
  - discriminate.
Defined.

(** ** Requests for different products that overlap *)

Lemma prepare_same_rows t f u b d1 d2 :
  SELECT_producto_activo d1 (body_producto_id b)
  = SELECT_producto_activo d2 (body_producto_id b) ->
  prepare t f u b d1 = prepare t f u b d2.
Proof.
  intros E. destruct t; cbn [prepare];
    unfold entrada_prepare, salida_prepare, ajuste_prepare;
    rewrite E; reflexivity.
Qed.

Lemma SELECT_other_product d now t pid c ant nueva mot uid id :
  sql_int id <> Some pid ->
  SELECT_producto_activo (both_writes now t pid c ant nueva mot uid d) id
  = SELECT_producto_activo d id.
Proof.
  intros Hne. unfold SELECT_producto_activo.
  destruct (sql_int id) as [i|]; [|reflexivity].
  cbn [both_writes productos]. unfold update_where_id.
  induction (productos d) as [|p ps IH]; [reflexivity|].
  cbn [map filter]. rewrite IH.
  destruct (p_id p =? pid) eqn:E; [|reflexivity].
  cbn [set_stock p_id activo].
  apply Z.eqb_eq in E.
  assert (Hi : (p_id p =? i) = false).
  { apply Z.eqb_neq. intros Hi. apply Hne. congruence. }
  rewrite Hi. reflexivity.
Qed.

(** A request reads the same rows after a movement of another product
    as before it. *)
Lemma prepare_after_other_product tA fA nowA uA bA tB fB uB bB d :
  sql_int (body_producto_id bA) <> sql_int (body_producto_id bB) ->
  prepare tB fB uB bB (store (POST_movimiento tA fA nowA uA bA d))
  = prepare tB fB uB bB d.
Proof.
  intros Hne. apply prepare_same_rows.
  destruct (POST_movimiento_cases tA fA nowA uA bA d)
    as [(cs & r & E & ->)
       |(p & rest & created & failed & Hs & Hu & Hv & Hlt & Hc & Hf &
         [[_ ->]|(pid & c & nueva & Hp & Hc' & Hn & ->)])];
    cbn [store]; try reflexivity.
  apply SELECT_other_product. congruence.
Qed.

(** X10: requests for different products do not get in each other's
    way.  When two movement requests for different products have both
    read their stock before either commits, the tables and the answers
    are those of serving them one after the other, in the order in which
    they commit. *)
Theorem overlap_on_different_products tA fA nowA uA bA tB fB nowB uB bB d ans :
  sql_int (body_producto_id bA) <> sql_int (body_producto_id bB) ->
  let s0 := mkServer d [] ans in
  let oA := POST_movimiento tA fA nowA uA bA d in
  let oAB := POST_movimiento tB fB nowB uB bB (store oA) in
  let oB := POST_movimiento tB fB nowB uB bB d in
  let oBA := POST_movimiento tA fA nowA uA bA (store oB) in
  (let s := run_events [ev_arrive tA fA uA bA; ev_arrive tB fB uB bB;
                        ev_resume 0 fA nowA; ev_resume 1 fB nowB] s0 in
   tables s = store oAB /\ answers s = (ans ++ [reply oA; reply oAB])%list) /\
  (let s := run_events [ev_arrive tA fA uA bA; ev_arrive tB fB uB bB;
                        ev_resume 1 fB nowB; ev_resume 0 fA nowA] s0 in
   tables s = store oBA /\ answers s = (ans ++ [reply oB; reply oBA])%list).
Proof.
  intros Hne s0 oA oAB oB oBA. subst s0 oA oAB oB oBA.
  unfold run_events. cbn [fold_left step tables in_flight answers app take_slot].
  split.
  - fold (POST_movimiento tA fA nowA uA bA d).
    rewrite <- (prepare_after_other_product tA fA nowA uA bA tB fB uB bB d Hne).
    fold (POST_movimiento tB fB nowB uB bB
            (store (POST_movimiento tA fA nowA uA bA d))).
    rewrite <- app_assoc. split; reflexivity.
  - fold (POST_movimiento tB fB nowB uB bB d).
    rewrite <- (prepare_after_other_product tB fB nowB uB bB tA fA uA bA d)
      by (intros E; apply Hne; now symmetry).
    fold (POST_movimiento tA fA nowA uA bA
            (store (POST_movimiento tB fB nowB uB bB d))).
    rewrite <- app_assoc. split; reflexivity.
Qed.

(** 5 pencils arrive and 2 erasers leave, both requests reading before
    either commits: 15 pencils and 3 erasers, as one after the other. *)
Lemma overlap_on_different_products_witness :
  productos
    (tables (run_events
               [ev_arrive entrada no_faults admin (pedir_de 1 entrada (JNum 5));
                ev_arrive salida no_faults admin (pedir_de 2 salida (JNum 2));
                ev_resume 0 no_faults 100; ev_resume 1 no_faults 100]
               (mkServer (papeleria 10 5) [] [])))
  = [with_updated_at 100 (lapiz 15); with_updated_at 100 (goma 3)].
Proof.
  assert (H : sql_int (body_producto_id (pedir_de 1 entrada (JNum 5)))
              <> sql_int (body_producto_id (pedir_de 2 salida (JNum 2))))
    by discriminate.
  destruct (overlap_on_different_products entrada no_faults 100 admin
              (pedir_de 1 entrada (JNum 5)) salida no_faults 100 admin
              (pedir_de 2 salida (JNum 2)) (papeleria 10 5) [] H)
    as [[Ht _] _].
  rewrite Ht. reflexivity.
Defined.

(** ** Products that are retired, updated, created *)

Lemma DELETE_products_ok fault now0 u id d :
  status_of (fst (DELETE_products fault now0 u id d)) = 200 ->
  exists i,
    sql_int id = Some i /\
    count_where_id_activo i (productos d) <> 0%nat /\
    snd (DELETE_products fault now0 u id d)
    = mkDb (update_where_id_activo i (set_activo now0 false) (productos d))
           (movimientos_inventario d)
           (next_producto_id d) (next_movimiento_id d).
Proof.
  unfold DELETE_products.
  destruct (denied_products u); [discriminate|].
  destruct fault; [discriminate|].
  destruct (sql_int id) as [i|]; [|discriminate].
  destruct (Nat.eqb _ 0) eqn:E; [discriminate|].
  intros _. exists i. split; [reflexivity|].
  split; [now apply Nat.eqb_neq|reflexivity].
Qed.

Lemma no_active_row_after_delete i now0 ps :
  filter (fun p => (p_id p =? i) && activo p)
         (update_where_id_activo i (set_activo now0 false) ps) = [].
Proof.
  unfold update_where_id_activo.
  induction ps as [|p ps IH]; [reflexivity|].
  cbn [map filter]. rewrite IH.
  destruct ((p_id p =? i) && activo p) eqn:E.
  - cbn [set_activo p_id activo]. now rewrite andb_false_r.
  - now rewrite E.
Qed.

(** X11: a product that has been retired is out of reach of the
    movements.  After [DELETE /api/products/:id] has answered 200, every
    movement request for that id that has permission, a valid body and a
    read that works is answered 404 after its read, without calling its
    transaction, and changes nothing; the row of the product is still in
    the table, inactive, with the stock it had. *)
Theorem retired_product_takes_no_movement fault now0 u id d t f now u' b :
  status_of (fst (DELETE_products fault now0 u id d)) = 200 ->
  sql_int (body_producto_id b) = sql_int id ->
  denied u' = false -> inventoryValidation b = [] -> query_fault f = false ->
  let d' := snd (DELETE_products fault now0 u id d) in
  POST_movimiento t f now u' b d'
  = mkOutcome not_found d' [call_executeQuery] /\
  map identity (productos d') = map identity (productos d) /\
  map stock_actual (productos d') = map stock_actual (productos d).
Proof.
  intros H200 Hid Hu Hv Hf d'. subst d'.
  destruct (DELETE_products_ok _ _ _ _ _ H200) as (i & Hi & _ & ->).
  split; [|split].
  - assert (Hs : SELECT_producto_activo
                   (mkDb (update_where_id_activo i (set_activo now0 false)
                                                 (productos d))
                         (movimientos_inventario d)
                         (next_producto_id d) (next_movimiento_id d))
                   (body_producto_id b) = []).
    { unfold SELECT_producto_activo. rewrite Hid, Hi. cbn [productos].
      apply no_active_row_after_delete. }
    unfold POST_movimiento.
    destruct t; cbn [prepare];
      unfold entrada_prepare, salida_prepare, ajuste_prepare;
      rewrite Hu, Hv, Hf, Hs; reflexivity.
  - cbn [productos]. apply map_update_where_id_activo. reflexivity.
  - cbn [productos]. apply map_update_where_id_activo. reflexivity.
Qed.

(** The pencil is retired; an entry of 5 pencils is then answered
    404. *)
Lemma retired_product_takes_no_movement_witness :
  status_of
    (reply (POST_movimiento entrada no_faults 100 admin
              (pedir entrada (JNum 5))
              (snd (DELETE_products false 0 admin (JStr "1") (almacen 10)))))
  = 404.
Proof.
  rewrite (proj1 (retired_product_takes_no_movement false 0 admin (JStr "1")
                    (almacen 10) entrada no_faults 100 admin
                    (pedir entrada (JNum 5))
                    eq_refl eq_refl eq_refl eq_refl eq_refl)).
  reflexivity.
Defined.

(** X12: a product can be retired only once, and a retired product can
    no longer be updated.  After [DELETE /api/products/:id] has answered
    200, a second [DELETE] and any [PUT] for that id made with
    permission and without fault are answered 404 and change nothing. *)
Theorem retired_product_is_gone fault now0 u id d now1 now2 u' id' b :
  status_of (fst (DELETE_products fault now0 u id d)) = 200 ->
  sql_int id' = sql_int id -> denied_products u' = false ->
  let d' := snd (DELETE_products fault now0 u id d) in
  DELETE_products false now1 u' id' d'
  = (json_error 404 "Producto no encontrado"
                "El producto no existe o ya fue eliminado", d') /\
  PUT_products false now2 u' id' b d'
  = (json_error 404 "Producto no encontrado"
                "El producto no existe o ya fue eliminado", d').
Proof.
  intros H200 Hid Hu d'. subst d'.
  destruct (DELETE_products_ok _ _ _ _ _ H200) as (i & Hi & _ & ->).
  assert (Hc : count_where_id_activo i
                 (update_where_id_activo i (set_activo now0 false) (productos d))
               = 0%nat).
  { unfold count_where_id_activo. now rewrite no_active_row_after_delete. }
  unfold DELETE_products, PUT_products.
  rewrite Hu, Hid, Hi. cbn [productos]. rewrite Hc. cbn [Nat.eqb].
  split; reflexivity.
Qed.

(** Retiring the pencil a second time is answered 404. *)
Lemma retired_product_is_gone_witness :
  status_of
    (fst (DELETE_products false 0 admin (JStr "1")
            (snd (DELETE_products false 0 admin (JStr "1") (almacen 10)))))
  = 404.
Proof.
  rewrite (proj1 (retired_product_is_gone false 0 admin (JStr "1") (almacen 10)
                    0 0 admin (JStr "1") (ficha (JNum 3))
                    eq_refl eq_refl eq_refl)).
  reflexivity.
Defined.

Lemma update_where_id_activo_twice i b v now1 now2 ps :
  update_where_id_activo i (set_columns b v now2)
    (update_where_id_activo i (set_columns b v now1) ps)
  = update_where_id_activo i (set_columns b v now2) ps.
Proof.
  unfold update_where_id_activo. rewrite map_map. apply map_ext. intros p.
  destruct ((p_id p =? i) && activo p) eqn:E; [|now rewrite E].
  cbn [set_columns p_id activo]. now rewrite E.
Qed.

Lemma count_after_update i f ps :
  (forall p, p_id (f p) = p_id p /\ activo (f p) = activo p) ->
  count_where_id_activo i (update_where_id_activo i f ps)
  = count_where_id_activo i ps.
Proof.
  intros H. unfold count_where_id_activo, update_where_id_activo.
  induction ps as [|p ps IH]; [reflexivity|].
  cbn [map filter].
  destruct ((p_id p =? i) && activo p) eqn:E.
  - destruct (H p) as [-> ->]. rewrite E. cbn [List.length]. now rewrite IH.
  - rewrite E. exact IH.
Qed.

(** X13: repeating a product update changes nothing but the time of the
    last update.  The same [PUT] served a second time, at second
    [now2], right after the first gets the answer the first got and
    leaves the tables that this one [PUT] alone, served at [now2],
    would have left; served within the same second it leaves the tables
    exactly as the first left them. *)
Theorem PUT_products_twice fault now1 now2 u id b d :
  let r1 := PUT_products fault now1 u id b d in
  PUT_products fault now2 u id b (snd r1) = PUT_products fault now2 u id b d /\
  fst (PUT_products fault now2 u id b (snd r1)) = fst r1 /\
  (now2 = now1 -> PUT_products fault now2 u id b (snd r1) = r1).
Proof.
  intros r1. subst r1.
  assert (H : PUT_products fault now2 u id b
                (snd (PUT_products fault now1 u id b d))
              = PUT_products fault now2 u id b d).
  { unfold PUT_products.
    destruct (denied_products u); [reflexivity|].
    destruct fault; [reflexivity|].
    destruct (sql_int id) as [i|]; [|reflexivity].
    destruct (Nat.eqb (count_where_id_activo i (productos d)) 0) eqn:Hc;
      cbn [snd]; [now rewrite Hc|].
    destruct (sql_int_column (pb_stock b)) as [v|]; cbn [snd];
      [|now rewrite Hc].
    cbn [productos movimientos_inventario next_producto_id next_movimiento_id].
    rewrite count_after_update by (intros p; split; reflexivity).
    rewrite Hc. now rewrite update_where_id_activo_twice. }
  split; [exact H|]. split.
  - rewrite H. unfold PUT_products.
    destruct (denied_products u); [reflexivity|].
    destruct fault; [reflexivity|].
    destruct (sql_int id) as [i|]; [|reflexivity].
    destruct (Nat.eqb _ 0); [reflexivity|].
    destruct (sql_int_column (pb_stock b)); reflexivity.
  - intros ->. exact H.
Qed.

(** The pencil is given stock 3 at second 50 and again at second 60:
    the second update leaves what one update at second 60 leaves. *)
Lemma PUT_products_twice_witness :
  productos
    (snd (PUT_products false 60 admin (JStr "1") (ficha (JNum 3))
            (snd (PUT_products false 50 admin (JStr "1") (ficha (JNum 3))
                               (almacen 10)))))
  = [with_updated_at 60 (lapiz 3)].
Proof.
  rewrite (proj1 (PUT_products_twice false 50 60 admin (JStr "1")
                    (ficha (JNum 3)) (almacen 10))).
  reflexivity.
Defined.

Lemma filter_none (A : Type) (g : A -> bool) (l : list A) :
  (forall x, In x l -> g x = false) -> filter g l = [].
Proof.
  induction l as [|a l IH]; intros H; [reflexivity|].
  cbn. rewrite (H a (or_introl eq_refl)). apply IH.
  intros x Hx. apply H. now right.
Qed.

(** X14: a product that has just been created can be read back.  When
    ids are fresh, a [POST /api/products] made with permission, without
    fault and with a stock that the engine stores as [v] (an integer, or
    text it rounds to [v]) is answered 200 and adds one active row
    numbered by the counter; a movement request for that id then reads
    stock [v], requests for other ids read what they read before, and
    the ledger is untouched. *)
Theorem created_product_is_read_back now_ms now u b d v :
  keys_ok d -> denied_products u = false ->
  sql_int_column (pb_stock b) = Some v ->
  let r := POST_products false now_ms now u b d in
  status_of (fst r) = 200 /\
  stock_read (snd r) (JNum (next_producto_id d)) = Some v /\
  (forall id, sql_int id <> Some (next_producto_id d) ->
              SELECT_producto_activo (snd r) id = SELECT_producto_activo d id) /\
  movimientos_inventario (snd r) = movimientos_inventario d.
Proof.
  intros (Hk & _) Hu Hv r. subst r. unfold POST_products. rewrite Hu, Hv.
  cbn [fst snd status_of]. split; [reflexivity|].
  split; [|split; [|reflexivity]].
  - unfold stock_read, SELECT_producto_activo. cbn [sql_int productos].
    rewrite filter_app. rewrite filter_none.
    + cbn. rewrite Z.eqb_refl. reflexivity.
    + intros x Hx. pose proof (proj1 (Forall_forall _ _) Hk x Hx) as Hlt.
      cbv beta in Hlt. apply andb_false_iff. left. apply Z.eqb_neq. lia.
  - intros id Hne. unfold SELECT_producto_activo.
    destruct (sql_int id) as [i|]; [|reflexivity].
    cbn [productos]. rewrite filter_app. cbn [filter p_id activo].
    assert (E : (next_producto_id d =? i) = false).
    { apply Z.eqb_neq. intros E. apply Hne. now rewrite E. }
    rewrite E. cbn. apply app_nil_r.
Qed.

(** On the empty tables the pencil created with 10 is read back with
    10. *)
Lemma created_product_is_read_back_witness :
  stock_read
    (snd (POST_products false 1700000000000 0 admin (ficha (JNum 10)) vacio))
    (JNum 1) = Some 10.
Proof.
  refine (proj1 (proj2 (created_product_is_read_back 1700000000000 0 admin
                          (ficha (JNum 10)) vacio 10 _ eq_refl eq_refl))).
  repeat split; constructor.
Defined.

(** ** Reading a movement back *)

Lemma flat_map_singleton (A B : Type) (g : A -> list B) (a : A) :
  flat_map g [a] = g a.
Proof. cbn. apply app_nil_r. Qed.

(** X15: a movement that has been committed can be read back by its id.
    When ids are fresh and a movement route answers 201, the row it
    appended carries the id the counter held, and [GET
    /api/inventory/:id] with that id returns that row; an id the counter
    has not reached yet is answered 404. *)
Theorem committed_movement_is_read_back t f now u b d u' :
  keys_ok d -> denied u' = false ->
  status_of (reply (POST_movimiento t f now u b d)) = 201 ->
  let d' := store (POST_movimiento t f now u b d) in
  (exists m det,
      movimientos_inventario d' = (movimientos_inventario d ++ [m])%list /\
      m_id m = next_movimiento_id d /\
      GET_movimiento false u' (JNum (next_movimiento_id d)) d' = inr det /\
      det_m det = m) /\
  (forall i, next_movimiento_id d' <= i ->
             GET_movimiento false u' (JNum i) d'
             = inl (json_error 404 "Movimiento no encontrado"
                               "El movimiento solicitado no existe")).
Proof.
  intros Hk Hu H201 d'. subst d'.
  assert (Hold : forall i, next_movimiento_id d <= i ->
                 filter (fun m => m_id m =? i) (movimientos_inventario d) = []).
  { intros i Hi. apply filter_none. intros x Hx.
    destruct Hk as (_ & Hm & _).
    pose proof (proj1 (Forall_forall _ _) Hm x Hx) as Hlt. cbv beta in Hlt.
    apply Z.eqb_neq. lia. }
  destruct (POST_movimiento_cases t f now u b d)
    as [(cs & r & E & R)
       |(p & rest & created & failed & Hs & _ & _ & _ & Hc & Hf &
         [[_ R]|(pid & c & nueva & Hp & Hc' & Hn & R)])];
    rewrite R in *; cbn [reply store] in *.
  - apply prepare_replied in E. tauto.
  - congruence.
  - clear R. split.
    + assert (Hp' : In p (productos d) /\ p_id p = pid).
      { destruct (SELECT_in _ _ _ _ Hs) as (i & Hi & Hin & Hid & _).
        split; [assumption|congruence]. }
      destruct Hp' as [Hin Hid].
      assert (Hrow : exists x xs,
                 filter (fun q => p_id q =? pid)
                        (update_where_id pid (set_stock now nueva)
                                         (productos d)) = x :: xs).
      { destruct (filter (fun q => p_id q =? pid)
                    (update_where_id pid (set_stock now nueva)
                                     (productos d))) as [|x xs] eqn:F.
        - exfalso.
          assert (Hin' : In (set_stock now nueva p)
                            (update_where_id pid (set_stock now nueva)
                                             (productos d))).
          { unfold update_where_id. apply in_map_iff. exists p.
            split; [|assumption].
            rewrite Hid, Z.eqb_refl. reflexivity. }
          assert (Hf' : In (set_stock now nueva p) []).
          { rewrite <- F. apply filter_In. split; [assumption|].
            cbn. rewrite Hid. apply Z.eqb_refl. }
          contradiction.
        - eauto. }
      destruct Hrow as (x & xs & Hx).
      eexists _, (mkDetail _ (nombre x) (codigo x)).
      split; [reflexivity|]. split; [reflexivity|]. split; [|reflexivity].
      unfold GET_movimiento. rewrite Hu.
      unfold SELECT_movimiento. cbn [sql_int both_writes movimientos_inventario
                                      productos].
      rewrite filter_app, (Hold _ (Z.le_refl _)).
      cbn [filter m_id app]. rewrite Z.eqb_refl.
      rewrite flat_map_singleton. cbn [producto_id]. rewrite Hx. reflexivity.
    + intros i Hi. cbn [both_writes next_movimiento_id] in Hi.
      unfold GET_movimiento. rewrite Hu.
      unfold SELECT_movimiento. cbn [sql_int both_writes movimientos_inventario
                                      productos].
      rewrite filter_app, (Hold i) by lia.
      cbn [filter m_id app].
      assert (E : (next_movimiento_id d =? i) = false)
        by (apply Z.eqb_neq; lia).
      rewrite E. reflexivity.
Qed.

(** The entry of 5 pencils is movement 1, and movement 1 is read back
    as that entry. *)
Lemma committed_movement_is_read_back_witness :
  exists det,
    GET_movimiento false admin (JNum 1)
      (store (POST_movimiento entrada no_faults 100 admin
                (pedir entrada (JNum 5)) (almacen 10))) = inr det /\
    det_m det = mkMovimiento 1 1 entrada 5 10 15 None 7 100.
Proof.
  assert (K : keys_ok (almacen 10)).
  { repeat split; repeat constructor. }
  destruct (committed_movement_is_read_back entrada no_faults 100 admin
              (pedir entrada (JNum 5)) (almacen 10) admin K eq_refl eq_refl)
    as [(m & det & Hm & _ & Hg & Hd) _].
  exists det. split; [exact Hg|].
  rewrite Hd. cbn in Hm. injection Hm as <-. reflexivity.
Defined.

(** ** Pages of the movement list *)

(** X16: a page holds [limit] rows at most.  Every 200 answer of [GET
    /api/inventory] carries [parseInt(limit)] rows at most, whatever the
    text of [limit] (the route answers without looking at the result of
    its validators), and 10 at most when no limit is given.  When the
    bounds of the page are integers (page and limit absent or integers,
    or the first page with a limit of which [parseInt] reads the head)
    and the filters bind, it carries exactly as many rows as are
    left after its offset among the rows that pass the filters, and
    none when the offset is past the last row. *)
Theorem page_holds_limit_rows u q d rows :
  GET_inventory u q d rows ->
  (forall l, parseInt (default (JNum 10) (q_limit q)) = JNum l -> 0 <= l ->
             (List.length rows <= Z.to_nat l)%nat) /\
  (q_limit q = JUndefined -> (List.length rows <= 10)%nat) /\
  (filters_bind q = true ->
   forall limit offset, limit_offset q = Some (limit, offset) ->
     let total := List.length (rows_where q d) in
     List.length rows = Nat.min limit (total - offset) /\
     (total <= offset -> rows = [])%nat).
Proof.
  intros H.
  destruct H as [keep sorted limit offset _ Hkeep [Hperm _] Hl Hlo].
  assert (Hcap : forall l,
             parseInt (default (JNum 10) (q_limit q)) = JNum l -> 0 <= l ->
             (List.length (firstn limit (skipn offset sorted))
              <= Z.to_nat l)%nat).
  { intros l E Hl0. rewrite <- (Hl l E Hl0). apply firstn_le_length. }
  split; [exact Hcap|split].
  - intros E. apply (Hcap 10); [now rewrite E|lia].
  - intros Hsc l o E total. subst total.
    destruct (Hlo l o E) as [-> ->].
    rewrite (rows_kept_ext keep (where_clause q) d (Hkeep Hsc)) in Hperm.
    fold (rows_where q d) in Hperm.
    rewrite (Permutation_length Hperm).
    split; [now rewrite length_firstn, length_skipn|].
    intros Hle. apply length_zero_iff_nil.
    rewrite length_firstn, length_skipn. lia.
Qed.

(** Asked with [limit=1.5], the two movements of the pencil are answered
    with one row exactly. *)
Lemma page_holds_limit_rows_witness :
  GET_inventory admin
    (mkQuery JUndefined (JStr "1.5") JUndefined JUndefined None None)
    almacen_dos_movimientos [fila 2 salida 3 15 12] /\
  forall rows,
    GET_inventory admin
      (mkQuery JUndefined (JStr "1.5") JUndefined JUndefined None None)
      almacen_dos_movimientos rows ->
    List.length rows = 1%nat.
Proof.
  split.
  - apply (GET_inventory_ok admin
             (mkQuery JUndefined (JStr "1.5") JUndefined JUndefined None None)
             almacen_dos_movimientos
             (where_clause
                (mkQuery JUndefined (JStr "1.5") JUndefined JUndefined
                         None None))
             [fila 2 salida 3 15 12; fila 1 entrada 5 10 15] 1 0).
    + reflexivity.
    + intros _ m. reflexivity.
    + split; [apply perm_swap|repeat constructor; discriminate].
    + intros l E _. vm_compute in E. injection E as <-. reflexivity.
    + intros l o E. vm_compute in E. injection E as <- <-.
      split; reflexivity.
  - intros rows H.
    destruct (page_holds_limit_rows _ _ _ _ H) as (_ & _ & Hexact).
    exact (proj1 (Hexact eq_refl 1%nat 0%nat eq_refl)).
Defined.

Lemma firstn_skipn_add (A : Type) (a b : nat) (s : list A) :
  (firstn a s ++ firstn b (skipn a s))%list = firstn (a + b) s.
Proof.
  revert s. induction a as [|a IH]; intros s; [reflexivity|].
  destruct s as [|x s]; cbn.
  - now rewrite firstn_nil.
  - now rewrite IH.
Qed.

Lemma concat_of_pages (A : Type) (n l : nat) (s : list A) :
  List.concat (map (fun k => firstn l (skipn (k * l) s)) (seq 0 n))
  = firstn (n * l) s.
Proof.
  induction n as [|n IH]; [reflexivity|].
  rewrite seq_S, map_app, concat_app, IH. cbn [map List.concat Nat.add].
  rewrite app_nil_r, firstn_skipn_add. f_equal. lia.
Qed.

Lemma page_of_with_page (k : nat) (l : Z) q sorted :
  1 <= l ->
  page_of (with_page (Z.of_nat k + 1) l q) sorted
  = Some (firstn (Z.to_nat l) (skipn (k * Z.to_nat l) sorted)).
Proof.
  intros Hl. unfold page_of, limit_offset.
  cbn [with_page q_page q_limit default].
  rewrite (parseInt_bound (JNum l) l eq_refl). cbn [js_offset js_Number].
  replace (Z.of_nat k + 1 - 1) with (Z.of_nat k) by lia.
  assert (E : (0 <=? l) && (0 <=? Z.of_nat k * l) = true).
  { apply andb_true_iff. split; apply Z.leb_le; nia. }
  rewrite E. do 3 f_equal. rewrite Z2Nat.inj_mul by lia.
  now rewrite Nat2Z.id.
Qed.

(** X17: the pages of one ordering cover it exactly.  For a page size
    [l >= 1], the answer announces [pages = ceil(total / l)], the least
    number of pages of that size that hold [total] rows; and cutting
    pages 1 to [pages] out of one and the same ordering of the rows and
    putting them end to end gives back every row once, in order. *)
Theorem pages_cover_the_rows q d l sorted :
  1 <= l ->
  List.length sorted = List.length (rows_where q d) ->
  exists n : nat,
    pg_pages (pagination_of (with_page 1 l q) d) = Some (Z.of_nat n) /\
    Z.of_nat (List.length sorted) <= Z.of_nat n * l /\
    (Z.of_nat n - 1) * l < Z.of_nat (List.length sorted) /\
    List.concat (map (fun k =>
                   match page_of (with_page (Z.of_nat k + 1) l q) sorted with
                   | Some rows => rows
                   | None => []
                   end) (seq 0 n)) = sorted.
Proof.
  intros Hl Hlen.
  set (total := Z.of_nat (List.length sorted)).
  assert (Hdiv : 0 <= - (- total / l) /\ total <= - (- total / l) * l /\
                 (- (- total / l) - 1) * l < total).
  { pose proof (Z.div_mod (- total) l ltac:(lia)) as Hdm.
    pose proof (Z.mod_pos_bound (- total) l ltac:(lia)) as Hb.
    assert (0 <= total) by (subst total; lia). nia. }
  destruct Hdiv as (H0 & Hup & Hlow).
  exists (Z.to_nat (- (- total / l))). rewrite Z2Nat.id by assumption.
  split; [|split; [assumption|split; [assumption|]]].
  - unfold pagination_of. cbn [pg_pages with_page q_limit default js_Number].
    unfold ceil_div.
    assert (E : (l =? 0) = false) by (apply Z.eqb_neq; lia).
    rewrite E. do 3 f_equal. unfold total. now rewrite Hlen.
  - rewrite (map_ext _ (fun k => firstn (Z.to_nat l)
                                   (skipn (k * Z.to_nat l) sorted))).
    + rewrite concat_of_pages. apply firstn_all2.
      apply Nat2Z.inj_le. rewrite Nat2Z.inj_mul, !Z2Nat.id by lia.
      exact Hup.
    + intros k. now rewrite page_of_with_page.
Qed.

(** The two movements of the pencil, one per page: the pages put end to
    end are the two movements. *)
Lemma pages_cover_the_rows_witness :
  exists n : nat,
    pg_pages (pagination_of (with_page 1 1 sin_filtros)
                            almacen_dos_movimientos) = Some (Z.of_nat n) /\
    List.concat
      (map (fun k =>
              match page_of (with_page (Z.of_nat k + 1) 1 sin_filtros)
                            [fila 2 salida 3 15 12; fila 1 entrada 5 10 15]
              with
              | Some rows => rows
              | None => []
              end) (seq 0 n))
    = [fila 2 salida 3 15 12; fila 1 entrada 5 10 15].
Proof.
  destruct (pages_cover_the_rows sin_filtros almacen_dos_movimientos 1
              [fila 2 salida 3 15 12; fila 1 entrada 5 10 15]
              (Z.le_refl 1) eq_refl)
    as (n & Hp & _ & _ & Hc).
  exists n. split; assumption.
Defined.

(** ** The low-stock list and the figures of the summary *)

Lemma stock_bajo_rows_spec cats d r :
  In r (stock_bajo_rows cats d) <->
  In (low_p r) (productos d) /\ activo (low_p r) = true /\
  stock_actual (low_p r) <= stock_minimo (low_p r) /\
  exists c, In c cats /\ c_id c = categoria_id (low_p r) /\
            categoria_nombre r = c_nombre c.
Proof.
  unfold stock_bajo_rows. rewrite in_flat_map. split.
  - intros (p & Hp & Hr). apply filter_In in Hp. destruct Hp as [Hin Hw].
    apply in_map_iff in Hr. destruct Hr as (c & <- & Hc).
    apply filter_In in Hc. destruct Hc as [Hc Hid].
    unfold stock_bajo_where in Hw. apply andb_true_iff in Hw.
    destruct Hw as [Ha Hle]. cbn [low_p categoria_nombre].
    repeat split; auto; [now apply Z.leb_le|].
    exists c. repeat split; auto. now apply Z.eqb_eq.
  - intros (Hin & Ha & Hle & c & Hc & Hid & Hn).
    exists (low_p r). split.
    + apply filter_In. split; [assumption|].
      unfold stock_bajo_where. rewrite Ha. now apply Z.leb_le.
    + apply in_map_iff. exists c. split.
      * destruct r as [p n]. cbn in *. now rewrite Hn.
      * apply filter_In. split; [assumption|now apply Z.eqb_eq].
Qed.

(** X18: the low-stock list is exact and ordered by need.  A 200 answer
    of [GET /api/inventory/stock-bajo] lists, with their category, the
    active products whose stock is at or below their minimum and no
    others; [total] is the number of rows; and no row comes before a row
    with a larger deficit (minimum minus stock). *)
Theorem stock_bajo_is_exact_and_ordered collate u cats d rows total :
  GET_stock_bajo collate u cats d rows total ->
  total = List.length rows /\
  (forall r, In r rows <->
     In (low_p r) (productos d) /\ activo (low_p r) = true /\
     stock_actual (low_p r) <= stock_minimo (low_p r) /\
     exists c, In c cats /\ c_id c = categoria_id (low_p r) /\
               categoria_nombre r = c_nombre c) /\
  StronglySorted (fun a b => deficit b <= deficit a) rows.
Proof.
  intros H. destruct H as [sorted _ [Hperm Hsorted]].
  split; [reflexivity|]. split.
  - intros r. rewrite <- stock_bajo_rows_spec. split; intros Hr.
    + now apply (Permutation_in _ (Permutation_sym Hperm)).
    + now apply (Permutation_in _ Hperm).
  - clear Hperm. induction Hsorted as [|a l Hl IH Ha]; constructor; auto.
    apply Forall_forall. intros x Hx.
    pose proof (proj1 (Forall_forall _ _) Ha x Hx) as Hr. cbv beta in Hr.
    lia.
Qed.

(** Scenario C: the pencil (7 of 10, deficit 3) is listed ahead of the
    notebook (9 of 10, deficit 1), although the notebook comes first in
    the table. *)
Lemma stock_bajo_is_exact_and_ordered_witness :
  GET_stock_bajo (fun _ _ => True) admin oficina escenario_C
    [mkLow (lapiz 7) "Oficina"; mkLow (cuaderno 9) "Oficina"] 2 /\
  StronglySorted (fun a b => deficit b <= deficit a)
    [mkLow (lapiz 7) "Oficina"; mkLow (cuaderno 9) "Oficina"].
Proof.
  assert (G : GET_stock_bajo (fun _ _ => True) admin oficina escenario_C
                [mkLow (lapiz 7) "Oficina"; mkLow (cuaderno 9) "Oficina"] 2).
  { apply (GET_stock_bajo_ok (fun _ _ => True) admin oficina escenario_C
             [mkLow (lapiz 7) "Oficina"; mkLow (cuaderno 9) "Oficina"]).
    - reflexivity.
    - split.
      + apply perm_swap.
      + repeat constructor. }
  split; [exact G|].
  exact (proj2 (proj2 (stock_bajo_is_exact_and_ordered _ _ _ _ _ _ G))).
Defined.

(** X19: the figures of the summary agree with each other and with the
    low-stock list.  Over the active products: the products low on stock
    and the products out of stock are no more than the products; when no
    minimum is negative, the products out of stock are among the
    products low on stock; the stock total has no value exactly when
    there is no active product; and when every product has exactly one
    category row, the number of products low on stock is the number of
    rows of the low-stock list. *)
Theorem resumen_figures_agree cats d :
  let r := resumen_stats d in
  (productos_stock_bajo r <= total_productos r)%nat /\
  (productos_sin_stock r <= total_productos r)%nat /\
  (Forall (fun p => activo p = true -> 0 <= stock_minimo p) (productos d) ->
   (productos_sin_stock r <= productos_stock_bajo r)%nat) /\
  (stock_total r = None <-> total_productos r = 0%nat) /\
  (Forall (fun p => List.length (filter (fun c => c_id c =? categoria_id p)
                                        cats) = 1%nat) (productos d) ->
   List.length (stock_bajo_rows cats d) = productos_stock_bajo r).
Proof.
  intros r. subst r. unfold resumen_stats.
  cbn [total_productos stock_total productos_stock_bajo productos_sin_stock].
  split; [apply filter_length_le|]. split; [apply filter_length_le|].
  split; [|split].
  - intros Hmin. induction (productos d) as [|p ps IH]; [apply Nat.le_refl|].
    inversion Hmin as [|? ? Hp Hps]; subst. specialize (IH Hps).
    cbn [filter]. destruct (activo p); [|exact IH].
    specialize (Hp eq_refl). cbn [filter].
    destruct (stock_actual p =? 0) eqn:E0.
    + apply Z.eqb_eq in E0.
      assert (El : (stock_actual p <=? stock_minimo p) = true)
        by (apply Z.leb_le; lia).
      rewrite El. cbn [List.length]. lia.
    + destruct (stock_actual p <=? stock_minimo p); cbn [List.length]; lia.
  - unfold SUM. destruct (filter activo (productos d)); cbn; split;
      intros H; (reflexivity || discriminate).
  - intros Hcat. unfold stock_bajo_rows.
    induction (productos d) as [|p ps IH]; [reflexivity|].
    inversion Hcat as [|? ? Hp Hps]; subst. specialize (IH Hps).
    cbn [filter]. unfold stock_bajo_where at 1.
    destruct (activo p); cbn [andb]; [|exact IH].
    cbn [filter].
    destruct (stock_actual p <=? stock_minimo p); [|exact IH].
    cbn [flat_map List.length]. rewrite length_app, length_map, Hp, IH.
    reflexivity.
Qed.

Lemma filter_activo_update i now v ps :
  filter activo (update_where_id i (set_stock now v) ps)
  = update_where_id i (set_stock now v) (filter activo ps).
Proof.
  unfold update_where_id. induction ps as [|p ps IH]; [reflexivity|].
  cbn [map filter]. rewrite IH.
  destruct (p_id p =? i) eqn:E; cbn [set_stock activo];
    destruct (activo p); cbn [map]; rewrite ?E; reflexivity.
Qed.

Lemma NoDup_ids_filter (g : producto -> bool) ps :
  NoDup (map p_id ps) -> NoDup (map p_id (filter g ps)).
Proof.
  induction ps as [|p ps IH]; intros H; [constructor|].
  cbn in H. inversion H as [|? ? Hnot Hn]; subst. cbn [filter].
  destruct (g p); [|now apply IH].
  cbn. constructor; [|now apply IH].
  intros Hin. apply Hnot. apply in_map_iff in Hin.
  destruct Hin as (x & Hx & Hin). apply filter_In in Hin.
  apply in_map_iff. exists x. tauto.
Qed.

(** Overwriting the stock of the one row with id [i] moves the sum of a
    column by what the column gains on that row. *)
Lemma sum_after_update (g : producto -> Z) i now v l p :
  NoDup (map p_id l) -> In p l -> p_id p = i ->
  fold_right Z.add 0 (map g (update_where_id i (set_stock now v) l))
  = fold_right Z.add 0 (map g l) - g p + g (set_stock now v p).
Proof.
  unfold update_where_id.
  induction l as [|a l IH]; intros Hn Hin Hid; [contradiction|].
  cbn in Hn. inversion Hn as [|? ? Hnot Hn']; subst.
  cbn [map fold_right]. destruct Hin as [->|Hin].
  - rewrite Z.eqb_refl.
    assert (E : map (fun x => if p_id x =? p_id p
                              then set_stock now v x else x) l = l).
    { rewrite <- (map_id l) at 2. apply map_ext_in. intros x Hx.
      destruct (p_id x =? p_id p) eqn:Ex; [|reflexivity].
      exfalso. apply Hnot. apply Z.eqb_eq in Ex. rewrite <- Ex.
      now apply in_map. }
    rewrite E. lia.
  - assert (Ea : (p_id a =? p_id p) = false).
    { apply Z.eqb_neq. intros E. apply Hnot. rewrite E. now apply in_map. }
    rewrite Ea, (IH Hn' Hin eq_refl). lia.
Qed.

Lemma SUM_some (g : producto -> Z) (l : list producto) :
  l <> [] -> SUM (map g l) = Some (fold_right Z.add 0 (map g l)).
Proof. destruct l; [congruence|reflexivity]. Qed.

Lemma update_nonempty i f (l : list producto) :
  l <> [] -> update_where_id i f l <> [].
Proof. destruct l; [congruence|discriminate]. Qed.

(** X20: a movement moves the totals of the summary by what it moves
    the stock.  When a movement whose quantity binds as an integer and
    whose reason is no array commits on a product whose id no other row
    carries, the number of
    active products of the summary is unchanged, its stock total moves by
    the difference between the stock after and the stock before, its
    valuation by the price times that difference, and the count of the
    day's movements grows by one. *)
Theorem movement_moves_the_totals t now u b d p rest q :
  denied u = false -> inventoryValidation b = [] ->
  SELECT_producto_activo d (body_producto_id b) = p :: rest ->
  sql_int (body_cantidad b) = Some q ->
  is_array (body_motivo b) = false ->
  (t = entrada -> body_cantidad b = JNum q) ->
  (t = salida -> q <= stock_actual p) ->
  NoDup (map p_id (productos d)) ->
  let d' := store (POST_movimiento t no_faults now u b d) in
  let delta := spec_stock_after t (stock_actual p) q - stock_actual p in
  total_productos (resumen_stats d') = total_productos (resumen_stats d) /\
  (exists T, stock_total (resumen_stats d) = Some T /\
             stock_total (resumen_stats d') = Some (T + delta)) /\
  (exists V, valor_total (resumen_stats d) = Some V /\
             valor_total (resumen_stats d') = Some (V + precio p * delta)) /\
  movimientos_hoy (DATE now) d' = S (movimientos_hoy (DATE now) d).
Proof.
  intros Hu Hv Hs Hq Hm Hnum Hle Hn d' delta. subst d' delta.
  destruct (movement_commits t now u b d p rest q Hu Hv Hs Hq Hm Hnum Hle)
    as (pid & created & Hp & _ & ->).
  cbn [store]. unfold resumen_stats.
  cbn [total_productos stock_total valor_total both_writes productos].
  rewrite filter_activo_update.
  destruct (SELECT_in _ _ _ _ Hs) as (i & Hi & Hin & Hid & Ha).
  assert (Hpid : p_id p = pid) by congruence.
  assert (Hin' : In p (filter activo (productos d)))
    by (apply filter_In; split; assumption).
  pose proof (NoDup_ids_filter activo _ Hn) as Hn'.
  assert (Hne : filter activo (productos d) <> [])
    by (intros E; rewrite E in Hin'; contradiction).
  split; [|split; [|split]].
  - unfold update_where_id. apply length_map.
  - exists (fold_right Z.add 0 (map stock_actual (filter activo (productos d)))).
    split; [now apply SUM_some|].
    rewrite SUM_some by (now apply update_nonempty).
    rewrite (sum_after_update stock_actual pid _ _ _ p Hn' Hin' Hpid).
    cbn [set_stock stock_actual]. f_equal. lia.
  - exists (fold_right Z.add 0
              (map (fun x => precio x * stock_actual x)
                   (filter activo (productos d)))).
    split; [now apply SUM_some|].
    rewrite SUM_some by (now apply update_nonempty).
    rewrite (sum_after_update (fun x => precio x * stock_actual x) pid _ _ _
               p Hn' Hin' Hpid).
    cbn [set_stock stock_actual precio]. f_equal. lia.
  - unfold movimientos_hoy. cbn [both_writes movimientos_inventario].
    rewrite filter_app, length_app. cbn [filter fecha_movimiento].
    rewrite Z.eqb_refl. cbn [List.length]. lia.
Qed.

(** 3 pencils at 1.50 leave a stock of 10: the total goes from 10 to 7
    and the valuation from 15.00 to 10.50. *)
Lemma movement_moves_the_totals_witness :
  stock_total (resumen_stats
                 (store (POST_movimiento salida no_faults 100 admin
                           (pedir salida (JNum 3)) (almacen 10))))
  = Some 7 /\
  valor_total (resumen_stats
                 (store (POST_movimiento salida no_faults 100 admin
                           (pedir salida (JNum 3)) (almacen 10))))
  = Some 1050.
Proof.
  assert (N : NoDup (map p_id (productos (almacen 10)))).
  { repeat constructor. intros []. }
  destruct (movement_moves_the_totals salida 100 admin (pedir salida (JNum 3))
              (almacen 10) (lapiz 10) [] 3 eq_refl eq_refl eq_refl eq_refl
              eq_refl (fun _ => eq_refl)
              (fun _ => Zle_bool_imp_le 3 10 eq_refl) N)
    as (_ & (T & HT & HT') & (V & HV & HV') & _).
  cbn in HT, HV. injection HT as <-. injection HV as <-.
  split; assumption.
Defined.

(** ** The token and the user *)

Lemma split_on_no_space (t : string) :
  no_space t = true -> split_on " " t = [t].
Proof.
  induction t as [|a t IH]; intros H; [reflexivity|].
  cbn in H. apply andb_true_iff in H. destruct H as [Ha Ht].
  cbn [split_on]. apply negb_true_iff in Ha. rewrite Ha, (IH Ht). reflexivity.
Qed.

Lemma split_on_word (w rest : string) :
  no_space w = true ->
  split_on " " (w ++ String " " rest) = w :: split_on " " rest.
Proof.
  induction w as [|a w IH]; intros H; [reflexivity|].
  cbn in H. apply andb_true_iff in H. destruct H as [Ha Hw].
  cbn [append split_on]. apply negb_true_iff in Ha. rewrite Ha, (IH Hw).
  reflexivity.
Qed.

(** X21: the token is the second word of the [Authorization] header,
    and only that.  Whatever the first word is ([Bearer] or anything
    else), a header of two words or more yields its second word; a header
    of one word, or with two spaces after the first word, yields no
    token, and without a token the middleware answers 401 whatever the
    verifier and the tables. *)
Theorem token_is_second_word w t rest :
  no_space w = true -> no_space t = true -> t <> "" ->
  bearer_token (Some (w ++ " " ++ t)) = Some t /\
  bearer_token (Some (w ++ " " ++ t ++ " " ++ rest)) = Some t /\
  bearer_token (Some w) = None /\
  bearer_token (Some (w ++ "  " ++ t)) = None /\
  (forall jwt_verify JSON_parse fault a,
      authenticateToken jwt_verify JSON_parse fault a (Some w)
      = auth_reply 401 "Token de acceso requerido"
                   "Debe proporcionar un token de autenticación").
Proof.
  intros Hw Ht Hne.
  assert (Hsome : forall l, nth_error (w :: t :: l) 1 = Some t) by reflexivity.
  assert (E1 : bearer_token (Some (w ++ " " ++ t)) = Some t).
  { unfold bearer_token. change (w ++ " " ++ t)%string with (w ++ String " " t)%string.
    rewrite (split_on_word w t Hw), (split_on_no_space t Ht). cbn.
    destruct t; [congruence|reflexivity]. }
  assert (E2 : bearer_token (Some (w ++ " " ++ t ++ " " ++ rest)) = Some t).
  { unfold bearer_token.
    change (w ++ " " ++ t ++ " " ++ rest)%string
      with (w ++ String " " (t ++ String " " rest))%string.
    rewrite (split_on_word w _ Hw), (split_on_word t rest Ht). cbn.
    destruct t; [congruence|reflexivity]. }
  assert (E3 : bearer_token (Some w) = None).
  { unfold bearer_token. rewrite (split_on_no_space w Hw). reflexivity. }
  assert (E4 : bearer_token (Some (w ++ "  " ++ t)) = None).
  { unfold bearer_token.
    change (w ++ "  " ++ t)%string with (w ++ String " " (String " " t))%string.
    rewrite (split_on_word w _ Hw). reflexivity. }
  repeat split; try assumption.
  intros jwt_verify JSON_parse fault a. unfold authenticateToken.
  now rewrite E3.
Qed.

(** The header "Basic t7" yields the token "t7". *)
Lemma token_is_second_word_witness :
  bearer_token (Some "Basic t7") = Some "t7".
Proof.
  refine (proj1 (token_is_second_word "Basic" "t7" "" eq_refl eq_refl _)).
  discriminate.
Defined.

Lemma SELECT_usuario_in a uid us r rest :
  SELECT_usuario a uid = (us, r) :: rest ->
  In us (usuarios a) /\ us_id us = uid /\ us_activo us = true /\
  In r (roles a) /\ rol_id r = us_rol_id us.
Proof.
  intros H.
  assert (Hin : In (us, r) (SELECT_usuario a uid))
    by (rewrite H; left; reflexivity).
  unfold SELECT_usuario in Hin. apply in_flat_map in Hin.
  destruct Hin as (us' & Hus & Hr). apply filter_In in Hus.
  destruct Hus as [Hus Hc]. apply andb_true_iff in Hc. destruct Hc as [Hi Ha].
  apply in_map_iff in Hr. destruct Hr as (r' & [= <- <-] & Hr').
  apply filter_In in Hr'. destruct Hr' as [Hr' Hj].
  apply Z.eqb_eq in Hi, Hj. auto.
Qed.

(** X22: the middleware lets a request through only for a token that
    verifies to the id of an active user, and what it puts on the
    request is that user with the name and the permissions of the user's
    role; when the id of a verified token belongs to no active user, a
    user who has been deactivated for instance, the answer is 401
    "Usuario no válido". *)
Theorem authenticated_means_active_user jwt_verify JSON_parse fault a header :
  (forall r,
      authenticateToken jwt_verify JSON_parse fault a header = auth_next r ->
      exists token us rol,
        bearer_token header = Some token /\
        jwt_verify token = Decoded (ru_id r) /\
        In us (usuarios a) /\ us_id us = ru_id r /\ us_activo us = true /\
        In rol (roles a) /\ rol_id rol = us_rol_id us /\
        ru_username r = us_username us /\ ru_rol r = rol_nombre rol /\
        ru_permisos r = parse_permisos JSON_parse (rol_permisos rol)) /\
  (forall token uid,
      bearer_token header = Some token -> jwt_verify token = Decoded uid ->
      fault = false ->
      (forall us, In us (usuarios a) -> us_id us = uid -> us_activo us = false) ->
      authenticateToken jwt_verify JSON_parse fault a header
      = auth_reply 401 "Usuario no válido"
                   "El usuario no existe o está inactivo").
Proof.
  split.
  - intros r. unfold authenticateToken.
    destruct (bearer_token header) as [token|]; [|discriminate].
    destruct (jwt_verify token) as [uid|name] eqn:Ej.
    + destruct fault; [discriminate|].
      destruct (SELECT_usuario a uid) as [|[us rol] rest] eqn:Es; [discriminate|].
      intros [= <-]. cbn [ru_id ru_username ru_rol ru_permisos].
      destruct (SELECT_usuario_in _ _ _ _ _ Es) as (H1 & H2 & H3 & H4 & H5).
      exists token, us, rol. rewrite H2. repeat split; auto.
    + destruct (String.eqb name "JsonWebTokenError"); [discriminate|].
      destruct (String.eqb name "TokenExpiredError"); discriminate.
  - intros token uid Ht Ej -> Hnone. unfold authenticateToken.
    rewrite Ht, Ej.
    assert (E : filter (fun us => (us_id us =? uid) && us_activo us)
                       (usuarios a) = []).
    { apply filter_none. intros us Hus.
      destruct (us_id us =? uid) eqn:Ei; [|reflexivity].
      apply Z.eqb_eq in Ei. now rewrite (Hnone us Hus Ei). }
    unfold SELECT_usuario. rewrite E. reflexivity.
Qed.

(** ** Who can move stock *)

Lemma movement_changes_only_on_201 t f now u b d :
  store (POST_movimiento t f now u b d) = d \/
  status_of (reply (POST_movimiento t f now u b d)) = 201 /\ denied u = false.
Proof.
  destruct (POST_movimiento_cases t f now u b d)
    as [(cs & r & E & ->)
       |(p & rest & created & failed & Hs & Hu & Hv & Hlt & Hc & Hf &
         [[_ ->]|(pid & c & nueva & Hp & Hc' & Hn & ->)])];
    cbn [store reply]; auto.
Qed.

(** X23: nobody moves stock without a valid token of an active user
    whose role carries [all] or [inventory].  Served behind the
    middleware, a movement request either leaves the tables as they
    were, or its header carries a token that verifies to the id of an
    active user, and in the permissions of that user's role [all] or
    [inventory] is worth true. *)
Theorem stock_moves_only_for_permitted_users
    jwt_verify JSON_parse auth_fault a header t f now b d :
  let o := served_movimiento jwt_verify JSON_parse auth_fault a header
                             t f now b d in
  store o = d \/
  exists token us rol,
    bearer_token header = Some token /\
    jwt_verify token = Decoded (us_id us) /\
    In us (usuarios a) /\ us_activo us = true /\
    In rol (roles a) /\ rol_id rol = us_rol_id us /\
    let permisos := parse_permisos JSON_parse (rol_permisos rol) in
    (truthy_json (prop permisos "all") = true \/
     truthy_json (prop permisos "inventory") = true).
Proof.
  intros o. subst o. unfold served_movimiento, authenticateToken.
  destruct (bearer_token header) as [token|]; [|left; reflexivity].
  destruct (jwt_verify token) as [uid|name] eqn:Ej.
  - destruct auth_fault; [left; reflexivity|].
    destruct (SELECT_usuario a uid) as [|[us rol] rest] eqn:Es;
      [left; reflexivity|].
    destruct (SELECT_usuario_in _ _ _ _ _ Es) as (H1 & H2 & H3 & H4 & H5).
    assert (G : forall u,
               route_user
                 (mkReqUser (us_id us) (us_username us) (us_email us)
                    (us_nombre us) (us_apellido us) (rol_nombre rol)
                    (us_rol_id us)
                    (parse_permisos JSON_parse (rol_permisos rol))) = Some u ->
               denied u = false ->
               truthy_json
                 (prop (parse_permisos JSON_parse (rol_permisos rol)) "all")
               = true \/
               truthy_json
                 (prop (parse_permisos JSON_parse (rol_permisos rol))
                       "inventory") = true).
    { intros u Hr Hd. unfold route_user in Hr. cbn [ru_permisos ru_id] in Hr.
      unfold denied in Hd.
      destruct (parse_permisos JSON_parse (rol_permisos rol));
        cbv iota in Hr; try discriminate; injection Hr as <-;
        cbn [permisos_all permisos_inventory prop] in Hd |- *;
        match goal with
        | |- ?x = true \/ ?y = true =>
            destruct x eqn:Ex; [now left|]; destruct y eqn:Ey; [now right|];
            cbn in Hd; discriminate Hd
        end. }
    destruct (route_user _) as [u|] eqn:Er; [|left; reflexivity].
    destruct (movement_changes_only_on_201 t f now u b d) as [E|[_ Hd]];
      [left; exact E|].
    right. exists token, us, rol. rewrite H2.
    repeat (split; [assumption || reflexivity|]).
    exact (G u eq_refl Hd).
  - destruct (String.eqb name "JsonWebTokenError"); [left; reflexivity|].
    destruct (String.eqb name "TokenExpiredError"); left; reflexivity.
Qed.

(** X24: a role whose permissions are unreadable locks its users out of
    the movements.  For a request whose token verifies to an active
    user: when the [permisos] of the role are text that does not parse,
    every movement route answers 403; when they are NULL, every movement
    route answers 500 with its own error message; in both cases before
    any call to the storage of products and without a change. *)
Theorem unreadable_permissions_lock_out
    jwt_verify JSON_parse a header token uid us rol rest t f now b d :
  bearer_token header = Some token -> jwt_verify token = Decoded uid ->
  SELECT_usuario a uid = (us, rol) :: rest ->
  let o := served_movimiento jwt_verify JSON_parse false a header
                             t f now b d in
  (forall s, rol_permisos rol = VStr s -> JSON_parse s = None ->
             status_of (reply o) = 403 /\ store o = d /\ calls o = []) /\
  (rol_permisos rol = VNull ->
   o = mkOutcome (server_error (catch_message t)) d []).
Proof.
  intros Ht Ej Es o. subst o.
  unfold served_movimiento, authenticateToken. rewrite Ht, Ej, Es. split.
  - intros s Hs Hp. unfold route_user. cbn [ru_permisos ru_id].
    rewrite Hs. cbn [parse_permisos]. rewrite Hp.
    cbn [prop assoc truthy_json].
    unfold POST_movimiento.
    destruct t; cbn [prepare];
      unfold entrada_prepare, salida_prepare, ajuste_prepare;
      cbn [denied permisos_all permisos_inventory negb andb complete
           reply store calls status_of]; repeat split; reflexivity.
  - intros Hn. unfold route_user. cbn [ru_permisos]. rewrite Hn. reflexivity.
Qed.

(** Luis, whose role carries permissions that do not parse, is answered
    403 when he sends 5 pencils. *)
Lemma unreadable_permissions_lock_out_witness :
  status_of
    (reply (served_movimiento verifica no_parse false
              (mkAuthDb [luis] [mkRol 3 "usuario" (VStr "{oops")])
              (Some "Bearer t8") entrada no_faults 100
              (pedir entrada (JNum 5)) (almacen 10))) = 403.
Proof.
  exact (proj1 (proj1 (unreadable_permissions_lock_out verifica no_parse
                         (mkAuthDb [luis] [mkRol 3 "usuario" (VStr "{oops")])
                         (Some "Bearer t8") "t8" 8 luis
                         (mkRol 3 "usuario" (VStr "{oops")) []
                         entrada no_faults 100 (pedir entrada (JNum 5))
                         (almacen 10) eq_refl eq_refl eq_refl)
                      "{oops" eq_refl eq_refl)).
Defined.

(** X25: the condition of the routes is laxer than [checkPermission].
    Whoever [checkPermission('inventory')] would let through is let
    through by the movement routes; but the routes also let through a
    user whose [inventory] permission is an object whatever its flags,
    a user [checkPermission] refuses unless [read] is true. *)
Theorem routes_laxer_than_checkPermission r :
  (checkPermission "inventory" (Some r) = check_next ->
   exists u, route_user r = Some u /\ denied u = false) /\
  (forall flags,
      prop (ru_permisos r) "inventory" = Some (VObj flags) ->
      (exists u, route_user r = Some u /\ denied u = false) /\
      (is_true (prop (ru_permisos r) "all") = false ->
       is_true (assoc "read" flags) = false ->
       checkPermission "inventory" (Some r)
       = check_reply 403 "Acceso denegado"
                     "No tiene permisos para acceder a este recurso")).
Proof.
  split.
  - unfold checkPermission, route_user.
    destruct (ru_permisos r) as [|bb|z|s|items|fields];
      try discriminate; cbn [prop is_true]; try discriminate.
    intros H. eexists. split; [reflexivity|].
    unfold denied. cbn [permisos_all permisos_inventory prop].
    destruct (assoc "all" fields) as [[|[|]| | | |]|] eqn:Ea;
      cbn [is_true truthy_json negb andb] in *; try reflexivity;
      destruct (assoc "inventory" fields) as [[|[|]| | | |]|] eqn:Ei;
      cbn [is_true truthy_json negb andb] in *; try reflexivity;
      try discriminate;
      try (destruct (z =? 0); cbn; try reflexivity; discriminate);
      try (destruct (String.eqb s ""); cbn; try reflexivity; discriminate).
  - intros flags Hp.
    destruct (ru_permisos r) as [|bb|z|s|items|fields] eqn:Er;
      cbn [prop] in Hp; try discriminate.
    split.
    + unfold route_user. rewrite Er. eexists. split; [reflexivity|].
      unfold denied. cbn [permisos_all permisos_inventory prop].
      rewrite Hp. cbn [truthy_json negb]. apply andb_false_r.
    + intros Ha Hr. unfold checkPermission. rewrite Er. cbn [prop] in *.
      rewrite Ha, Hp, Hr. reflexivity.
Qed.

(** Luis has the role [usuario] of [schema.sql], whose [inventory]
    permission is the object with [write] false: his entry of 5 pencils
    is answered 201 all the same. *)
Example usuario_role_registers_movements :
  status_of
    (reply (served_movimiento verifica no_parse false personal
              (Some "Bearer t8") entrada no_faults 100
              (pedir entrada (JNum 5)) (almacen 10))) = 201.
Proof. reflexivity. Qed.

(** ** The list of products *)

Lemma products_rows_spec cats d p :
  In p (map pr_p (products_rows cats d)) <->
  In p (productos d) /\ activo p = true.
Proof.
  unfold products_rows. rewrite in_map_iff. split.
  - intros (r & <- & Hr). apply in_flat_map in Hr.
    destruct Hr as (x & Hx & Hr). apply filter_In in Hx.
    destruct (filter (fun c => c_id c =? categoria_id x) cats) as [|c cs].
    + destruct Hr as [<-|[]]. exact Hx.
    + apply in_map_iff in Hr. destruct Hr as (c' & <- & _). exact Hx.
  - intros Hp.
    destruct (filter (fun c => c_id c =? categoria_id p) cats) as [|c cs] eqn:E.
    + exists (mkProductRow p None). split; [reflexivity|].
      apply in_flat_map. exists p. split; [now apply filter_In|].
      rewrite E. now left.
    + exists (mkProductRow p (Some (c_nombre c))). split; [reflexivity|].
      apply in_flat_map. exists p. split; [now apply filter_In|].
      rewrite E. now left.
Qed.

(** X26: the list of products shows the active products and only them.
    In a 200 answer of [GET /api/products] every active product appears,
    with or without a row for its category, no inactive product does, in
    particular none that has been retired, and no row comes before a row
    created later. *)
Theorem products_list_is_the_active_ones created_at u cats d rows :
  GET_products created_at u cats d rows ->
  (forall p, In p (map pr_p rows) <-> In p (productos d) /\ activo p = true) /\
  StronglySorted (fun a b => created_at (pr_p b) <= created_at (pr_p a)) rows /\
  (forall fault now0 u' id d0,
      d = snd (DELETE_products fault now0 u' id d0) ->
      status_of (fst (DELETE_products fault now0 u' id d0)) = 200 ->
      forall p, In p (map pr_p rows) -> sql_int id <> Some (p_id p)).
Proof.
  intros H. destruct H as [sorted _ Hperm Hsorted].
  assert (Hspec : forall p, In p (map pr_p sorted) <->
                            In p (productos d) /\ activo p = true).
  { intros p. rewrite <- products_rows_spec. split; intros Hin.
    - apply (Permutation_in _ (Permutation_sym (Permutation_map pr_p Hperm))).
      exact Hin.
    - apply (Permutation_in _ (Permutation_map pr_p Hperm)). exact Hin. }
  split; [exact Hspec|]. split; [exact Hsorted|].
  intros fault now0 u' id d0 Hd H200 p Hp Hid.
  apply Hspec in Hp. destruct Hp as [Hin Ha].
  destruct (DELETE_products_ok _ _ _ _ _ H200) as (i & Hi & _ & E).
  rewrite E in Hd. rewrite Hd in Hin. cbn [productos] in Hin.
  assert (i = p_id p) by congruence. subst i.
  assert (Hf : In p (filter (fun x => (p_id x =? p_id p) && activo x)
                       (update_where_id_activo (p_id p) (set_activo now0 false)
                                               (productos d0)))).
  { apply filter_In. split; [assumption|].
    rewrite Z.eqb_refl, Ha. reflexivity. }
  rewrite no_active_row_after_delete in Hf. contradiction.
Qed.

(** With the notebook retired, the list of scenario C holds the pencil
    alone. *)
Lemma products_list_is_the_active_ones_witness :
  (forall p,
      In p (map pr_p [mkProductRow (lapiz 7) (Some "Oficina")]) <->
      In p (productos (snd (DELETE_products false 0 admin (JStr "2") escenario_C)))
      /\ activo p = true) /\
  ~ In (cuaderno 9) (map pr_p [mkProductRow (lapiz 7) (Some "Oficina")]).
Proof.
  assert (G : GET_products (fun _ => 0) admin oficina
                (snd (DELETE_products false 0 admin (JStr "2") escenario_C))
                [mkProductRow (lapiz 7) (Some "Oficina")]);
    [|split; [exact (proj1 (products_list_is_the_active_ones _ _ _ _ _ G))
             |intros [H|[]]; discriminate H]].
  apply GET_products_ok.
  - reflexivity.
  - apply Permutation_refl.
  - repeat constructor.
Defined.

(** ** Requests for the same product that overlap *)

(** X27: of two movements of one product that overlap, the one that
    commits last wins.  When two requests, their quantities sent as
    numbers and their reasons no arrays, have both read the stock [s] of the same product before
    either commits, both are answered 201 and both rows record [s] as the
    stock before; the table of products ends exactly as if the first
    request had never been made, the stock being what the second request
    computed from [s]. *)
Theorem overlap_on_one_product_last_commit_wins
    tA nowA uA bA qA tB nowB uB bB qB d p rest :
  denied uA = false -> inventoryValidation bA = [] ->
  denied uB = false -> inventoryValidation bB = [] ->
  body_cantidad bA = JNum qA -> body_cantidad bB = JNum qB ->
  is_array (body_motivo bA) = false -> is_array (body_motivo bB) = false ->
  SELECT_producto_activo d (body_producto_id bA) = p :: rest ->
  sql_int (body_producto_id bB) = sql_int (body_producto_id bA) ->
  (tA = salida -> qA <= stock_actual p) ->
  (tB = salida -> qB <= stock_actual p) ->
  let s := run_events [ev_arrive tA no_faults uA bA;
                       ev_arrive tB no_faults uB bB;
                       ev_resume 0 no_faults nowA;
                       ev_resume 1 no_faults nowB]
                      (mkServer d [] []) in
  map status_of (answers s) = [201; 201] /\
  productos (tables s)
  = productos (store (POST_movimiento tB no_faults nowB uB bB d)) /\
  stock_read (tables s) (body_producto_id bA)
  = Some (spec_stock_after tB (stock_actual p) qB) /\
  exists mA mB,
    movimientos_inventario (tables s)
    = (movimientos_inventario d ++ [mA; mB])%list /\
    tipo mA = tA /\ tipo mB = tB /\
    cantidad_anterior mA = stock_actual p /\
    cantidad_anterior mB = stock_actual p /\
    cantidad_nueva mA = spec_stock_after tA (stock_actual p) qA /\
    cantidad_nueva mB = spec_stock_after tB (stock_actual p) qB.
Proof.
  intros HuA HvA HuB HvB HcA HcB HmA HmB Hs Hid HleA HleB s. subst s.
  assert (HqA : sql_int (body_cantidad bA) = Some qA) by (now rewrite HcA).
  assert (HqB : sql_int (body_cantidad bB) = Some qB) by (now rewrite HcB).
  assert (HsB : SELECT_producto_activo d (body_producto_id bB) = p :: rest).
  { unfold SELECT_producto_activo in *. now rewrite Hid. }
  assert (HltA : tA = salida ->
                 js_lt (stock_actual p) (body_cantidad bA) = false).
  { intros Ht. rewrite (js_lt_bound _ _ _ HqA). apply Z.ltb_ge. auto. }
  assert (HltB : tB = salida ->
                 js_lt (stock_actual p) (body_cantidad bB) = false).
  { intros Ht. rewrite (js_lt_bound _ _ _ HqB). apply Z.ltb_ge. auto. }
  destruct (prepare_reaches tA no_faults uA bA d p rest HuA HvA eq_refl Hs HltA)
    as (createdA & failedA & EA & HcrA & _).
  destruct (prepare_reaches tB no_faults uB bB d p rest HuB HvB eq_refl HsB HltB)
    as (createdB & failedB & EB & HcrB & _).
  destruct (SELECT_in _ _ _ _ Hs) as (pid & Hp & _).
  assert (HpB : sql_int (body_producto_id bB) = Some pid) by congruence.
  pose proof (transaction_goes_through nowA tA uA bA (stock_actual p) d pid
                (magnitude tA (stock_actual p) qA)
                (spec_stock_after tA (stock_actual p) qA) p rest Hp
                (registrada_value tA _ _ qA HqA)
                (nueva_value tA _ _ qA HqA (fun _ => HcA)) HmA Hs) as TA.
  set (d1 := both_writes nowA tA pid (magnitude tA (stock_actual p) qA)
               (stock_actual p) (spec_stock_after tA (stock_actual p) qA)
               (sql_text (body_motivo bA)) (user_id uA) d) in *.
  assert (Hs1 : SELECT_producto_activo d1 (body_producto_id bB)
                = map (set_stock nowA
                         (spec_stock_after tA (stock_actual p) qA))
                      (p :: rest)).
  { rewrite (SELECT_after_update d d1 _ pid nowA _ HpB) by reflexivity.
    now rewrite HsB. }
  pose proof (transaction_goes_through nowB tB uB bB (stock_actual p) d1 pid
                (magnitude tB (stock_actual p) qB)
                (spec_stock_after tB (stock_actual p) qB) _ _ HpB
                (registrada_value tB _ _ qB HqB)
                (nueva_value tB _ _ qB HqB (fun _ => HcB)) HmB Hs1) as TB.
  pose proof (transaction_goes_through nowB tB uB bB (stock_actual p) d pid
                (magnitude tB (stock_actual p) qB)
                (spec_stock_after tB (stock_actual p) qB) p rest HpB
                (registrada_value tB _ _ qB HqB)
                (nueva_value tB _ _ qB HqB (fun _ => HcB)) HmB HsB) as TB0.
  unfold run_events.
  cbn [fold_left step tables in_flight answers app take_slot].
  rewrite EA, EB. unfold complete. rewrite TA. cbn [store reply]. rewrite TB.
  cbn [store reply map]. rewrite HcrA, HcrB.
  split; [reflexivity|]. split; [|split].
  - unfold POST_movimiento. rewrite EB. unfold complete. rewrite TB0.
    cbn [store both_writes productos d1]. apply update_where_id_twice.
  - apply (stock_read_both_writes _ _ _ _ _ _ _ _ _ _
             (set_stock nowA (spec_stock_after tA (stock_actual p) qA) p)
             (map (set_stock nowA (spec_stock_after tA (stock_actual p) qA))
                  rest) Hp).
    rewrite (SELECT_after_update d d1 _ pid nowA _ Hp) by reflexivity.
    now rewrite Hs.
  - eexists _, _. cbn [both_writes movimientos_inventario d1].
    rewrite <- app_assoc. split; [reflexivity|].
    cbn. repeat split; reflexivity.
Qed.

(** Two exits of 4 pencils from a stock of 5 that overlap are both
    answered 201 and leave 1 pencil. *)
Lemma overlap_on_one_product_last_commit_wins_witness :
  stock_read
    (tables (run_events
               [ev_arrive salida no_faults admin (pedir salida (JNum 4));
                ev_arrive salida no_faults admin (pedir salida (JNum 4));
                ev_resume 0 no_faults 100; ev_resume 1 no_faults 100]
               (mkServer (almacen 5) [] [])))
    (JNum 1) = Some 1.
Proof.
  exact (proj1 (proj2 (proj2
           (overlap_on_one_product_last_commit_wins
              salida 100 admin (pedir salida (JNum 4)) 4
              salida 100 admin (pedir salida (JNum 4)) 4
              (almacen 5) (lapiz 5) []
              eq_refl eq_refl eq_refl eq_refl eq_refl eq_refl eq_refl eq_refl
              eq_refl eq_refl
              (fun _ => Zle_bool_imp_le 4 5 eq_refl)
              (fun _ => Zle_bool_imp_le 4 5 eq_refl))))).
Defined.

(** ** Stock under any schedule *)

Lemma exec_statement_nonneg now q d d' :
  stock_nonneg d -> statement_nonneg q ->
  exec_statement now q d = Some d' -> stock_nonneg d'.
Proof.
  intros Hd Hq. destruct q as [pid t c ant nueva mot uid|v id];
    cbn [exec_statement].
  - destruct (sql_int pid); [|discriminate].
    destruct (sql_int c); [|discriminate].
    destruct (sql_int nueva); [|discriminate].
    destruct (is_array mot); [discriminate|].
    destruct (existsb _ (productos d)); [|discriminate].
    intros [= <-]. exact Hd.
  - destruct (sql_int v) as [n|] eqn:E; [|discriminate].
    destruct (sql_int id) as [i|];
      [|destruct (is_array id); [discriminate|]];
      intros [= <-]; [|exact Hd].
    unfold stock_nonneg. cbn [productos].
    apply Forall_update_where_id; [exact Hd|].
    intros p _ _. cbn. apply (Hq n E).
Qed.

Lemma run_statements_nonneg f now qs :
  Forall statement_nonneg qs ->
  forall k d d', stock_nonneg d ->
    run_statements f now k qs d = Some d' -> stock_nonneg d'.
Proof.
  induction 1 as [|q qs Hq Hqs IH]; intros k d d' Hd; cbn [run_statements].
  - intros [= <-]. exact Hd.
  - destruct (aborts_at f k); [discriminate|].
    destruct (exec_statement now q d) as [d1|] eqn:E; [|discriminate].
    apply IH. now apply (exec_statement_nonneg now q d).
Qed.

Lemma prepare_nonneg t f u b d :
  stock_nonneg d -> prepared_nonneg (Some (prepare t f u b d)).
Proof.
  intros Hd. destruct (prepare t f u b d) as [cs r|qs created failed] eqn:E;
    [exact I|].
  apply prepare_ready in E.
  destruct E as (p & rest & _ & Hv & _ & Hs & Hlt & -> & _).
  cbn [prepared_nonneg]. unfold queries_of.
  constructor; [exact I|]. constructor; [|constructor].
  intros n Hn.
  destruct (SELECT_in _ _ _ _ Hs) as (i & _ & Hin & _).
  apply inventoryValidation_nil in Hv. destruct Hv as [_ Hv].
  apply (nueva_nonneg t (stock_actual p) (body_cantidad b)); auto.
  apply (proj1 (Forall_forall _ _) Hd p Hin).
Qed.

Lemma take_slot_nonneg k l :
  Forall prepared_nonneg l ->
  prepared_nonneg (fst (take_slot k l)) /\
  Forall prepared_nonneg (snd (take_slot k l)).
Proof.
  revert k. induction l as [|x l IH]; intros k H;
    [destruct k; split; [exact I|constructor|exact I|constructor]|].
  inversion H as [|? ? Hx Hl]; subst.
  destruct k as [|k]; cbn [take_slot].
  - split; [exact Hx|]. constructor; [exact I|exact Hl].
  - destruct (IH k Hl) as [Hp Hr].
    destruct (take_slot k l) as [p r]. cbn [fst snd] in *.
    split; [exact Hp|]. constructor; assumption.
Qed.

Lemma step_nonneg e s : server_nonneg s -> server_nonneg (step e s).
Proof.
  intros [Hd Hf]. destruct e as [t f u b|k f now]; cbn [step].
  - split; [exact Hd|]. cbn [in_flight].
    apply Forall_app. split; [exact Hf|].
    constructor; [|constructor]. now apply prepare_nonneg.
  - destruct (take_slot_nonneg k _ Hf) as [Hp Hr].
    destruct (take_slot k (in_flight s)) as [[p|] r]; cbn [fst snd] in *;
      [|split; assumption].
    split; [|exact Hr]. cbn [tables].
    destruct p as [cs rp|qs created failed]; cbn [complete]; [exact Hd|].
    unfold executeTransaction.
    destruct (run_statements f now 0 qs (tables s)) as [d'|] eqn:E;
      cbn [store]; [|exact Hd].
    apply (run_statements_nonneg f now qs Hp 0 (tables s) d' Hd E).
Qed.

(** X28: stock does not go negative through the movement routes, in
    whatever order requests overlap.  If no product has a negative stock
    when the first of any number of movement requests arrives, none has
    one after any schedule of their reads and commits, with or without
    faults. *)
Theorem stock_never_negative_under_overlap es d ans :
  stock_nonneg d ->
  stock_nonneg (tables (run_events es (mkServer d [] ans))).
Proof.
  intros Hd.
  assert (H : server_nonneg (mkServer d [] ans)) by (split; [exact Hd|constructor]).
  revert H. generalize (mkServer d [] ans). unfold run_events.
  induction es as [|e es IH]; intros s H; cbn [fold_left].
  - exact (proj1 H).
  - apply IH. now apply step_nonneg.
Qed.

(** Three exits of 4, 3 and 5 pencils from a stock of 5, all read
    before any commits: no stock is negative afterwards. *)
Lemma stock_never_negative_under_overlap_witness :
  stock_nonneg
    (tables (run_events
               [ev_arrive salida no_faults admin (pedir salida (JNum 4));
                ev_arrive salida no_faults admin (pedir salida (JNum 3));
                ev_arrive salida no_faults admin (pedir salida (JNum 5));
                ev_resume 2 no_faults 100; ev_resume 0 no_faults 100;
                ev_resume 1 no_faults 101]
               (mkServer (almacen 5) [] []))).
Proof.
  apply stock_never_negative_under_overlap.
  repeat constructor. discriminate.
Defined.

(** ** The ledger as an audit chain *)

Lemma snoc_cases (A : Type) (l : list A) :
  l = [] \/ exists pre x, l = (pre ++ [x])%list.
Proof.
  destruct l as [|a l] using rev_ind; [left; reflexivity|].
  right. exists l, a. reflexivity.
Qed.

Lemma telescopes_snoc pre l m :
  telescopes (pre ++ [l]) -> cantidad_nueva l = cantidad_anterior m ->
  telescopes (pre ++ [l; m]).
Proof.
  induction pre as [|a pre IH]; intros H E.
  - cbn. split; [exact E|exact I].
  - destruct pre as [|b pre].
    + cbn in H |- *. destruct H as [H _]. repeat split; assumption.
    + cbn [app telescopes] in H |- *. destruct H as [H1 H2].
      split; [exact H1|]. apply IH; assumption.
Qed.

Lemma in_update_where_id i f ps p' :
  In p' (update_where_id i f ps) ->
  exists p, In p ps /\ (p' = p \/ p_id p = i /\ p' = f p).
Proof.
  unfold update_where_id. intros H. apply in_map_iff in H.
  destruct H as (p & E & Hin). exists p. split; [exact Hin|].
  destruct (p_id p =? i) eqn:Ei; [|left; now symmetry].
  right. apply Z.eqb_eq in Ei. split; [exact Ei|now symmetry].
Qed.

Lemma in_update_where_id_activo i f ps p' :
  In p' (update_where_id_activo i f ps) ->
  exists p, In p ps /\ (p' = p \/ p' = f p).
Proof.
  unfold update_where_id_activo. intros H. apply in_map_iff in H.
  destruct H as (p & E & Hin). exists p. split; [exact Hin|].
  destruct ((p_id p =? i) && activo p); [right|left]; now symmetry.
Qed.

Lemma in_ids_update (f : producto -> producto) (ps ps' : list producto) m :
  map p_id ps' = map p_id ps ->
  (exists p, In p ps /\ p_id p = producto_id m) ->
  exists p, In p ps' /\ p_id p = producto_id m.
Proof.
  intros E (p & Hin & Hid).
  assert (H : In (producto_id m) (map p_id ps')).
  { rewrite E, <- Hid. now apply in_map. }
  apply in_map_iff in H. destruct H as (p' & E' & Hin'). now exists p'.
Qed.

Lemma both_writes_chain now t pid c nueva mot uid d p :
  In p (productos d) -> p_id p = pid ->
  references_ok d /\ audit_chain d ->
  let d' := both_writes now t pid c (stock_actual p) nueva mot uid d in
  references_ok d' /\ audit_chain d'.
Proof.
  intros Hin Hid [[Hlt Hfk] [Hs Ht]] d'. subst d'.
  assert (Eids : map p_id (update_where_id pid (set_stock now nueva)
                                           (productos d))
                 = map p_id (productos d))
    by (apply map_update_where_id; intros x; reflexivity).
  split; [split|split].
  - cbn [both_writes productos next_producto_id].
    apply Forall_update_where_id; [exact Hlt|]. intros x _ Hx. exact Hx.
  - cbn [both_writes productos movimientos_inventario].
    apply Forall_app. split.
    + apply Forall_forall. intros m Hm.
      apply (in_ids_update (fun x => x) (productos d)); [exact Eids|].
      apply (proj1 (Forall_forall _ _) Hfk m Hm).
    + constructor; [|constructor]. cbn [producto_id].
      apply (in_ids_update (fun x => x) (productos d)
               _ (mkMovimiento (next_movimiento_id d) pid t c (stock_actual p)
                               nueva mot uid now)); [exact Eids|].
      exists p. split; assumption.
  - intros p' m' Hin' Hl. unfold ultimo_movimiento in Hl.
    cbn [both_writes productos movimientos_inventario] in Hin', Hl.
    rewrite filter_app, rev_app_distr in Hl. cbn [filter producto_id] in Hl.
    destruct (pid =? p_id p') eqn:E.
    + apply Z.eqb_eq in E. cbn in Hl. injection Hl as <-.
      cbn [cantidad_nueva].
      apply (update_where_id_stock pid now nueva (productos d) p' Hin').
      now symmetry.
    + apply Z.eqb_neq in E. cbn [rev app] in Hl.
      apply in_update_where_id in Hin'.
      destruct Hin' as (p0 & Hin0 & [->|[Hi ->]]).
      * apply Hs; assumption.
      * exfalso. apply E. destruct p0; cbn in *. now symmetry.
  - intros i. unfold movimientos_de.
    cbn [both_writes movimientos_inventario].
    rewrite filter_app. cbn [filter producto_id].
    destruct (pid =? i) eqn:E.
    + apply Z.eqb_eq in E. subst i.
      pose proof (Ht pid) as Hti. unfold movimientos_de in Hti.
      destruct (snoc_cases _ (filter (fun m => producto_id m =? pid)
                                     (movimientos_inventario d)))
        as [E0|(pre & l & E0)]; rewrite E0 in *; [exact I|].
      rewrite <- app_assoc. cbn [app].
      apply telescopes_snoc; [exact Hti|]. cbn [cantidad_anterior].
      symmetry. apply Hs; [exact Hin|].
      unfold ultimo_movimiento. rewrite Hid, E0, rev_app_distr. reflexivity.
    + rewrite app_nil_r. apply Ht.
Qed.

Lemma operation_keeps_chain o d :
  leaves_stock_column o ->
  references_ok d /\ audit_chain d ->
  references_ok (apply_operation o d) /\ audit_chain (apply_operation o d).
Proof.
  intros Ho H.
  destruct o as [t f now u b|fault now_ms now u b|fault now u id b|fault now u id];
    cbn [apply_operation]; [| | destruct Ho |].
  - destruct (POST_movimiento_cases t f now u b d)
      as [(cs & r & E & ->)
         |(p & rest & created & failed & Hsel & Hu & Hv & Hlt & Hc & Hf &
           [[_ ->]|(pid & c & nueva & Hp & Hc' & Hn & ->)])];
      cbn [store]; try exact H.
    destruct (SELECT_in _ _ _ _ Hsel) as (i & Hi & Hin & Hid & _).
    rewrite Hp in Hi. injection Hi as <-.
    now apply both_writes_chain.
  - unfold POST_products.
    destruct (denied_products u); [exact H|].
    destruct fault; [exact H|].
    destruct (sql_int_column (pb_stock b)) as [stock|]; [|exact H].
    cbn [snd]. destruct H as [[Hlt Hfk] [Hs Ht]].
    split; [split|split].
    + cbn [productos next_producto_id]. apply Forall_app. split.
      * apply Forall_forall. intros x Hx.
        pose proof (proj1 (Forall_forall _ _) Hlt x Hx) as Hx'.
        cbv beta in Hx'. lia.
      * constructor; [|constructor]. cbn [p_id]. lia.
    + cbn [productos movimientos_inventario].
      apply Forall_forall. intros m Hm.
      destruct (proj1 (Forall_forall _ _) Hfk m Hm) as (p & Hin & Hid).
      exists p. split; [|exact Hid]. apply in_or_app. now left.
    + intros p' m' Hin' Hl. unfold ultimo_movimiento in Hl.
      cbn [productos movimientos_inventario] in Hin', Hl.
      apply in_app_or in Hin'. destruct Hin' as [Hin'|[<-|[]]].
      * apply Hs; assumption.
      * exfalso. cbn [p_id] in Hl.
        assert (Hm : In m' (filter (fun m => producto_id m =? next_producto_id d)
                                   (movimientos_inventario d))).
        { apply in_rev.
          destruct (rev (filter _ (movimientos_inventario d))) as [|x xs];
            [discriminate|].
          injection Hl as ->. now left. }
        apply filter_In in Hm. destruct Hm as [Hm Hi].
        apply Z.eqb_eq in Hi.
        destruct (proj1 (Forall_forall _ _) Hfk m' Hm) as (p & Hin & Hid).
        pose proof (proj1 (Forall_forall _ _) Hlt p Hin) as Hp.
        cbv beta in Hp. lia.
    + exact Ht.
  - unfold DELETE_products.
    destruct (denied_products u); [exact H|].
    destruct fault; [exact H|].
    destruct (sql_int id) as [i|]; [|exact H].
    destruct (Nat.eqb _ 0); [exact H|].
    cbn [snd]. destruct H as [[Hlt Hfk] [Hs Ht]].
    assert (Eids : map p_id (update_where_id_activo i (set_activo now false)
                                                    (productos d))
                   = map p_id (productos d))
      by (apply map_update_where_id_activo; intros x; reflexivity).
    split; [split|split].
    + cbn [productos next_producto_id].
      apply Forall_update_where_id_activo; [exact Hlt|].
      intros x _ Hx. exact Hx.
    + cbn [productos movimientos_inventario].
      apply Forall_forall. intros m Hm.
      apply (in_ids_update (fun x => x) (productos d)); [exact Eids|].
      apply (proj1 (Forall_forall _ _) Hfk m Hm).
    + intros p' m' Hin' Hl.
      cbn [productos] in Hin'.
      apply in_update_where_id_activo in Hin'.
      destruct Hin' as (p0 & Hin0 & [->| ->]).
      * apply Hs; assumption.
      * change (stock_actual p0 = cantidad_nueva m').
        apply Hs; [exact Hin0|]. exact Hl.
    + exact Ht.
Qed.

(** X29: requests served one after the other, none of them a product
    update, keep the ledger an audit chain.  Start from tables where
    every movement is of a product of the table, product ids are below
    the counter, every product with movements holds the stock its last
    movement ended at, and the movements of each product follow one
    another without a gap.  After any sequence of movement requests,
    product creations and deactivations, failed or not, with quantities
    sent as numbers or as text, each served to its end before the next
    begins, the same holds.  Nothing is said of requests that overlap:
    two entries that both read the stock before either commits leave a
    gap in the chain. *)
Theorem ledger_stays_an_audit_chain ops d :
  references_ok d -> audit_chain d ->
  Forall leaves_stock_column ops ->
  audit_chain (run_operations ops d).
Proof.
  intros Hr Ha Hops.
  assert (H : references_ok d /\ audit_chain d) by (split; assumption).
  clear Hr Ha. revert d H. unfold run_operations.
  induction Hops as [|o ops Ho Hops IH]; intros d H; cbn [fold_left].
  - exact (proj2 H).
  - apply IH. now apply operation_keeps_chain.
Qed.

(** The pencil is created with stock 10, takes an entry of 5, an exit of
    3 and an adjustment to 20, and is then deactivated: the ledger is an
    audit chain. *)
Lemma ledger_stays_an_audit_chain_witness :
  audit_chain
    (run_operations
       [op_POST_products false 1700000000000 0 admin (ficha (JNum 10));
        op_movimiento entrada no_faults 100 admin (pedir entrada (JNum 5));
        op_movimiento salida no_faults 101 admin (pedir salida (JNum 3));
        op_movimiento ajuste no_faults 102 admin (pedir ajuste (JNum 20));
        op_DELETE_products false 0 admin (JStr "1")]
       vacio).
Proof.
  apply ledger_stays_an_audit_chain.
  - split; constructor.
  - split; [intros p m []|intros i; exact I].
  - repeat constructor.
Defined.

(** Requests that overlap are another matter: after two entries of 5
    pencils that both read the stock of 10 before either commits, the
    second row does not start where the first ended. *)
Example overlapping_entries_break_the_chain :
  ~ audit_chain
      (tables (run_events
                 [ev_arrive entrada no_faults admin (pedir entrada (JNum 5));
                  ev_arrive entrada no_faults admin (pedir entrada (JNum 5));
                  ev_resume 0 no_faults 100;
                  ev_resume 1 no_faults 101]
                 (mkServer (almacen 10) [] []))).
Proof.
  intros [_ H]. specialize (H 1). destruct H as [H _]. discriminate H.
Qed.
